(** * Knowledge-distillation trainer (training/kd_train.py)

    A shallow embedding of the example adapter ([KDDataset.__getitem__]),
    the distillation loss ([kd_loss]) and the evaluator ([evaluate_model])
    of [training/kd_train.py], with the properties stated for them, and
    of the dataset reader ([load_jsonl]) and the training step
    ([KDTrainer.compute_loss]).

    Numbers.  JSON numbers and the Python floats derived from them are
    IEEE binary64 values ([PrimFloat.float]); Python integers are [Z].
    The adapter and the ground-truth builder only convert and compare
    numbers, so they are modelled bit-exactly.  Classification metrics are
    ratios of counts and are computed in [Q].  The loss uses [exp], [log]
    and [pow]; it is modelled over [R] extended with one non-finite value,
    so rounding and overflow of float32 arithmetic are outside the model
    while division by zero, [0 * log 0] and powers of negative numbers are
    inside it. *)

From Stdlib Require Import ZArith List String Floats QArith Reals Lra Lia.
From Stdlib Require Lqa.
From stdpp Require Import base option list gmap strings.
Import ListNotations.

#[local] Set Warnings "-register-all,-inexact-float".

(** ** Python exceptions and the error monad *)

Inductive exn :=
| AttributeError | TypeError | ValueError | OverflowError
| IndexError | ZeroDivisionError | RuntimeError.

Inductive result (A : Type) :=
| Ok (a : A)
| Raise (e : exn).
Arguments Ok {A} a.
Arguments Raise {A} e.

#[global] Instance result_ret : MRet result := λ A a, Ok a.
#[global] Instance result_bind : MBind result := λ A B f c,
  match c with
  | Ok a => f a
  | Raise e => Raise e
  end.

(** A list comprehension [[f x for x in l]]: elements are evaluated left to
    right and the first exception aborts the whole comprehension. *)
Fixpoint list_comp {A B : Type} (f : A → result B) (l : list A) : result (list B) :=
  match l with
  | [] => Ok []
  | x :: l' =>
      match f x with
      | Ok y =>
          match list_comp f l' with
          | Ok ys => Ok (y :: ys)
          | Raise e => Raise e
          end
      | Raise e => Raise e
      end
  end.

(** ** JSON values as produced by [json.loads] *)

Inductive json :=
| JNull
| JBool (b : bool)
| JInt (z : Z)
| JFloat (f : float)
| JStr (s : string)
| JList (l : list json)
| JDict (m : gmap string json).

(** [d.get(key, default)]: only dictionaries have a [get] method. *)
Definition dict_get (d : json) (key : string) (dflt : json) : result json :=
  match d with
  | JDict m => Ok (default dflt (m !! key))
  | _ => Raise AttributeError
  end.

(** Python truth value testing. *)
Definition truthy (v : json) : bool :=
  match v with
  | JNull => false
  | JBool b => b
  | JInt z => negb (z =? 0)%Z
  | JFloat f => negb (PrimFloat.eqb f 0%float)
  | JStr s => negb (String.eqb s "")
  | JList l => match l with [] => false | _ => true end
  | JDict m => negb (bool_decide (m = ∅))
  end.

(** [float(z)] for a Python integer: the nearest binary64 value. *)
Definition float_of_Z (z : Z) : float :=
  SF2Prim (binary_normalize prec emax z 0 false).

(** [l[idx]] on a Python list: negative indices count from the end. *)
Definition py_index {A : Type} (l : list A) (idx : Z) : result A :=
  let n := Z.of_nat (length l) in
  let i := if (idx <? 0)%Z then (idx + n)%Z else idx in
  if ((i <? 0) || (n <=? i))%Z then Raise IndexError
  else match l !! Z.to_nat i with
       | Some x => Ok x
       | None => Raise IndexError
       end.

(** [v >= threshold] for a JSON value against a Python float.  Integers
    (and booleans, which are integers) are compared exactly, without
    rounding the integer to a float first. *)
Definition Z_ge_float (z : Z) (f : float) : bool :=
  match Prim2SF f with
  | S754_nan => false
  | S754_infinity s => s
  | S754_zero _ => (0 <=? z)%Z
  | S754_finite s m e =>
      let fm := cond_Zopp s (Z.pos m) in
      if (0 <=? e)%Z then (fm * 2 ^ e <=? z)%Z
      else (fm <=? z * 2 ^ (- e))%Z
  end.

Definition py_ge (v : json) (threshold : float) : result bool :=
  match v with
  | JBool b => Ok (Z_ge_float (if b then 1 else 0) threshold)
  | JInt z => Ok (Z_ge_float z threshold)
  | JFloat f => Ok (PrimFloat.leb threshold f)
  | _ => Raise TypeError
  end.

(** ** The label schema *)

Definition LABEL_KEYS : list string :=
  [ "humbleBragging"; "excessiveEmojis"; "engagementBait"; "fakeStories";
    "companyCulture"; "personalAnecdotes"; "hiringStories";
    "basicDecencyPraising"; "minorAchievements"; "buzzwordOveruse";
    "linkedinCliches"; "virtueSignaling"; "professionalOversharing";
    "mundaneLifeLessons"; "overall_cringe" ].

(** ** Tensors built by the adapter *)

(** [torch.tensor(x, dtype=torch.float32)] narrows a binary64 value to the
    nearest binary32 value (kept here in the binary64 carrier, where every
    binary32 value is exact). *)
Definition to_float32 (f : float) : float :=
  match Prim2SF f with
  | S754_finite s m e => SF2Prim (binary_round 24 128 s m e)
  | _ => f
  end.

Section KDDataset.
(** The tokenizer and the tensors it returns are external. *)
Context {token_tensor : Type}.
Variable tokenizer : json → Z → result (gmap string token_tensor).
Variable squeeze0 : token_tensor → token_tensor.
(** [float(s)] on a string: Python's float parser, [None] for a
    [ValueError]. *)
Variable float_of_str : string → option float.
Variable max_length : Z.

Inductive tensor :=
| TokenTensor (t : token_tensor)
| Float32 (v : list float).

(** [float(v)]. *)
Definition py_float (v : json) : result float :=
  match v with
  | JBool b => Ok (if b then 1%float else 0%float)
  | JInt z =>
      let f := float_of_Z z in
      if is_infinity f then Raise OverflowError else Ok f
  | JFloat f => Ok f
  | JStr s =>
      match float_of_str s with
      | Some f => Ok f
      | None => Raise ValueError
      end
  | _ => Raise TypeError
  end.

Definition tensor_float32 (l : list float) : tensor :=
  Float32 (map to_float32 l).

Definition tensor_float32_of_ints (l : list Z) : tensor :=
  Float32 (map (λ z, to_float32 (float_of_Z z)) l).

(** [teacher_probs = [float(labels.get(label, 0.0)) for label in LABEL_KEYS]] *)
Definition teacher_probs_of (labels : json) : result (list float) :=
  list_comp (λ label, v ← dict_get labels label (JFloat 0); py_float v)
            LABEL_KEYS.

(** [[1 if hard_labels.get(label) else 0 for label in LABEL_KEYS]] *)
Definition hard_label_ints (hard_labels : json) : result (list Z) :=
  list_comp (λ label, v ← dict_get hard_labels label JNull;
                      Ok (if truthy v then 1 else 0)%Z)
            LABEL_KEYS.

Definition __len__ (data : list json) : Z := Z.of_nat (length data).

(** The item for [self.data[idx]].  The tokenizer is called with
    [truncation=True, padding="max_length", return_tensors="pt"], which
    are part of the external [tokenizer]. *)
Definition __getitem__ (data : list json) (idx : Z)
  : result (gmap string tensor) :=
  sample ← py_index data idx;
  post ← dict_get sample "post" (JDict ∅);
  text ← dict_get post "text" (JStr "");
  teacher ← dict_get sample "teacher" (JDict ∅);
  labels ← dict_get teacher "labels" (JDict ∅);
  teacher_probs ← teacher_probs_of labels;
  inputs ← tokenizer text max_length;
  let item : gmap string tensor :=
    (λ v, TokenTensor (squeeze0 v)) <$> (inputs : gmap string token_tensor) in
  let item := <["teacher_probs" := tensor_float32 teacher_probs]> item in
  hard_labels ← dict_get sample "human_labels" JNull;
  if truthy hard_labels then
    ints ← hard_label_ints hard_labels;
    Ok (<["labels" := tensor_float32_of_ints ints]> item)
  else
    Ok (<["labels" := tensor_float32 teacher_probs]> item).

End KDDataset.

Arguments TokenTensor {token_tensor} t.
Arguments Float32 {token_tensor} v.

(** ** The evaluator: ground truth and hard predictions *)

(** One cell of [hard_labels]:
    [1 if sample.get("human_labels", {}).get(label)
       else int(sample.get("teacher", {}).get("labels", {}).get(label, 0) >= threshold)].
    The teacher side is evaluated only when the human label is not truthy. *)
Definition ground_truth_entry (threshold : float) (sample : json)
    (label : string) : result Z :=
  human ← dict_get sample "human_labels" (JDict ∅);
  mark ← dict_get human label JNull;
  if truthy mark then Ok 1%Z
  else
    teacher ← dict_get sample "teacher" (JDict ∅);
    labels ← dict_get teacher "labels" (JDict ∅);
    prob ← dict_get labels label (JInt 0);
    above ← py_ge prob threshold;
    Ok (Z.b2z above).

(** One row of [hard_labels]: the comprehension over [LABEL_KEYS]. *)
Definition ground_truth_row (threshold : float) (sample : json)
    : result (list Z) :=
  list_comp (ground_truth_entry threshold sample) LABEL_KEYS.

Definition hard_labels_of (threshold : float) (data : list json)
    : result (list (list Z)) :=
  list_comp (ground_truth_row threshold) data.

(** ** Multi-label metrics (scikit-learn, [zero_division=0])

    [precision_recall_fscore_support] and [classification_report] are
    library code.  They are modelled from their definition on
    multilabel-indicator input: per label [j], [tp_sum] counts the rows
    with a non-zero entry in both matrices, [pred_sum] and [true_sum] the
    rows with a non-zero prediction, respectively ground truth; a ratio
    with a zero denominator is replaced by [zero_division].  The F1 score
    is [2 tp / (true + pred)], which is [2 p r / (p + r)] wherever both
    are defined.  The values are exact rationals.  The functions check
    their input first ([check_targets]); the definitions of the scores
    below are for input that passed the check. *)

Definition column (j : nat) (y : list (list Z)) : list Z :=
  map (λ row, nth j row 0%Z) y.

Definition count_nonzero (l : list Z) : Z :=
  Z.of_nat (length (List.filter (λ v, negb (v =? 0)%Z) l)).

Definition tp_sum (y_true y_pred : list (list Z)) (j : nat) : Z :=
  count_nonzero (zip_with Z.mul (column j y_true) (column j y_pred)).

Definition pred_sum (y_pred : list (list Z)) (j : nat) : Z :=
  count_nonzero (column j y_pred).

Definition true_sum (y_true : list (list Z)) (j : nat) : Z :=
  count_nonzero (column j y_true).

Definition _prf_divide (numerator denominator : Z) (zero_division : Q) : Q :=
  if (denominator =? 0)%Z then zero_division
  else (inject_Z numerator / inject_Z denominator)%Q.

Record prfs := {
  precision : Q;
  recall : Q;
  f1_score : Q;
  support : Z
}.

(** Scores from the three counts ([beta = 1]). *)
Definition prfs_of_counts (tp pred true : Z) (zero_division : Q) : prfs :=
  {| precision := _prf_divide tp pred zero_division;
     recall := _prf_divide tp true zero_division;
     f1_score := _prf_divide (2 * tp) (true + pred) zero_division;
     support := true |}.

(** [average=None]: one entry per label. *)
Definition label_prfs (y_true y_pred : list (list Z)) (zero_division : Q)
    (j : nat) : prfs :=
  prfs_of_counts (tp_sum y_true y_pred j) (pred_sum y_pred j)
                 (true_sum y_true j) zero_division.

Definition Qsum (l : list Q) : Q := fold_right Qplus 0%Q l.

Definition Qmean (l : list Q) : Q :=
  (Qsum l / inject_Z (Z.of_nat (length l)))%Q.

Definition Zsum (l : list Z) : Z := fold_right Z.add 0%Z l.

Definition per_label_prfs (y_true y_pred : list (list Z)) (zero_division : Q)
    : list prfs :=
  map (label_prfs y_true y_pred zero_division) (seq 0 (length LABEL_KEYS)).

(** [average="macro"]: the unweighted mean over the labels. *)
Definition macro_prfs (y_true y_pred : list (list Z)) (zero_division : Q) : prfs :=
  let rows := per_label_prfs y_true y_pred zero_division in
  {| precision := Qmean (map precision rows);
     recall := Qmean (map recall rows);
     f1_score := Qmean (map f1_score rows);
     support := Zsum (map support rows) |}.

(** [average="micro"]: the counts are summed over the labels first. *)
Definition micro_prfs (y_true y_pred : list (list Z)) (zero_division : Q) : prfs :=
  let js := seq 0 (length LABEL_KEYS) in
  prfs_of_counts (Zsum (map (tp_sum y_true y_pred) js))
                 (Zsum (map (pred_sum y_pred) js))
                 (Zsum (map (true_sum y_true) js)) zero_division.

(** [average="weighted"]: the mean over the labels weighted by support. *)
Definition weighted_prfs (y_true y_pred : list (list Z)) (zero_division : Q) : prfs :=
  let rows := per_label_prfs y_true y_pred zero_division in
  let total := Zsum (map support rows) in
  let wavg (f : prfs → Q) : Q :=
    if (total =? 0)%Z then zero_division
    else (Qsum (map (λ r, inject_Z (support r) * f r) rows) / inject_Z total)%Q in
  {| precision := wavg precision;
     recall := wavg recall;
     f1_score := wavg f1_score;
     support := total |}.

(** [average="samples"]: the same counts taken along each row, averaged
    over the rows. *)
Definition sample_prfs (zero_division : Q) (t p : list Z) : prfs :=
  prfs_of_counts (count_nonzero (zip_with Z.mul t p)) (count_nonzero p)
                 (count_nonzero t) zero_division.

Definition samples_prfs (y_true y_pred : list (list Z)) (zero_division : Q) : prfs :=
  let rows := zip_with (sample_prfs zero_division) y_true y_pred in
  {| precision := Qmean (map precision rows);
     recall := Qmean (map recall rows);
     f1_score := Qmean (map f1_score rows);
     support := Zsum (map (true_sum y_true) (seq 0 (length LABEL_KEYS))) |}.

(** [classification_report(..., target_names=LABEL_KEYS, zero_division=0,
    output_dict=True)]: a dictionary with one row per label name and the
    four average rows. *)
Definition classification_report (y_true y_pred : list (list Z))
    (zero_division : Q) : gmap string prfs :=
  list_to_map
    (zip LABEL_KEYS (per_label_prfs y_true y_pred zero_division)
     ++ [ ("micro avg", micro_prfs y_true y_pred zero_division);
          ("macro avg", macro_prfs y_true y_pred zero_division);
          ("weighted avg", weighted_prfs y_true y_pred zero_division);
          ("samples avg", samples_prfs y_true y_pred zero_division) ]).

(** The input validation shared by [classification_report], [f1_score]
    and [precision_recall_fscore_support]: the two matrices must have at
    least one row and the same shape (the same number of rows, and rows of
    the same width); otherwise the call raises [ValueError]. *)
Definition check_targets (y_true y_pred : list (list Z)) : result unit :=
  if bool_decide (y_true ≠ [] ∧ map length y_pred = map length y_true)
  then Ok tt
  else Raise ValueError.

(** The dictionary returned by [evaluate_model]; [macro_precision] and
    [macro_recall] are its entries ["precision"] and ["recall"]. *)
Record eval_metrics := {
  macro_f1 : Q;
  macro_precision : Q;
  macro_recall : Q;
  per_label : gmap string prfs
}.

Section Evaluator.
(** [trainer.predict(dataset).predictions] and [torch.sigmoid] are
    external; the logits and the probabilities are float32 values. *)
Variable predict : list json → list (list float).
Variable sigmoid : float → float.

(** [hard_preds = (probs >= threshold).astype(int)]: [probs] is a float32
    array, and NumPy compares it with the Python float [threshold]
    narrowed to float32. *)
Definition hard_preds_of (threshold : float) (logits : list (list float))
    : list (list Z) :=
  map (map (λ x, if PrimFloat.leb (to_float32 threshold) (sigmoid x)
                 then 1%Z else 0%Z))
      logits.

Definition evaluate_model (data : list json) (threshold : float)
    : result eval_metrics :=
  let logits := predict data in
  let hard_preds := hard_preds_of threshold logits in
  hard_labels ← hard_labels_of threshold data;
  check_targets hard_labels hard_preds ≫= λ _,
  let report := classification_report hard_labels hard_preds 0 in
  let macro := macro_prfs hard_labels hard_preds 0 in
  Ok {| macro_f1 := f1_score macro;
        macro_precision := precision macro;
        macro_recall := recall macro;
        per_label := report |}.

End Evaluator.

(** ** The distillation loss

    A tensor element is a real number, or [None] for a value that is not
    a finite real (an infinity or NaN).  Once such a value enters a sum
    it stays, so a loss of [None] reads "the loss is not a finite
    number".  Tensors of rank two are lists of rows.  The three tensors
    passed by the trainer have the same shape [B x N]; broadcasting of
    other shapes is not modelled and a shape mismatch raises. *)

Open Scope R_scope.

Definition xlift2 (f : R → R → R) (a b : option R) : option R :=
  match a, b with
  | Some x, Some y => Some (f x y)
  | _, _ => None
  end.

Definition xadd : option R → option R → option R := xlift2 Rplus.
Definition xmul : option R → option R → option R := xlift2 Rmult.

Definition xdiv (a b : option R) : option R :=
  match a, b with
  | Some x, Some y => if Req_dec_T y 0 then None else Some (x / y)
  | _, _ => None
  end.

Definition xsum (l : list (option R)) : option R :=
  fold_right xadd (Some 0) l.

Definition Rsum (l : list R) : R := fold_right Rplus 0 l.

(** Python's [x / y] on floats, as the exact quotient: the rounding of
    the quotient to binary64 is outside the model. *)
Definition py_div (x y : R) : result R :=
  if Req_dec_T y 0 then Raise ZeroDivisionError else Ok (x / y).

Definition is_integer (y : R) : bool :=
  if Req_dec_T (IZR (Int_part y)) y then true else false.

(** [x ** y] elementwise: a negative base has a real power only for an
    integer exponent, and [0 ** y] is infinite for negative [y]. *)
Definition torch_pow (x y : R) : option R :=
  if Rlt_dec 0 x then Some (Rpower x y)
  else if Req_dec_T x 0 then
    (if Rlt_dec 0 y then Some 0
     else if Req_dec_T y 0 then Some 1 else None)
  else
    (if is_integer y then Some (powerRZ x (Int_part y)) else None).

Definition tensor_pow (t : list (list R)) (y : R) : list (list (option R)) :=
  map (map (λ x, torch_pow x y)) t.

(** [t.sum(dim=-1, keepdim=True)]: one sum per row. *)
Definition sum_lastdim (t : list (list (option R))) : list (option R) :=
  map xsum t.

(** [t.clamp(min=m)] *)
Definition clamp_min (t : list (option R)) (m : R) : list (option R) :=
  map (option_map (Rmax m)) t.

(** [t / d] with [d] of shape [B x 1]: every row is divided by its own
    denominator. *)
Definition div_rows (t : list (list (option R))) (d : list (option R))
    : list (list (option R)) :=
  zip_with (λ row den, map (λ v, xdiv v den) row) t d.

(** [t / s] for a non-zero Python scalar [s]. *)
Definition div_scalar (t : list (list R)) (s : R) : list (list R) :=
  map (map (λ x, x / s)) t.

Definition Rlist_max (l : list R) : R :=
  match l with
  | [] => 0
  | x :: l' => fold_right Rmax x l'
  end.

(** [F.log_softmax(t, dim=-1)], computed as
    [x - max - log(sum(exp(x - max)))] along each row. *)
Definition log_softmax_row (x : list R) : list R :=
  let m := Rlist_max x in
  let lse := ln (Rsum (map (λ v, exp (v - m)) x)) in
  map (λ v, v - m - lse) x.

Definition log_softmax (t : list (list R)) : list (list R) :=
  map log_softmax_row t.

Definition shape {A : Type} (t : list (list A)) : list nat := map length t.

(** The pointwise term of [F.kl_div]: [xlogy(target, target) - target * input]. *)
Definition kl_pointwise (input : R) (target : option R) : option R :=
  match target with
  | Some q =>
      if Req_dec_T q 0 then Some 0
      else if Rlt_dec 0 q then Some (q * ln q - q * input)
      else None
  | None => None
  end.

(** [F.kl_div(input, target, reduction="batchmean")]: the sum of the
    pointwise terms divided by the batch size [input.size(0)], for two
    tensors of one shape.  The library broadcasts tensors of different
    shapes where it can; that is not modelled, and every shape difference
    raises here. *)
Definition kl_div_batchmean (input : list (list R))
    (target : list (list (option R))) : result (option R) :=
  if bool_decide (shape input = shape target) then
    let pointwise := zip_with (zip_with kl_pointwise) input target in
    Ok (xdiv (xsum (map xsum pointwise)) (Some (INR (length input))))
  else Raise RuntimeError.

(** The pointwise term of [F.binary_cross_entropy_with_logits]:
    [(1 - y) * x + m + log(exp(-m) + exp(-x - m))] with [m = max(-x, 0)]. *)
Definition bce_pointwise (x y : R) : R :=
  let max_val := Rmax (- x) 0 in
  (1 - y) * x + max_val + ln (exp (- max_val) + exp (- x - max_val)).

(** [F.binary_cross_entropy_with_logits(input, target, reduction="mean")]:
    the mean over all [B * N] elements. *)
Definition binary_cross_entropy_with_logits_mean (input target : list (list R))
    : result (option R) :=
  if bool_decide (shape input = shape target) then
    let pointwise := zip_with (zip_with bce_pointwise) input target in
    Ok (xdiv (Some (Rsum (map Rsum pointwise)))
             (Some (INR (length (concat input)))))
  else Raise ValueError.

(** The local variable [teacher_soft] of [kd_loss] after line 120: the
    teacher probabilities raised to [1/t] and renormalised per example. *)
Definition teacher_soft_of (teacher_probs : list (list R)) (temperature : R)
    : result (list (list (option R))) :=
  let t := temperature in
  inv_t ← py_div 1 t;
  let teacher_soft := tensor_pow teacher_probs inv_t in
  Ok (div_rows teacher_soft (clamp_min (sum_lastdim teacher_soft) 1e-9)).

(** The local variable [kl] of [kd_loss]: the temperature-scaled KL term. *)
Definition kd_loss_kl (student_logits teacher_probs : list (list R))
    (temperature : R) : result (option R) :=
  let t := temperature in
  teacher_soft ← teacher_soft_of teacher_probs t;
  let student_log_soft := log_softmax (div_scalar student_logits t) in
  kl ← kl_div_batchmean student_log_soft teacher_soft;
  Ok (xmul kl (Some (t * t))).

Definition kd_loss (student_logits teacher_probs labels : list (list R))
    (temperature alpha_kl alpha_ce : R) : result (option R) :=
  kl ← kd_loss_kl student_logits teacher_probs temperature;
  ce ← binary_cross_entropy_with_logits_mean student_logits labels;
  Ok (xadd (xmul (Some alpha_kl) kl) (xmul (Some alpha_ce) ce)).

(** *** The loss as the specification words it

    The definitions below follow the text of the specification, on plain
    real numbers; they are compared with [kd_loss] in the theorems. *)

(** A probability raised to a positive power. *)
Definition prob_pow (p e : R) : R :=
  if Req_dec_T p 0 then 0 else Rpower p e.

(** Each teacher probability raised to [1/T], divided by the sum of the
    example floored at [1e-9]. *)
Definition teacher_soft_spec (T : R) (p : list R) : list R :=
  let powered := map (λ x, prob_pow x (1 / T)) p in
  map (λ v, v / Rmax (Rsum powered) 1e-9) powered.

Definition softmax_spec (x : list R) : list R :=
  map (λ v, exp v / Rsum (map exp x)) x.

Definition log_softmax_spec (x : list R) : list R :=
  map ln (softmax_spec x).

(** [q * log q] with the convention [0 * log 0 = 0]. *)
Definition xlogx (q : R) : R :=
  if Req_dec_T q 0 then 0 else q * ln q.

(** The Kullback-Leibler divergence of one example, from the student's
    log-probabilities and the target distribution. *)
Definition kl_row_spec (logq q : list R) : R :=
  Rsum (zip_with (λ lq t, xlogx t - t * lq) logq q).

Definition KL_batchmean_spec (logq q : list (list R)) : R :=
  Rsum (zip_with kl_row_spec logq q) / INR (length logq).

Definition sigmoid_spec (x : R) : R := 1 / (1 + exp (- x)).

Definition bce_spec (x y : R) : R :=
  - (y * ln (sigmoid_spec x) + (1 - y) * ln (1 - sigmoid_spec x)).

Definition BCEWithLogits_mean_spec (x y : list (list R)) : R :=
  Rsum (map Rsum (zip_with (zip_with bce_spec) x y))
  / INR (length (concat x)).

Definition kl_term_spec (student_logits teacher_probs : list (list R)) (T : R) : R :=
  T * T * KL_batchmean_spec
            (map (λ x, log_softmax_spec (map (λ v, v / T) x)) student_logits)
            (map (teacher_soft_spec T) teacher_probs).

Definition kd_loss_spec (student_logits teacher_probs labels : list (list R))
    (T alpha_kl alpha_ce : R) : R :=
  alpha_kl * kl_term_spec student_logits teacher_probs T
  + alpha_ce * BCEWithLogits_mean_spec student_logits labels.

(** An entry of the teacher distribution at inverse temperature [beta],
    normalised without the floor, and the mean of [log p] under it. *)
Definition softened (beta : R) (row : list R) (p : R) : R :=
  prob_pow p beta / Rsum (map (λ x, prob_pow x beta) row).

Definition mean_log (beta : R) (row : list R) : R :=
  Rsum (map (λ p, softened beta row p * ln p) row).

(** The normalising sum at inverse temperature [beta]. *)
Definition partition (row : list R) (beta : R) : R :=
  Rsum (map (λ x, prob_pow x beta) row).

(** The gap in Gibbs' inequality between the distributions at [beta] and
    [beta'], entry by entry. *)
Definition gibbs_gap (row : list R) (beta beta' : R) (p : R) : R :=
  xlogx (softened beta row p)
  - softened beta row p * (beta' * ln p - ln (partition row beta'))
  - (softened beta row p - softened beta' row p).

(** Shannon entropy of a distribution, [- sum q log q]. *)
Definition entropy (q : list R) : R := - Rsum (map xlogx q).

Close Scope R_scope.

(** ** Views of a raw record

    The functions below read a record the way the specification speaks
    about it; the theorems relate them to what the code computes. *)

Definition as_object (o : option json) : gmap string json :=
  match o with
  | Some (JDict m) => m
  | _ => ∅
  end.

Definition sample_text (sample : json) : json :=
  match sample with
  | JDict m => default (JStr "") (as_object (m !! "post") !! "text")
  | _ => JStr ""
  end.

Definition teacher_labels (sample : json) : gmap string json :=
  match sample with
  | JDict m => as_object (as_object (m !! "teacher") !! "labels")
  | _ => ∅
  end.

Definition human_labels (sample : json) : json :=
  match sample with
  | JDict m => default JNull (m !! "human_labels")
  | _ => JNull
  end.

(** Human review marked the label: the mapping sends it to a truthy value. *)
Definition marked (human : json) (label : string) : bool :=
  match human with
  | JDict h => match h !! label with Some v => truthy v | None => false end
  | _ => false
  end.

(** The float a JSON number stands for. *)
Definition float_value (v : json) : float :=
  match v with
  | JFloat f => f
  | JInt z => float_of_Z z
  | JBool true => 1%float
  | _ => 0%float
  end.

Definition teacher_prob (sample : json) (label : string) : float :=
  float_value (default (JFloat 0) (teacher_labels sample !! label)).

(** The teacher probability of a label meets the threshold; a missing
    entry counts as 0. *)
Definition teacher_meets (threshold : float) (sample : json) (label : string) : bool :=
  match default (JInt 0) (teacher_labels sample !! label) with
  | JFloat f => PrimFloat.leb threshold f
  | JInt z => Z_ge_float z threshold
  | JBool b => Z_ge_float (Z.b2z b) threshold
  | _ => false
  end.

Definition in_unit_interval (f : float) : bool :=
  PrimFloat.leb 0 f && PrimFloat.leb f 1.

(** The input format: a JSON object whose ["post"], ["teacher"],
    ["teacher"]["labels"] and ["human_labels"] members, when present, are
    objects, and whose teacher label values are numbers. *)
Definition object_or_absent (o : option json) : bool :=
  match o with
  | None | Some (JDict _) => true
  | _ => false
  end.

Definition is_number (v : json) : bool :=
  match v with
  | JFloat _ | JBool _ => true
  | JInt z => negb (is_infinity (float_of_Z z))
  | _ => false
  end.

Definition conforms (sample : json) : bool :=
  match sample with
  | JDict m =>
      object_or_absent (m !! "post")
      && object_or_absent (m !! "teacher")
      && object_or_absent (as_object (m !! "teacher") !! "labels")
      && forallb (λ label, match teacher_labels sample !! label with
                           | Some v => is_number v
                           | None => true
                           end) LABEL_KEYS
      && object_or_absent (m !! "human_labels")
  | _ => false
  end.

(** The student's predictions for a dataset: one row per record, one
    logit per label. *)
Definition one_row_per_record (data : list json) (logits : list (list float))
    : Prop :=
  length logits = length data
  ∧ Forall (λ row, length row = length LABEL_KEYS) logits.

(** The item returned for a record of the input format, given the
    tokenizer's encoding of its text. *)
Definition item_of {token_tensor : Type}
    (squeeze0 : token_tensor → token_tensor) (sample : json)
    (enc : gmap string token_tensor) : gmap string (@tensor token_tensor) :=
  let probs := map (teacher_prob sample) LABEL_KEYS in
  <["labels" :=
      if truthy (human_labels sample)
      then tensor_float32_of_ints
             (map (λ label, Z.b2z (marked (human_labels sample) label)) LABEL_KEYS)
      else tensor_float32 probs]>
    (<["teacher_probs" := tensor_float32 probs]>
       ((λ v, TokenTensor (squeeze0 v)) <$> enc)).

(** ** Sample records and a stand-in tokenizer

    Concrete inputs used to run the definitions.  The stand-in tokenizer
    maps a string to its character codes, padded with zeros or truncated
    to [max_length], as a tensor of shape [[1; max_length]]. *)

Record toy_tensor := {
  tshape : list nat;
  tdata : list Z
}.

Definition toy_squeeze0 (t : toy_tensor) : toy_tensor :=
  match tshape t with
  | 1%nat :: s => {| tshape := s; tdata := tdata t |}
  | _ => t
  end.

Definition char_codes (s : string) : list Z :=
  map (λ c, Z.of_nat (Ascii.nat_of_ascii c)) (list_ascii_of_string s).

Definition toy_tokenizer (text : json) (max_length : Z)
    : result (gmap string toy_tensor) :=
  match text with
  | JStr s =>
      let n := Z.to_nat max_length in
      Ok {[ "input_ids" :=
              {| tshape := [1%nat; n];
                 tdata := firstn n (char_codes s ++ repeat 0%Z n) |} ]}
  | _ => Raise ValueError
  end.

Definition no_float_strings (s : string) : option float := None.

(** [{"post": {"text": "Excited to announce my promotion!"},
      "teacher": {"labels": {"humbleBragging": 0.9, "overall_cringe": 0.8}}}] *)
Definition promotion_post : gmap string json :=
  {[ "post" := JDict {[ "text" := JStr "Excited to announce my promotion!" ]};
     "teacher" :=
       JDict {[ "labels" :=
                  JDict {[ "humbleBragging" := JFloat 0.9;
                           "overall_cringe" := JFloat 0.8 ]} ]} ]}.

Definition unreviewed_record : json := JDict promotion_post.

(** The same record with ["human_labels": {"excessiveEmojis": true}]: human
    review marked only a label the teacher scored 0, and did not mark the
    two labels the teacher scored high. *)
Definition reviewed_record : json :=
  JDict (<["human_labels" := JDict {[ "excessiveEmojis" := JBool true ]}]>
           promotion_post).

(** A record whose teacher score is not a probability. *)
Definition overconfident_record : json :=
  JDict {[ "post" := JDict {[ "text" := JStr "hi" ]};
           "teacher" :=
             JDict {[ "labels" := JDict {[ "humbleBragging" := JFloat 1.5 ]} ]} ]}.

(** A record whose ["post"] member is [null]. *)
Definition null_post_record : json := JDict {[ "post" := JNull ]}.

(** A stand-in student that scores a label 4 when the evaluator's ground
    truth at threshold 0.5 is positive and -4 otherwise, and a stand-in
    squashing function [1/2 + x / (2 (1 + |x|))]. *)
Definition oracle_predict (data : list json) : list (list float) :=
  map (λ sample,
         map (λ label,
                if marked (human_labels sample) label
                   || teacher_meets 0.5 sample label
                then 4%float else (-4)%float)
             LABEL_KEYS)
      data.

Definition softsign_sigmoid (x : float) : float :=
  (0.5 + 0.5 * (x / (1 + abs x)))%float.

Definition sample_ground_truth : list (list Z) :=
  [ [1; 0; 0; 0; 0; 0; 0; 0; 0; 0; 0; 0; 0; 0; 1];
    [1; 1; 0; 0; 0; 0; 0; 0; 0; 0; 0; 0; 0; 0; 1] ]%Z.

(** A batch of one example for the loss: the teacher vector of the
    promotion post, a student that scores every label 0, and the teacher
    vector as supervision target. *)
Definition promotion_teacher_row : list R :=
  [0.9; 0; 0; 0; 0; 0; 0; 0; 0; 0; 0; 0; 0; 0; 0.8]%R.

Definition zero_row : list R :=
  [0; 0; 0; 0; 0; 0; 0; 0; 0; 0; 0; 0; 0; 0; 0]%R.

(** A teacher vector with all its mass on the first label. *)
Definition one_hot_row : list R :=
  [1; 0; 0; 0; 0; 0; 0; 0; 0; 0; 0; 0; 0; 0; 0]%R.

(** A teacher vector whose only non-zero entry is [1e-20], and the logits
    of a student that is confident about the first label. *)
Definition faint_teacher_row : list R :=
  [1e-20; 0; 0; 0; 0; 0; 0; 0; 0; 0; 0; 0; 0; 0; 0]%R.

Definition confident_logits : list R :=
  [4; -4; -4; -4; -4; -4; -4; -4; -4; -4; -4; -4; -4; -4; -4]%R.

(** A teacher vector with two distinct positive entries, both tiny. *)
Definition two_faint_row : list R :=
  [1e-10; 1e-20; 0; 0; 0; 0; 0; 0; 0; 0; 0; 0; 0; 0; 0]%R.


(** The sum of an example's powered teacher probabilities, before the
    floor. *)
Definition powered_sum (T : R) (row : list R) : R :=
  Rsum (map (λ p, prob_pow p (1 / T)) row).

(** The claim that the adapter succeeds on a record with a teacher tensor
    of [N] entries, all in the unit interval. *)
Definition teacher_tensor_in_unit_interval {token_tensor : Type}
    (tokenizer : json → Z → result (gmap string token_tensor))
    (squeeze0 : token_tensor → token_tensor)
    (float_of_str : string → option float) (max_length : Z)
    (sample : json) : Prop :=
  ∃ item probs,
    __getitem__ tokenizer squeeze0 float_of_str max_length [sample] 0 = Ok item
    ∧ item !! "teacher_probs" = Some (Float32 probs)
    ∧ length probs = length LABEL_KEYS
    ∧ Forall (λ p, in_unit_interval p = true) probs.

(** ** Reading a dataset: [load_jsonl]

    A text file opened for reading yields its lines, each a string of
    Unicode code points.  Opening and decoding the file, and
    [json.loads], are external. *)

(** The characters [str.strip()] removes: those for which [str.isspace]
    holds. *)
Definition is_whitespace (c : N) : bool :=
  ((9 <=? c) && (c <=? 13) || (28 <=? c) && (c <=? 32)
   || (c =? 133) || (c =? 160) || (c =? 5760)
   || (8192 <=? c) && (c <=? 8202)
   || (c =? 8232) || (c =? 8233) || (c =? 8239) || (c =? 8287)
   || (c =? 12288))%N.

Fixpoint lstrip (s : list N) : list N :=
  match s with
  | c :: s' => if is_whitespace c then lstrip s' else s
  | [] => []
  end.

(** [s.strip()] *)
Definition strip (s : list N) : list N := rev (lstrip (rev (lstrip s))).

(** The truth value of a string: it is not empty. *)
Definition str_truthy (s : list N) : bool :=
  match s with
  | [] => false
  | _ :: _ => true
  end.

(** A filtered comprehension [[f x for x in l if cond x]]. *)
Fixpoint list_comp_if {A B : Type} (f : A → result B) (cond : A → bool)
    (l : list A) : result (list B) :=
  match l with
  | [] => Ok []
  | x :: l' =>
      if cond x then
        match f x with
        | Ok y =>
            match list_comp_if f cond l' with
            | Ok ys => Ok (y :: ys)
            | Raise e => Raise e
            end
        | Raise e => Raise e
        end
      else list_comp_if f cond l'
  end.

Section LoadJsonl.
Variable json_loads : list N → result json.

(** [[json.loads(line) for line in fh if line.strip()]] *)
Definition load_jsonl (fh : list (list N)) : result (list json) :=
  list_comp_if json_loads (λ line, str_truthy (strip line)) fh.

End LoadJsonl.

(** A stand-in parser that reads the documents [{}] and [null], with
    surrounding whitespace, and rejects every other line. *)
Definition toy_json_loads (line : list N) : result json :=
  match strip line with
  | [123; 125]%N => Ok (JDict ∅)
  | [110; 117; 108; 108]%N => Ok JNull
  | _ => Raise ValueError
  end.

(** ** The training step: [KDTrainer.compute_loss]

    The batch handed to [compute_loss] is a dictionary of tensors that
    the method mutates with [pop]; a computation of the step is a function
    from the dictionary to the dictionary it leaves and an outcome.  The
    student model is external. *)

Inductive py_exn :=
| KeyError (key : string)
| Builtin (e : exn).

Inductive outcome (A : Type) :=
| Returned (a : A)
| Threw (e : py_exn).
Arguments Returned {A} a.
Arguments Threw {A} e.

Abbreviation batch := (gmap string (list (list R))).

Definition step (A : Type) : Type := batch → batch * outcome A.

Definition step_ret {A : Type} (a : A) : step A :=
  λ inputs, (inputs, Returned a).

Definition step_bind {A B : Type} (c : step A) (k : A → step B) : step B :=
  λ inputs,
    match c inputs with
    | (inputs', Returned a) => k a inputs'
    | (inputs', Threw e) => (inputs', Threw e)
    end.

Notation "'let!' x := c 'in' k" := (step_bind c (λ x, k))
  (at level 10, x name, c at level 100, k at level 200).

(** [inputs.pop(key)] *)
Definition pop (key : string) : step (list (list R)) :=
  λ inputs,
    match inputs !! key with
    | Some v => (delete key inputs, Returned v)
    | None => (inputs, Threw (KeyError key))
    end.

(** The dictionary as it is at this point of the step. *)
Definition current_inputs : step batch :=
  λ inputs, (inputs, Returned inputs).

(** A call that does not touch the dictionary. *)
Definition call {A : Type} (r : result A) : step A :=
  λ inputs,
    match r with
    | Ok a => (inputs, Returned a)
    | Raise e => (inputs, Threw (Builtin e))
    end.

(** The fields set by [KDTrainer.__init__]. *)
Record KDTrainer := {
  temperature : R;
  alpha_kl : R;
  alpha_ce : R
}.

(** The value of [(loss, outputs) if return_outputs else loss]. *)
Inductive loss_value (model_output : Type) :=
| Loss (loss : option R)
| LossAndOutputs (loss : option R) (outputs : model_output).
Arguments Loss {model_output} loss.
Arguments LossAndOutputs {model_output} loss outputs.

Section ComputeLoss.
Context {model_output : Type}.
(** The model called with the entries of [inputs] as keyword arguments,
    and the field [outputs.logits]. *)
Variable model : batch → result model_output.
Variable logits : model_output → list (list R).

Definition compute_loss (self : KDTrainer) (return_outputs : bool)
    : step (loss_value model_output) :=
  let! teacher_probs := pop "teacher_probs" in
  let! labels := pop "labels" in
  let! inputs := current_inputs in
  let! outputs := call (model inputs) in
  let! loss := call (kd_loss (logits outputs) teacher_probs labels
                             (temperature self) (alpha_kl self) (alpha_ce self)) in
  step_ret (if return_outputs then LossAndOutputs loss outputs else Loss loss).

End ComputeLoss.

(** A stand-in student whose logits are its ["input_ids"] tensor, and a
    batch of one example for it. *)
Definition toy_model (inputs : batch) : result (list (list R)) :=
  match inputs !! "input_ids" with
  | Some ids => Ok ids
  | None => Raise TypeError
  end.

Definition toy_batch : batch :=
  {[ "input_ids" := [zero_row];
     "teacher_probs" := [promotion_teacher_row];
     "labels" := [promotion_teacher_row] ]}.

(** ** Further views of a record and of the metrics *)

(** The members the adapter dereferences are objects where present. *)
Definition well_nested (sample : json) : bool :=
  match sample with
  | JDict m =>
      object_or_absent (m !! "post")
      && object_or_absent (m !! "teacher")
      && object_or_absent (as_object (m !! "teacher") !! "labels")
  | _ => false
  end.

(** The number of labels with at least one positive ground-truth row. *)
Definition supported_labels (y_true : list (list Z)) : nat :=
  length (List.filter (λ j, (0 <? true_sum y_true j)%Z)
                      (seq 0 (length LABEL_KEYS))).

(** The stand-in tokenizer's encoding of the promotion post at
    [max_length = 8], and a stand-in student that scores every label -4. *)
Definition promotion_encoding : gmap string toy_tensor :=
  {[ "input_ids" :=
       {| tshape := [1%nat; 8%nat];
          tdata := [69; 120; 99; 105; 116; 101; 100; 32]%Z |} ]}.

Definition silent_predict (data : list json) : list (list float) :=
  map (λ _, map (λ _, (-4)%float) LABEL_KEYS) data.

(** A stand-in student that reads the supervision target when it is
    handed one, and behaves as [toy_model] otherwise. *)
Definition peeking_model (inputs : batch) : result (list (list R)) :=
  match inputs !! "labels" with
  | Some labels => Ok labels
  | None => toy_model inputs
  end.

(** ** Properties of the example adapter *)

(** The number model on a few values: narrowing to float32, exact
    comparison of an integer with a float, and negative list indices. *)
Example to_float32_values :
  map to_float32 [0.9; 1; 0.5; 1e39; 1e-46]%float
  = [0.89999997615814209; 1; 0.5; infinity; 0]%float.
Proof. vm_compute. reflexivity. Qed.

Example integer_float_comparisons :
  [ Z_ge_float 1 0.5; Z_ge_float 0 0.5;
    Z_ge_float 9007199254740993 9007199254740992;
    Z_ge_float 9007199254740992 9007199254740994;
    Z_ge_float (-1) neg_infinity; Z_ge_float 5 nan ]
  = [ true; false; true; false; true; false ].
Proof. vm_compute. reflexivity. Qed.

Example negative_index :
  py_index [1; 2; 3]%Z (-1) = Ok 3%Z ∧ py_index [1; 2; 3]%Z (-4) = Raise IndexError
  ∧ py_index [1; 2; 3]%Z 3 = Raise IndexError.
Proof. repeat split. Qed.

Lemma list_comp_map {A B : Type} (f : A → result B) (g : A → B) (l : list A) :
  (∀ x, In x l → f x = Ok (g x)) → list_comp f l = Ok (map g l).
Proof.
  induction l as [|x l IH]; intros Hf; [reflexivity|].
  cbn [list_comp map].
  rewrite (Hf x (or_introl eq_refl)), IH; [reflexivity|].
  intros y Hy. apply Hf. now right.
Qed.

(** The indices a data loader draws, [0 <= idx < len(dataset)], are valid. *)
Lemma py_index_in_range (data : list json) (idx : Z) :
  (0 <= idx < __len__ data)%Z →
  ∃ sample, py_index data idx = Ok sample
            ∧ data !! Z.to_nat idx = Some sample.
Proof.
  unfold __len__, py_index. intros [H0 H1].
  destruct (Z.ltb_spec idx 0) as [?|_]; [lia|].
  destruct (Z.ltb_spec idx 0) as [?|_]; [lia|].
  destruct (Z.leb_spec (Z.of_nat (length data)) idx) as [?|_]; [lia|].
  cbn [orb].
  destruct (data !! Z.to_nat idx) as [sample|] eqn:E; [eauto|].
  apply lookup_ge_None in E. lia.
Qed.

Lemma dict_get_object (m : gmap string json) (k : string) :
  object_or_absent (m !! k) = true →
  dict_get (JDict m) k (JDict ∅) = Ok (JDict (as_object (m !! k))).
Proof.
  unfold dict_get. destruct (m !! k) as [[]|]; cbn; congruence.
Qed.

Lemma float32_of_bit (b : bool) :
  to_float32 (float_of_Z (Z.b2z b)) = (if b then 1 else 0)%float.
Proof. destruct b; vm_compute; reflexivity. Qed.

(** Inversion of a successful monadic step. *)
Tactic Notation "bind_ok" hyp(H) "as" ident(x) ident(E) :=
  match type of H with
  | (?c ≫= _) = Ok _ =>
      destruct c as [x|] eqn:E; cbn [mbind result_bind] in H; [|discriminate H]
  end.

Lemma dict_get_Ok (d : json) (k : string) (dflt v : json) :
  dict_get d k dflt = Ok v → ∃ m, d = JDict m ∧ v = default dflt (m !! k).
Proof.
  destruct d; cbn; try discriminate. intros [= <-]. eauto.
Qed.

Lemma list_comp_Ok_map {A B : Type} (f : A → result B) (g : A → B)
    (l : list A) (ys : list B) :
  (∀ x y, In x l → f x = Ok y → y = g x) →
  list_comp f l = Ok ys → ys = map g l.
Proof.
  revert ys. induction l as [|x l IH]; intros ys Hf; cbn [list_comp map].
  - now intros [= <-].
  - destruct (f x) as [y|] eqn:Ex; [|discriminate].
    destruct (list_comp f l) as [ys'|] eqn:El; [|discriminate].
    intros [= <-]. f_equal.
    + apply Hf; [now left|exact Ex].
    + apply IH; [|reflexivity]. intros x' y' Hin. apply Hf. now right.
Qed.

Lemma list_comp_length {A B : Type} (f : A → result B) (l : list A)
    (ys : list B) :
  list_comp f l = Ok ys → length ys = length l.
Proof.
  revert ys. induction l as [|x l IH]; intros ys; cbn [list_comp].
  - now intros [= <-].
  - destruct (f x) as [y|]; [|discriminate].
    destruct (list_comp f l) as [ys'|]; [|discriminate].
    intros [= <-]. cbn [length]. now rewrite (IH ys').
Qed.

Lemma list_comp_Forall {A B : Type} (f : A → result B) (P : B → Prop)
    (l : list A) (ys : list B) :
  (∀ x y, In x l → f x = Ok y → P y) →
  list_comp f l = Ok ys → Forall P ys.
Proof.
  revert ys. induction l as [|x l IH]; intros ys Hf; cbn [list_comp].
  - intros [= <-]. constructor.
  - destruct (f x) as [y|] eqn:Ex; [|discriminate].
    destruct (list_comp f l) as [ys'|] eqn:El; [|discriminate].
    intros [= <-]. constructor.
    + apply (Hf x); [now left|exact Ex].
    + apply IH; [|reflexivity]. intros x' y' Hin. apply Hf. now right.
Qed.

Lemma float32_marks (human : json) :
  map (λ z, to_float32 (float_of_Z z))
      (map (λ label, Z.b2z (marked human label)) LABEL_KEYS)
  = map (λ label, if marked human label then 1%float else 0%float) LABEL_KEYS.
Proof.
  rewrite map_map. apply map_ext. intros label. apply float32_of_bit.
Qed.

Section Adapter.
Context {token_tensor : Type}.
Variable tokenizer : json → Z → result (gmap string token_tensor).
Variable squeeze0 : token_tensor → token_tensor.
Variable float_of_str : string → option float.
Variable max_length : Z.

Lemma py_float_number (v : json) :
  is_number v = true → py_float float_of_str v = Ok (float_value v).
Proof.
  destruct v as [|[]|z|f|s|l|m]; try (cbn; congruence).
  unfold is_number, py_float, float_value.
  destruct (is_infinity (float_of_Z z)); [discriminate|reflexivity].
Qed.

Lemma teacher_probs_of_conforms (sample : json) :
  conforms sample = true →
  teacher_probs_of float_of_str (JDict (teacher_labels sample))
  = Ok (map (teacher_prob sample) LABEL_KEYS).
Proof.
  intros Hc. unfold teacher_probs_of. apply list_comp_map.
  intros label Hin. cbn [dict_get mbind result_bind].
  unfold teacher_prob.
  destruct sample as [| | | | | |m]; try discriminate.
  cbn [conforms] in Hc.
  apply andb_prop in Hc as [Hc _]. apply andb_prop in Hc as [_ Hc].
  rewrite forallb_forall in Hc. specialize (Hc label Hin).
  destruct (teacher_labels (JDict m) !! label) as [v|]; cbn [default from_option Datatypes.id].
  - now apply py_float_number.
  - reflexivity.
Qed.

Lemma hard_label_ints_dict (h : gmap string json) :
  hard_label_ints (JDict h)
  = Ok (map (λ label, Z.b2z (marked (JDict h) label)) LABEL_KEYS).
Proof.
  unfold hard_label_ints. apply list_comp_map. intros label _.
  cbn [dict_get mbind result_bind marked].
  destruct (h !! label) as [v|]; cbn [default from_option Datatypes.id]; [|reflexivity].
  now destruct (truthy v).
Qed.

Lemma getitem_conforms (data : list json) (idx : Z) (sample : json)
    (enc : gmap string token_tensor) :
  py_index data idx = Ok sample →
  conforms sample = true →
  tokenizer (sample_text sample) max_length = Ok enc →
  __getitem__ tokenizer squeeze0 float_of_str max_length data idx
  = Ok (item_of squeeze0 sample enc).
Proof.
  intros Hidx Hc Htok. unfold __getitem__. rewrite Hidx.
  cbn [mbind result_bind].
  pose proof (teacher_probs_of_conforms sample Hc) as Hprobs.
  destruct sample as [| | | | | |m]; try discriminate.
  cbn [conforms] in Hc.
  apply andb_prop in Hc as [Hc Hhuman]. apply andb_prop in Hc as [Hc _].
  apply andb_prop in Hc as [Hc Hlabels]. apply andb_prop in Hc as [Hpost Hteacher].
  rewrite (dict_get_object m "post" Hpost). cbn [mbind result_bind].
  rewrite (dict_get_object m "teacher" Hteacher). cbn [mbind result_bind].
  rewrite (dict_get_object _ "labels" Hlabels). cbn [mbind result_bind].
  cbn [teacher_labels] in Hprobs. rewrite Hprobs. cbn [mbind result_bind].
  cbn [dict_get mbind result_bind]. cbn [sample_text] in Htok.
  rewrite Htok. cbn [mbind result_bind].
  unfold item_of. cbn [human_labels].
  destruct (m !! "human_labels") as [h|] eqn:Hh; cbn [default from_option Datatypes.id].
  - destruct (truthy h) eqn:Ht; [|reflexivity].
    destruct h; try discriminate.
    rewrite hard_label_ints_dict. reflexivity.
  - reflexivity.
Qed.

Abbreviation getitem := (__getitem__ tokenizer squeeze0 float_of_str max_length).

(** Whenever the adapter returns, the supervision target is the binary
    vector of the human marks if [human_labels] is truthy, and the
    teacher tensor otherwise. *)
Lemma getitem_labels_inv (data : list json) (idx : Z)
    (item : gmap string tensor) :
  getitem data idx = Ok item →
  ∃ sample, py_index data idx = Ok sample ∧
    (truthy (human_labels sample) = true →
     item !! "labels"
     = Some (Float32 (map (λ label, if marked (human_labels sample) label
                                    then 1%float else 0%float) LABEL_KEYS))) ∧
    (truthy (human_labels sample) = false →
     item !! "labels" = item !! "teacher_probs").
Proof.
  unfold __getitem__. intros H.
  bind_ok H as sample Es. exists sample. split; [reflexivity|].
  bind_ok H as post Epost. apply dict_get_Ok in Epost as (m & -> & _).
  bind_ok H as text Etext. bind_ok H as teacher Eteacher.
  bind_ok H as labels Elabels. bind_ok H as probs Eprobs.
  bind_ok H as inputs Einputs.
  cbn [dict_get mbind result_bind] in H. cbn [human_labels].
  destruct (truthy (default JNull (m !! "human_labels"))) eqn:Ht.
  - bind_ok H as ints Eints. injection H as <-. split; [intros _|discriminate].
    rewrite lookup_insert_eq. unfold tensor_float32_of_ints. do 2 f_equal.
    destruct (default JNull (m !! "human_labels")) as [| | | | | |h] eqn:Eh;
      try discriminate.
    rewrite hard_label_ints_dict in Eints.
    replace ints with (map (λ label, Z.b2z (marked (JDict h) label)) LABEL_KEYS)
      by congruence.
    apply float32_marks.
  - injection H as <-. split; [discriminate|intros _].
    rewrite lookup_insert_eq, lookup_insert_ne by discriminate.
    now rewrite lookup_insert_eq.
Qed.



(** C7, amended.  On a record of the input format (members may be
    missing) the adapter succeeds; the tokenizer receives the post text,
    which is the empty string when missing; the teacher tensor has one
    entry per label, the float of the record's value (0.0 when the key is
    missing) narrowed to float32; and these floats lie in the unit
    interval as soon as the values present in the record do. *)
Theorem adapter_teacher_probs (data : list json) (idx : Z)
    (sample : json) (enc : gmap string token_tensor) :
  py_index data idx = Ok sample →
  conforms sample = true →
  tokenizer (sample_text sample) max_length = Ok enc →
  ∃ item probs,
    getitem data idx = Ok item
    ∧ (∀ m, sample = JDict m → as_object (m !! "post") !! "text" = None →
       sample_text sample = JStr "")
    ∧ (∀ k, k ≠ "teacher_probs" → k ≠ "labels" →
       item !! k = (λ v, TokenTensor (squeeze0 v)) <$> enc !! k)
    ∧ teacher_probs_of float_of_str (JDict (teacher_labels sample)) = Ok probs
    ∧ item !! "teacher_probs" = Some (Float32 (map to_float32 probs))
    ∧ length probs = 15%nat
    ∧ probs = map (teacher_prob sample) LABEL_KEYS
    ∧ (∀ label, teacher_labels sample !! label = None →
       teacher_prob sample label = 0%float)
    ∧ ((∀ label v, teacher_labels sample !! label = Some v →
        in_unit_interval (float_value v) = true) →
       Forall (λ p, in_unit_interval p = true) probs).
Proof.
  intros Hidx Hc Htok.
  exists (item_of squeeze0 sample enc), (map (teacher_prob sample) LABEL_KEYS).
  split; [now apply getitem_conforms|].
  split.
  { intros m -> Hnone. cbn [sample_text]. now rewrite Hnone. }
  split.
  { intros k Hk1 Hk2. unfold item_of.
    rewrite !lookup_insert_ne by congruence. apply lookup_fmap. }
  split; [now apply teacher_probs_of_conforms|].
  split.
  { unfold item_of. rewrite lookup_insert_ne by discriminate.
    now rewrite lookup_insert_eq. }
  split; [reflexivity|]. split; [reflexivity|]. split.
  { intros label Hnone. unfold teacher_prob. now rewrite Hnone. }
  intros Hrange. apply Forall_forall. intros p Hp.
  apply list_elem_of_In, in_map_iff in Hp as (label & <- & _).
  unfold teacher_prob.
  destruct (teacher_labels sample !! label) as [v|] eqn:Ev.
  - exact (Hrange label v Ev).
  - reflexivity.
Qed.

End Adapter.


(** The tensors built for the reviewed sample record: the human marks as
    supervision target next to the teacher scores. *)
Example reviewed_record_item :
  (item ← __getitem__ toy_tokenizer toy_squeeze0 no_float_strings 8
                      [unreviewed_record; reviewed_record] 1;
   Ok (item !! "labels", item !! "teacher_probs"))
  = Ok (Some (Float32 [0; 1; 0; 0; 0; 0; 0; 0; 0; 0; 0; 0; 0; 0; 0]%float),
        Some (Float32 (map to_float32
                         [0.9; 0; 0; 0; 0; 0; 0; 0; 0; 0; 0; 0; 0; 0; 0.8]%float))).
Proof. vm_compute. reflexivity. Qed.

Lemma adapter_teacher_probs_witness :
  ∃ item probs,
    __getitem__ toy_tokenizer toy_squeeze0 no_float_strings 8
                [unreviewed_record] 0 = Ok item
    ∧ (∀ m, unreviewed_record = JDict m →
       as_object (m !! "post") !! "text" = None →
       sample_text unreviewed_record = JStr "")
    ∧ (∀ k, k ≠ "teacher_probs" → k ≠ "labels" →
       item !! k
       = (λ v, TokenTensor (toy_squeeze0 v))
           <$> ({[ "input_ids" :=
                     {| tshape := [1%nat; 8%nat];
                        tdata := [69; 120; 99; 105; 116; 101; 100; 32]%Z |} ]}
                : gmap string toy_tensor) !! k)
    ∧ teacher_probs_of no_float_strings (JDict (teacher_labels unreviewed_record))
      = Ok probs
    ∧ item !! "teacher_probs" = Some (Float32 (map to_float32 probs))
    ∧ length probs = 15%nat
    ∧ probs = map (teacher_prob unreviewed_record) LABEL_KEYS
    ∧ (∀ label, teacher_labels unreviewed_record !! label = None →
       teacher_prob unreviewed_record label = 0%float)
    ∧ ((∀ label v, teacher_labels unreviewed_record !! label = Some v →
        in_unit_interval (float_value v) = true) →
       Forall (λ p, in_unit_interval p = true) probs).
Proof.
  refine (adapter_teacher_probs toy_tokenizer toy_squeeze0 no_float_strings 8
            [unreviewed_record] 0 unreviewed_record _ _ _ _).
  - vm_compute. reflexivity.
  - vm_compute. reflexivity.
  - vm_compute. reflexivity.
Defined.

(** C7 as stated fails: a teacher score of 1.5 in the record reaches the
    teacher tensor unchanged. *)
Lemma adapter_teacher_probs_out_of_range :
  ¬ teacher_tensor_in_unit_interval toy_tokenizer toy_squeeze0
      no_float_strings 8 overconfident_record.
Proof.
  intros (item & probs & Hrun & Hlook & _ & Hall).
  assert (∃ enc, toy_tokenizer (sample_text overconfident_record) 8 = Ok enc)
    as [enc Henc] by (eexists; reflexivity).
  rewrite (getitem_conforms toy_tokenizer toy_squeeze0 no_float_strings 8
             [overconfident_record] 0 overconfident_record enc)
    in Hrun; [|reflexivity|vm_compute; reflexivity|exact Henc].
  assert (item = item_of toy_squeeze0 overconfident_record enc) as ->
    by congruence.
  unfold item_of in Hlook.
  rewrite lookup_insert_ne, lookup_insert_eq in Hlook by discriminate.
  assert (probs = map to_float32
                    (map (teacher_prob overconfident_record) LABEL_KEYS)) as ->
    by (unfold tensor_float32 in Hlook; congruence).
  unfold LABEL_KEYS in Hall. cbn [map] in Hall.
  apply Forall_inv in Hall. vm_compute in Hall. discriminate.
Qed.

(** A ["post"] member that is [null] makes the adapter raise. *)
Lemma adapter_null_post_raises :
  __getitem__ toy_tokenizer toy_squeeze0 no_float_strings 8
              [null_post_record] 0 = Raise AttributeError.
Proof. vm_compute. reflexivity. Qed.

(** ** Properties of the evaluator's ground truth *)

Lemma lookup_map {A B : Type} (f : A → B) (l : list A) (i : nat) :
  map f l !! i = f <$> (l !! i).
Proof. exact (list_lookup_fmap f l i). Qed.

Lemma ground_truth_entry_conforms (threshold : float) (sample : json)
    (label : string) :
  conforms sample = true →
  In label LABEL_KEYS →
  ground_truth_entry threshold sample label
  = Ok (if marked (human_labels sample) label then 1%Z
        else Z.b2z (teacher_meets threshold sample label)).
Proof.
  intros Hc Hin. unfold ground_truth_entry.
  destruct sample as [| | | | | |m]; try discriminate.
  cbn [conforms] in Hc.
  apply andb_prop in Hc as [Hc Hhuman]. apply andb_prop in Hc as [Hc Hnum].
  apply andb_prop in Hc as [Hc Hlabels]. apply andb_prop in Hc as [_ Hteacher].
  rewrite forallb_forall in Hnum. specialize (Hnum label Hin).
  rewrite (dict_get_object m "human_labels" Hhuman).
  rewrite (dict_get_object m "teacher" Hteacher). cbn [mbind result_bind].
  rewrite (dict_get_object _ "labels" Hlabels). cbn [mbind result_bind].
  cbn [human_labels dict_get mbind result_bind].
  assert (truthy (default JNull (as_object (m !! "human_labels") !! label))
          = marked (default JNull (m !! "human_labels")) label) as Hmark.
  { destruct (m !! "human_labels") as [[| | | | | |h]|]; try discriminate;
      cbn [as_object default from_option Datatypes.id marked].
    - now destruct (h !! label).
    - now rewrite lookup_empty. }
  rewrite Hmark.
  destruct (marked (default JNull (m !! "human_labels")) label); [reflexivity|].
  unfold teacher_meets. cbn [teacher_labels] in Hnum |- *.
  destruct (as_object (as_object (m !! "teacher") !! "labels") !! label)
    as [v|]; cbn [default from_option Datatypes.id].
  - destruct v; try discriminate; reflexivity.
  - reflexivity.
Qed.

Lemma ground_truth_row_conforms (threshold : float) (sample : json) :
  conforms sample = true →
  ground_truth_row threshold sample
  = Ok (map (λ label, if marked (human_labels sample) label then 1%Z
                      else Z.b2z (teacher_meets threshold sample label))
            LABEL_KEYS).
Proof.
  intros Hc. unfold ground_truth_row. apply list_comp_map.
  intros label Hin. now apply ground_truth_entry_conforms.
Qed.

(** Whenever a ground-truth cell is computed, it has the stated value. *)
Lemma ground_truth_entry_inv (threshold : float) (sample : json)
    (label : string) (v : Z) :
  ground_truth_entry threshold sample label = Ok v →
  v = if marked (human_labels sample) label then 1%Z
      else Z.b2z (teacher_meets threshold sample label).
Proof.
  unfold ground_truth_entry. intros H.
  bind_ok H as human Ehuman. apply dict_get_Ok in Ehuman as (m & -> & ->).
  bind_ok H as mark Emark. apply dict_get_Ok in Emark as (h & Eh & ->).
  cbn [human_labels].
  assert (marked (default JNull (m !! "human_labels")) label
          = truthy (default JNull (h !! label))) as ->.
  { destruct (m !! "human_labels") as [hl|];
      cbn [default from_option Datatypes.id] in Eh |- *.
    - subst hl. cbn [marked]. now destruct (h !! label).
    - injection Eh as <-. cbn [marked]. now rewrite lookup_empty. }
  destruct (truthy (default JNull (h !! label))); [congruence|].
  bind_ok H as teacher Eteacher. apply dict_get_Ok in Eteacher as (m' & [= <-] & ->).
  bind_ok H as labels Elabels. apply dict_get_Ok in Elabels as (t & Et & ->).
  bind_ok H as prob Eprob. apply dict_get_Ok in Eprob as (ls & Els & ->).
  bind_ok H as above Eabove. injection H as <-. f_equal.
  unfold teacher_meets. cbn [teacher_labels].
  assert (as_object (as_object (m !! "teacher") !! "labels") = ls) as ->.
  { destruct (m !! "teacher") as [tv|];
      cbn [default from_option Datatypes.id as_object] in Et |- *.
    - subst tv. cbn [as_object].
      destruct (t !! "labels") as [lv|];
        cbn [default from_option Datatypes.id as_object] in Els |- *;
        [now subst lv|congruence].
    - injection Et as <-. rewrite lookup_empty in Els |- *.
      cbn [default from_option Datatypes.id as_object] in Els |- *. congruence. }
  destruct (default (JInt 0) (ls !! label)); cbn [py_ge] in Eabove;
    try discriminate; injection Eabove as <-; reflexivity.
Qed.

(** The integer 0 that stands for a missing teacher entry does not meet
    a threshold above zero. *)
Lemma zero_below_positive_threshold (threshold : float) :
  PrimFloat.ltb 0 threshold = true → Z_ge_float 0 threshold = false.
Proof.
  rewrite ltb_spec. unfold Z_ge_float.
  change (Prim2SF 0) with (S754_zero false).
  destruct (Prim2SF threshold) as [s|s| |s m e]; cbn; try discriminate.
  - now destruct s.
  - destruct s; [discriminate|]. intros _. cbn [cond_Zopp].
    destruct (Z.leb_spec 0 e) as [He|He]; apply Z.leb_gt.
    + apply Z.mul_pos_pos; [lia|]. apply Z.pow_pos_nonneg; lia.
    + rewrite Z.mul_0_l. lia.
Qed.

(** C3. Whenever the evaluator builds its ground truth, entry [i] of an
    example's row is 1 if [human_labels] maps label [i] to a truthy value,
    and otherwise is 1 exactly when the teacher probability of label [i]
    (0 when the entry is missing) is at least the threshold; it does build
    it on every dataset of records of the input format; and for a
    threshold above zero a missing teacher entry does not meet it. *)
Theorem evaluator_ground_truth (threshold : float) (data : list json) :
  (∀ rows, hard_labels_of threshold data = Ok rows →
     rows = map (λ sample,
                   map (λ label,
                          if marked (human_labels sample) label then 1%Z
                          else if teacher_meets threshold sample label then 1%Z
                               else 0%Z)
                       LABEL_KEYS)
                data)
  ∧ (Forall (λ sample, conforms sample = true) data →
     ∃ rows, hard_labels_of threshold data = Ok rows)
  ∧ (∀ sample label,
       PrimFloat.ltb 0 threshold = true →
       teacher_labels sample !! label = None →
       teacher_meets threshold sample label = false).
Proof.
  split; [|split].
  - intros rows. unfold hard_labels_of. apply list_comp_Ok_map.
    intros sample row _. unfold ground_truth_row. apply list_comp_Ok_map.
    intros label v _ Hv. apply ground_truth_entry_inv in Hv as ->.
    destruct (marked (human_labels sample) label); [reflexivity|].
    now destruct (teacher_meets threshold sample label).
  - intros Hall. eexists. unfold hard_labels_of. apply list_comp_map.
    intros sample Hin. rewrite Forall_forall in Hall.
    apply ground_truth_row_conforms, Hall, list_elem_of_In, Hin.
  - intros sample label Hpos Hnone. unfold teacher_meets. rewrite Hnone.
    now apply zero_below_positive_threshold.
Qed.

(** The two rows of the sample dataset at threshold 0.5. *)
Example ground_truth_of_samples :
  hard_labels_of 0.5 [unreviewed_record; reviewed_record]
  = Ok sample_ground_truth.
Proof. vm_compute. reflexivity. Qed.

(** A missing teacher entry counts as the integer 0, which meets a
    threshold of 0. *)
Example missing_entry_meets_zero_threshold :
  ground_truth_entry 0 unreviewed_record "fakeStories" = Ok 1%Z.
Proof. vm_compute. reflexivity. Qed.

(** A ["human_labels"] member that is [null] is accepted by the adapter
    and makes the evaluator raise. *)
Example null_human_labels_raises :
  ground_truth_row 0.5 (JDict (<["human_labels" := JNull]> promotion_post))
  = Raise AttributeError.
Proof. vm_compute. reflexivity. Qed.

Section Divergence.
Context {token_tensor : Type}.
Variable tokenizer : json → Z → result (gmap string token_tensor).
Variable squeeze0 : token_tensor → token_tensor.
Variable float_of_str : string → option float.
Variable max_length : Z.

(** C9. For a record of the input format whose [human_labels] is truthy,
    and a label [i] that human review did not mark while its teacher
    probability meets the threshold, the supervision target built by the
    adapter is 0.0 at [i] and the evaluator's ground truth is 1 at [i]. *)
Theorem target_and_ground_truth_diverge (data : list json) (idx : Z)
    (sample : json) (enc : gmap string token_tensor) (threshold : float)
    (i : nat) (label : string) :
  py_index data idx = Ok sample →
  conforms sample = true →
  tokenizer (sample_text sample) max_length = Ok enc →
  truthy (human_labels sample) = true →
  LABEL_KEYS !! i = Some label →
  marked (human_labels sample) label = false →
  teacher_meets threshold sample label = true →
  ∃ item target row,
    __getitem__ tokenizer squeeze0 float_of_str max_length data idx = Ok item
    ∧ item !! "labels" = Some (Float32 target)
    ∧ target !! i = Some 0%float
    ∧ ground_truth_row threshold sample = Ok row
    ∧ row !! i = Some 1%Z.
Proof.
  intros Hidx Hc Htok Hhuman Hi Hmark Hmeets.
  pose proof (getitem_conforms tokenizer squeeze0 float_of_str max_length
                data idx sample enc Hidx Hc Htok) as Hrun.
  destruct (getitem_labels_inv tokenizer squeeze0 float_of_str max_length
              data idx _ Hrun) as (sample' & Hidx' & Hlabels & _).
  assert (sample' = sample) as -> by congruence.
  eexists _, _, _. split; [exact Hrun|].
  split; [exact (Hlabels Hhuman)|].
  split; [rewrite lookup_map, Hi; cbn; now rewrite Hmark|].
  split; [now apply ground_truth_row_conforms|].
  rewrite lookup_map, Hi. cbn. now rewrite Hmark, Hmeets.
Qed.

End Divergence.

Lemma target_and_ground_truth_diverge_witness :
  ∃ item target row,
    __getitem__ toy_tokenizer toy_squeeze0 no_float_strings 8
                [unreviewed_record; reviewed_record] 1 = Ok item
    ∧ item !! "labels" = Some (Float32 target)
    ∧ target !! 0%nat = Some 0%float
    ∧ ground_truth_row 0.5 reviewed_record = Ok row
    ∧ row !! 0%nat = Some 1%Z.
Proof.
  refine (target_and_ground_truth_diverge toy_tokenizer toy_squeeze0
            no_float_strings 8 [unreviewed_record; reviewed_record] 1
            reviewed_record _ 0.5 0 "humbleBragging" _ _ _ _ _ _ _).
  - vm_compute. reflexivity.
  - vm_compute. reflexivity.
  - vm_compute. reflexivity.
  - vm_compute. reflexivity.
  - vm_compute. reflexivity.
  - vm_compute. reflexivity.
  - vm_compute. reflexivity.
Defined.

(** ** Properties of the metrics *)

Lemma count_nonzero_nonneg (l : list Z) : (0 <= count_nonzero l)%Z.
Proof. unfold count_nonzero. lia. Qed.

Lemma count_nonzero_mul_self (c : list Z) :
  count_nonzero (zip_with Z.mul c c) = count_nonzero c.
Proof.
  unfold count_nonzero. f_equal.
  induction c as [|v c IH]; [reflexivity|].
  cbn [zip_with List.filter].
  destruct (Z.eqb_spec v 0) as [->|Hv].
  - cbn. exact IH.
  - destruct (Z.eqb_spec (v * v) 0) as [Hvv|_]; [nia|].
    cbn. now rewrite IH.
Qed.

Lemma count_nonzero_mul_le (a b : list Z) :
  (count_nonzero (zip_with Z.mul a b) <= count_nonzero a)%Z.
Proof.
  unfold count_nonzero. apply Nat2Z.inj_le.
  revert b. induction a as [|x a IH]; intros [|y b]; cbn; try lia.
  specialize (IH b).
  destruct (Z.eqb_spec (x * y) 0) as [Hxy|Hxy];
    destruct (Z.eqb_spec x 0) as [Hx|Hx]; cbn; try lia.
Qed.

Lemma prf_divide_zero_numerator (den : Z) : (_prf_divide 0 den 0 == 0)%Q.
Proof.
  unfold _prf_divide. destruct (den =? 0)%Z; [reflexivity|].
  unfold Qdiv. now rewrite Qmult_0_l.
Qed.

Lemma prf_divide_self (n d : Z) :
  n = d → (0 < d)%Z → (_prf_divide n d 0 == 1)%Q.
Proof.
  intros -> Hd. unfold _prf_divide.
  destruct (Z.eqb_spec d 0) as [Hz|_]; [lia|].
  apply Qmult_inv_r. unfold Qeq. cbn. lia.
Qed.

Lemma classification_report_label (y_true y_pred : list (list Z))
    (zero_division : Q) (j : nat) (label : string) :
  LABEL_KEYS !! j = Some label →
  classification_report y_true y_pred zero_division !! label
  = Some (label_prfs y_true y_pred zero_division j).
Proof.
  unfold classification_report, per_label_prfs.
  generalize (label_prfs y_true y_pred zero_division) as f.
  generalize (micro_prfs y_true y_pred zero_division) as r1.
  generalize (macro_prfs y_true y_pred zero_division) as r2.
  generalize (weighted_prfs y_true y_pred zero_division) as r3.
  generalize (samples_prfs y_true y_pred zero_division) as r4.
  intros r4 r3 r2 r1 f Hj.
  do 15 (destruct j as [|j]; [injection Hj as <-; vm_compute; reflexivity|]).
  discriminate.
Qed.

Lemma label_identical_f1 (y : list (list Z)) (j : nat) :
  (0 < true_sum y j)%Z → (f1_score (label_prfs y y 0 j) == 1)%Q.
Proof.
  intros Hpos. unfold label_prfs, prfs_of_counts. cbn [f1_score].
  unfold tp_sum. rewrite count_nonzero_mul_self.
  fold (true_sum y j). unfold pred_sum. fold (true_sum y j).
  apply prf_divide_self; lia.
Qed.

Lemma label_no_positive (y_true y_pred : list (list Z)) (j : nat) :
  true_sum y_true j = 0%Z →
  (precision (label_prfs y_true y_pred 0 j) == 0)%Q
  ∧ (recall (label_prfs y_true y_pred 0 j) == 0)%Q
  ∧ (f1_score (label_prfs y_true y_pred 0 j) == 0)%Q.
Proof.
  intros Hzero. unfold label_prfs, prfs_of_counts. cbn [precision recall f1_score].
  assert (tp_sum y_true y_pred j = 0%Z) as ->.
  { pose proof (count_nonzero_mul_le (column j y_true) (column j y_pred)).
    pose proof (count_nonzero_nonneg
                  (zip_with Z.mul (column j y_true) (column j y_pred))).
    unfold tp_sum, true_sum in *. lia. }
  repeat split; apply prf_divide_zero_numerator.
Qed.

(** The ground truth has one row per record and one entry per label. *)
Lemma hard_labels_shape (threshold : float) (data : list json)
    (hard_labels : list (list Z)) :
  hard_labels_of threshold data = Ok hard_labels →
  length hard_labels = length data
  ∧ Forall (λ row, length row = length LABEL_KEYS) hard_labels.
Proof.
  intros Hgt. split; [exact (list_comp_length _ _ _ Hgt)|].
  eapply list_comp_Forall; [|exact Hgt].
  intros sample row _ Hrow. exact (list_comp_length _ _ _ Hrow).
Qed.

Lemma same_width_rows {A B : Type} (n : nat) (a : list (list A))
    (b : list (list B)) :
  length a = length b →
  Forall (λ row, length row = n) a → Forall (λ row, length row = n) b →
  map length a = map length b.
Proof.
  intros Hlen Ha. revert b Hlen.
  induction Ha as [|x a Hx _ IH]; intros [|y b] Hlen Hb; try discriminate;
    [reflexivity|].
  cbn [map]. f_equal.
  - apply Forall_inv in Hb. congruence.
  - apply IH; [now injection Hlen|now apply Forall_inv_tail in Hb].
Qed.

Lemma check_targets_same (y : list (list Z)) :
  y ≠ [] → check_targets y y = Ok tt.
Proof.
  intros Hy. unfold check_targets. now rewrite bool_decide_eq_true_2.
Qed.

Lemma check_targets_empty (y_pred : list (list Z)) :
  check_targets [] y_pred = Raise ValueError.
Proof.
  unfold check_targets. rewrite bool_decide_eq_false_2; [reflexivity|].
  now intros [H _].
Qed.

Section EvaluatorTheorems.
Variable predict : list json → list (list float).
Variable sigmoid : float → float.

Lemma hard_preds_shape (threshold : float) (logits : list (list float)) :
  map length (hard_preds_of sigmoid threshold logits) = map length logits.
Proof.
  unfold hard_preds_of. rewrite map_map. apply map_ext. intros row.
  apply length_map.
Qed.

(** On a dataset that is not empty, with one row of logits per record,
    the matrices pass the input validation of the metrics. *)
Lemma check_targets_evaluator (data : list json) (threshold : float)
    (hard_labels : list (list Z)) :
  data ≠ [] →
  one_row_per_record data (predict data) →
  hard_labels_of threshold data = Ok hard_labels →
  check_targets hard_labels (hard_preds_of sigmoid threshold (predict data))
  = Ok tt.
Proof.
  intros Hne [Hrows Hwidth] Hgt.
  destruct (hard_labels_shape _ _ _ Hgt) as [Hlen Hcols].
  unfold check_targets. rewrite bool_decide_eq_true_2; [reflexivity|].
  split.
  - intros ->. destruct data; [congruence|discriminate].
  - rewrite hard_preds_shape.
    apply (same_width_rows (length LABEL_KEYS)); [congruence|assumption..].
Qed.

(** C8, amended.  On a dataset that is not empty, for which the student
    returns one row of logits per record and one logit per label, once the
    ground truth is built the metric computation returns.  In its
    per-label report, a label with at least one positive ground-truth
    example has F1 = 1 when the hard predictions equal the ground truth,
    and a label with no positive ground-truth example has precision,
    recall and F1 equal to 0. *)
Theorem evaluator_label_metrics (data : list json) (threshold : float)
    (hard_labels : list (list Z)) :
  data ≠ [] →
  one_row_per_record data (predict data) →
  hard_labels_of threshold data = Ok hard_labels →
  ∃ metrics,
    evaluate_model predict sigmoid data threshold = Ok metrics ∧
    ∀ j label, LABEL_KEYS !! j = Some label →
      ∃ row, per_label metrics !! label = Some row ∧
        (hard_preds_of sigmoid threshold (predict data) = hard_labels →
         (0 < true_sum hard_labels j)%Z → (f1_score row == 1)%Q) ∧
        (true_sum hard_labels j = 0%Z →
         (precision row == 0)%Q ∧ (recall row == 0)%Q ∧ (f1_score row == 0)%Q).
Proof.
  intros Hne Hshape Hgt. unfold evaluate_model. rewrite Hgt.
  cbn [mbind result_bind].
  rewrite (check_targets_evaluator data threshold hard_labels Hne Hshape Hgt).
  eexists. split; [reflexivity|]. cbn [per_label].
  intros j label Hj. eexists.
  split; [exact (classification_report_label _ _ _ j label Hj)|].
  split.
  - intros -> Hpos. now apply label_identical_f1.
  - apply label_no_positive.
Qed.

End EvaluatorTheorems.

Lemma oracle_one_row_per_record :
  one_row_per_record [unreviewed_record; reviewed_record]
                     (oracle_predict [unreviewed_record; reviewed_record]).
Proof. split; [reflexivity|]. repeat constructor. Qed.

Lemma evaluator_label_metrics_witness :
  ∃ metrics,
    evaluate_model oracle_predict softsign_sigmoid
                   [unreviewed_record; reviewed_record] 0.5 = Ok metrics ∧
    ∀ j label, LABEL_KEYS !! j = Some label →
      ∃ row, per_label metrics !! label = Some row ∧
        (hard_preds_of softsign_sigmoid 0.5
           (oracle_predict [unreviewed_record; reviewed_record])
         = sample_ground_truth →
         (0 < true_sum sample_ground_truth j)%Z → (f1_score row == 1)%Q) ∧
        (true_sum sample_ground_truth j = 0%Z →
         (precision row == 0)%Q ∧ (recall row == 0)%Q ∧ (f1_score row == 0)%Q).
Proof.
  apply (evaluator_label_metrics oracle_predict softsign_sigmoid
           [unreviewed_record; reviewed_record] 0.5 sample_ground_truth).
  - discriminate.
  - exact oracle_one_row_per_record.
  - vm_compute. reflexivity.
Defined.

(** C8 as stated fails on an empty dataset: the ground truth is built
    (it has no row, so no label has a positive example) and the metric
    computation raises [ValueError]. *)
Lemma evaluator_raises_on_empty_dataset :
  hard_labels_of 0.5 [] = Ok []
  ∧ true_sum [] 0 = 0%Z
  ∧ evaluate_model oracle_predict softsign_sigmoid [] 0.5 = Raise ValueError.
Proof. repeat split. Qed.

(** The stand-in student reproduces the ground truth of the samples, so
    the first part of the statement applies to it. *)
Example oracle_predictions_match :
  hard_preds_of softsign_sigmoid 0.5
    (oracle_predict [unreviewed_record; reviewed_record])
  = sample_ground_truth.
Proof. vm_compute. reflexivity. Qed.

(** ** Properties of the distillation loss *)

Open Scope R_scope.

(** Entry-wise facts about literal rows. *)
Ltac forall_by tac :=
  repeat match goal with
         | |- Forall _ (_ :: _) => constructor; [cbv beta; tac|]
         | |- Forall _ [] => constructor
         end.

Ltac rows_by tac :=
  forall_by ltac:(unfold zero_row, one_hot_row, promotion_teacher_row,
                    faint_teacher_row, two_faint_row, confident_logits;
                  forall_by tac).

Lemma xsum_Some (l : list R) : xsum (map Some l) = Some (Rsum l).
Proof.
  induction l as [|x l IH]; [reflexivity|].
  cbn [map xsum fold_right Rsum]. fold (xsum (map Some l)). now rewrite IH.
Qed.

Lemma Rsum_nil : Rsum [] = 0.
Proof. reflexivity. Qed.

Lemma Rsum_cons (x : R) (l : list R) : Rsum (x :: l) = x + Rsum l.
Proof. reflexivity. Qed.

Lemma Rsum_nonneg (l : list R) : Forall (λ x, 0 <= x) l → 0 <= Rsum l.
Proof.
  induction 1 as [|x l Hx _ IH]; [rewrite Rsum_nil; lra|].
  rewrite Rsum_cons. lra.
Qed.

Lemma Rsum_map_ext_in {A : Type} (f g : A → R) (l : list A) :
  (∀ x, In x l → f x = g x) → Rsum (map f l) = Rsum (map g l).
Proof. intros H. f_equal. now apply map_ext_in. Qed.

Lemma Rsum_map_scale {A : Type} (c : R) (f : A → R) (l : list A) :
  Rsum (map (λ x, c * f x) l) = c * Rsum (map f l).
Proof.
  induction l as [|x l IH]; cbn [map]; rewrite ?Rsum_cons, ?Rsum_nil; [lra|].
  rewrite IH. lra.
Qed.

Lemma Rsum_map_plus {A : Type} (f g : A → R) (l : list A) :
  Rsum (map (λ x, f x + g x) l) = Rsum (map f l) + Rsum (map g l).
Proof.
  induction l as [|x l IH]; cbn [map]; rewrite ?Rsum_cons, ?Rsum_nil; [lra|].
  rewrite IH. lra.
Qed.

Lemma Rsum_map_pos {A : Type} (f : A → R) (l : list A) :
  l ≠ [] → (∀ x, In x l → 0 < f x) → 0 < Rsum (map f l).
Proof.
  intros Hne Hf. destruct l as [|x l]; [congruence|].
  cbn [map]. rewrite Rsum_cons.
  assert (0 <= Rsum (map f l)).
  { apply Rsum_nonneg, Forall_forall. intros y Hy.
    apply list_elem_of_In, in_map_iff in Hy as (z & <- & Hz).
    left. apply Hf. now right. }
  specialize (Hf x (or_introl eq_refl)). lra.
Qed.

(** *** The primitives on well-formed inputs *)

Lemma py_div_nonzero (x y : R) : y ≠ 0 → py_div x y = Ok (x / y).
Proof. intros Hy. unfold py_div. now destruct (Req_dec_T y 0). Qed.

Lemma torch_pow_prob (p e : R) :
  0 <= p → 0 < e → torch_pow p e = Some (prob_pow p e).
Proof.
  intros Hp He. unfold torch_pow, prob_pow.
  destruct (Rlt_dec 0 p) as [Hpos|Hnpos].
  - destruct (Req_dec_T p 0); [lra|reflexivity].
  - destruct (Req_dec_T p 0); [|lra].
    destruct (Rlt_dec 0 e); [reflexivity|lra].
Qed.

Lemma prob_pow_nonneg (p e : R) : 0 <= prob_pow p e.
Proof.
  unfold prob_pow. destruct (Req_dec_T p 0); [lra|].
  left. apply exp_pos.
Qed.

Lemma prob_pow_zero (e : R) : prob_pow 0 e = 0.
Proof. unfold prob_pow. destruct (Req_dec_T 0 0); [reflexivity|lra]. Qed.

Lemma prob_pow_pos (p e : R) : 0 < p → prob_pow p e = Rpower p e.
Proof. intros Hp. unfold prob_pow. destruct (Req_dec_T p 0); [lra|reflexivity]. Qed.

Lemma tensor_pow_prob (t : list (list R)) (e : R) :
  Forall (Forall (λ p, 0 <= p)) t → 0 < e →
  tensor_pow t e = map (λ row, map Some (map (λ p, prob_pow p e) row)) t.
Proof.
  intros Ht He. unfold tensor_pow. apply map_ext_in. intros row Hrow.
  rewrite map_map. apply map_ext_in. intros p Hp.
  apply torch_pow_prob; [|exact He].
  rewrite Forall_forall in Ht. specialize (Ht row (proj2 (list_elem_of_In _ _) Hrow)).
  rewrite Forall_forall in Ht. apply Ht, list_elem_of_In, Hp.
Qed.

Lemma floor_pos (s : R) : 0 < Rmax 1e-9 s.
Proof. pose proof (Rmax_l 1e-9 s). lra. Qed.

(** The renormalised teacher rows computed by lines 119-120. *)
Lemma teacher_soft_rows (t : list (list R)) (T : R) :
  Forall (Forall (λ p, 0 <= p)) t → 0 < T →
  let powered := tensor_pow t (1 / T) in
  div_rows powered (clamp_min (sum_lastdim powered) 1e-9)
  = map (λ row, map Some (teacher_soft_spec T row)) t.
Proof.
  intros Ht HT. cbv zeta.
  assert (0 < 1 / T) as He by (apply Rdiv_lt_0_compat; lra).
  rewrite (tensor_pow_prob t (1 / T) Ht He).
  unfold div_rows, clamp_min, sum_lastdim. rewrite !map_map.
  clear Ht. induction t as [|row t IH]; [reflexivity|].
  cbn [map zip_with]. rewrite IH. f_equal.
  rewrite xsum_Some. cbn [option_map]. unfold teacher_soft_spec.
  rewrite !map_map. apply map_ext. intros p. unfold xdiv.
  pose proof (floor_pos (Rsum (map (λ x, prob_pow x (1 / T)) row))) as Hpos.
  destruct (Req_dec_T _ 0) as [Hz|_]; [lra|].
  now rewrite (Rmax_comm 1e-9).
Qed.

Lemma Rsum_exp_pos (x : list R) : x ≠ [] → 0 < Rsum (map exp x).
Proof. intros Hx. apply Rsum_map_pos; [exact Hx|]. intros v _. apply exp_pos. Qed.

Lemma Rsum_exp_shift (x : list R) (m : R) :
  Rsum (map (λ v, exp (v - m)) x) = exp (- m) * Rsum (map exp x).
Proof.
  rewrite <- Rsum_map_scale. apply Rsum_map_ext_in. intros v _.
  rewrite <- exp_plus. f_equal. lra.
Qed.

(** The shifted computation of [log_softmax] is the logarithm of the
    softmax. *)
Lemma log_softmax_row_spec (x : list R) : log_softmax_row x = log_softmax_spec x.
Proof.
  unfold log_softmax_row, log_softmax_spec, softmax_spec. rewrite map_map.
  apply map_ext_in. intros v Hv.
  assert (x ≠ []) as Hx by (intros ->; contradiction).
  pose proof (Rsum_exp_pos x Hx) as HS.
  rewrite Rsum_exp_shift.
  rewrite ln_mult by (apply exp_pos || exact HS).
  unfold Rdiv. rewrite ln_mult by (apply exp_pos || now apply Rinv_0_lt_compat).
  rewrite ln_Rinv by exact HS. rewrite !ln_exp. lra.
Qed.

Lemma kl_pointwise_prob (lq q : R) :
  0 <= q → kl_pointwise lq (Some q) = Some (xlogx q - q * lq).
Proof.
  intros Hq. unfold kl_pointwise, xlogx.
  destruct (Req_dec_T q 0) as [->|Hne]; [f_equal; lra|].
  destruct (Rlt_dec 0 q); [reflexivity|lra].
Qed.

Lemma kl_row_prob (lq q : list R) :
  Forall (λ v, 0 <= v) q →
  xsum (zip_with kl_pointwise lq (map Some q)) = Some (kl_row_spec lq q).
Proof.
  intros Hq. unfold kl_row_spec. rewrite <- xsum_Some. f_equal.
  revert lq. induction Hq as [|v q Hv _ IH]; intros [|l lq]; try reflexivity.
  cbn [map zip_with]. now rewrite IH, kl_pointwise_prob.
Qed.

Lemma kl_rows_prob (input target : list (list R)) :
  Forall (Forall (λ v, 0 <= v)) target →
  map xsum (zip_with (zip_with kl_pointwise) input (map (map Some) target))
  = map Some (zip_with kl_row_spec input target).
Proof.
  intros Ht. revert input.
  induction Ht as [|q target Hq _ IH]; intros [|lq input]; try reflexivity.
  cbn [map zip_with]. now rewrite IH, kl_row_prob.
Qed.

Lemma shape_map_Some (t : list (list R)) : shape (map (map Some) t) = shape t.
Proof.
  unfold shape. rewrite map_map. apply map_ext. intros row. apply length_map.
Qed.

Lemma INR_length_nonzero {A : Type} (l : list A) : l ≠ [] → INR (length l) ≠ 0.
Proof.
  intros Hl. destruct l; [congruence|]. apply not_0_INR. discriminate.
Qed.

Lemma kl_div_batchmean_prob (input target : list (list R)) :
  input ≠ [] →
  shape input = shape target →
  Forall (Forall (λ v, 0 <= v)) target →
  kl_div_batchmean input (map (map Some) target)
  = Ok (Some (KL_batchmean_spec input target)).
Proof.
  intros Hne Hshape Ht. unfold kl_div_batchmean.
  rewrite shape_map_Some, bool_decide_eq_true_2 by exact Hshape.
  rewrite kl_rows_prob by exact Ht. rewrite xsum_Some.
  unfold xdiv, KL_batchmean_spec.
  destruct (Req_dec_T (INR (length input)) 0) as [Hz|_]; [|reflexivity].
  now apply INR_length_nonzero in Hz.
Qed.

(** The stable form of the binary cross-entropy is the textbook one. *)
Lemma bce_pointwise_spec (x y : R) : bce_pointwise x y = bce_spec x y.
Proof.
  unfold bce_pointwise, bce_spec, sigmoid_spec.
  set (m := Rmax (- x) 0).
  assert (0 < 1 + exp (- x)) as Hden by (pose proof (exp_pos (- x)); lra).
  assert (exp (- m) + exp (- x - m) = exp (- m) * (1 + exp (- x))) as ->.
  { replace (- x - m) with (- m + - x) by lra. rewrite exp_plus. lra. }
  rewrite ln_mult by (apply exp_pos || exact Hden). rewrite ln_exp.
  assert (1 - 1 / (1 + exp (- x)) = exp (- x) * / (1 + exp (- x))) as ->.
  { field. lra. }
  unfold Rdiv. rewrite Rmult_1_l.
  rewrite ln_mult by (apply exp_pos || now apply Rinv_0_lt_compat).
  rewrite ln_Rinv by exact Hden. rewrite ln_exp. lra.
Qed.

Lemma bce_rows_spec (x y : list (list R)) :
  zip_with (zip_with bce_pointwise) x y = zip_with (zip_with bce_spec) x y.
Proof.
  revert y. induction x as [|r x IH]; intros [|s y]; try reflexivity.
  cbn [zip_with]. rewrite IH. f_equal.
  clear. revert s. induction r as [|a r IH]; intros [|b s]; try reflexivity.
  cbn [zip_with]. now rewrite IH, bce_pointwise_spec.
Qed.

Lemma concat_nonempty {A : Type} (t : list (list A)) :
  t ≠ [] → Forall (λ row, row ≠ []) t → concat t ≠ [].
Proof.
  intros Ht Hrows. destruct t as [|row t]; [congruence|].
  apply Forall_inv in Hrows. destruct row; [congruence|]. discriminate.
Qed.

Lemma bce_mean_spec (x y : list (list R)) :
  x ≠ [] → Forall (λ row, row ≠ []) x → shape x = shape y →
  binary_cross_entropy_with_logits_mean x y
  = Ok (Some (BCEWithLogits_mean_spec x y)).
Proof.
  intros Hx Hrows Hshape. unfold binary_cross_entropy_with_logits_mean.
  rewrite bool_decide_eq_true_2 by exact Hshape.
  rewrite bce_rows_spec. unfold xdiv, BCEWithLogits_mean_spec.
  destruct (Req_dec_T (INR (length (concat x))) 0) as [Hz|_]; [|reflexivity].
  apply INR_length_nonzero in Hz; [contradiction|].
  now apply concat_nonempty.
Qed.

Lemma teacher_soft_spec_nonneg (T : R) (p : list R) :
  Forall (λ v, 0 <= v) (teacher_soft_spec T p).
Proof.
  unfold teacher_soft_spec. apply Forall_forall. intros v Hv.
  apply list_elem_of_In, in_map_iff in Hv as (w & <- & Hw).
  apply in_map_iff in Hw as (q & <- & _).
  apply Rmult_le_pos; [apply prob_pow_nonneg|].
  left. apply Rinv_0_lt_compat. rewrite Rmax_comm. apply floor_pos.
Qed.

Lemma teacher_soft_spec_length (T : R) (p : list R) :
  length (teacher_soft_spec T p) = length p.
Proof. unfold teacher_soft_spec. now rewrite !length_map. Qed.

Lemma log_softmax_shape (t : list (list R)) (T : R) :
  shape (map (λ x, log_softmax_spec (map (λ v, v / T) x)) t) = shape t.
Proof.
  unfold shape. rewrite map_map. apply map_ext. intros row.
  unfold log_softmax_spec, softmax_spec. now rewrite !length_map.
Qed.

Lemma log_softmax_div_scalar (t : list (list R)) (T : R) :
  log_softmax (div_scalar t T)
  = map (λ x, log_softmax_spec (map (λ v, v / T) x)) t.
Proof.
  unfold log_softmax, div_scalar. rewrite map_map. apply map_ext.
  intros row. apply log_softmax_row_spec.
Qed.

Lemma teacher_soft_of_spec (t : list (list R)) (T : R) :
  Forall (Forall (λ p, 0 <= p)) t → 0 < T →
  teacher_soft_of t T = Ok (map (λ row, map Some (teacher_soft_spec T row)) t).
Proof.
  intros Ht HT. unfold teacher_soft_of.
  rewrite py_div_nonzero by lra. cbn [mbind result_bind].
  now rewrite (teacher_soft_rows t T Ht HT).
Qed.

(** The KL term of the loss in closed form. *)
Lemma kd_loss_kl_spec (student_logits teacher_probs : list (list R)) (T : R) :
  0 < T →
  student_logits ≠ [] →
  shape teacher_probs = shape student_logits →
  Forall (Forall (λ p, 0 <= p)) teacher_probs →
  kd_loss_kl student_logits teacher_probs T
  = Ok (Some (kl_term_spec student_logits teacher_probs T)).
Proof.
  intros HT Hne Hshape Hprob. unfold kd_loss_kl.
  rewrite (teacher_soft_of_spec teacher_probs T Hprob HT).
  cbn [mbind result_bind].
  rewrite log_softmax_div_scalar.
  rewrite <- (map_map (teacher_soft_spec T) (map Some)).
  rewrite kl_div_batchmean_prob.
  - cbn [mbind result_bind xmul xlift2]. unfold kl_term_spec.
    do 2 f_equal. lra.
  - destruct student_logits; [congruence|discriminate].
  - rewrite log_softmax_shape, <- Hshape. unfold shape. rewrite map_map.
    apply map_ext. intros row. now rewrite teacher_soft_spec_length.
  - apply Forall_forall. intros row Hrow.
    apply list_elem_of_In, in_map_iff in Hrow as (p & <- & _).
    apply teacher_soft_spec_nonneg.
Qed.

(** C1. For a batch of student logits, teacher probability vectors and
    supervision targets of one shape [B x N] with [B, N >= 1], a
    temperature [T > 0] and any weights, the loss is
    [alphaKL * T^2 * KL_batchmean(log_softmax(logits / T), teacherSoft)
     + alphaCE * BCEWithLogits_mean(logits, target)], where [teacherSoft]
    raises each teacher probability to the power [1/T] and divides by the
    sum of the example floored at [1e-9]. *)
Theorem kd_loss_formula (student_logits teacher_probs labels : list (list R))
    (T alpha_kl alpha_ce : R) :
  0 < T →
  student_logits ≠ [] →
  Forall (λ row, row ≠ []) student_logits →
  shape teacher_probs = shape student_logits →
  shape labels = shape student_logits →
  Forall (Forall (λ p, 0 <= p)) teacher_probs →
  kd_loss student_logits teacher_probs labels T alpha_kl alpha_ce
  = Ok (Some (alpha_kl
              * (T * T
                 * KL_batchmean_spec
                     (map (λ x, log_softmax_spec (map (λ v, v / T) x))
                          student_logits)
                     (map (teacher_soft_spec T) teacher_probs))
              + alpha_ce * BCEWithLogits_mean_spec student_logits labels)).
Proof.
  intros HT Hne Hrows Hst Hsl Hprob. unfold kd_loss.
  rewrite kd_loss_kl_spec by assumption. cbn [mbind result_bind].
  rewrite bce_mean_spec by (assumption || now symmetry).
  reflexivity.
Qed.

Lemma kd_loss_formula_witness :
  kd_loss [zero_row] [promotion_teacher_row] [promotion_teacher_row] 2 0.7 0.3
  = Ok (Some (kd_loss_spec [zero_row] [promotion_teacher_row]
                           [promotion_teacher_row] 2 0.7 0.3)).
Proof.
  apply (kd_loss_formula [zero_row] [promotion_teacher_row]
           [promotion_teacher_row] 2 0.7 0.3).
  - lra.
  - discriminate.
  - forall_by discriminate.
  - reflexivity.
  - reflexivity.
  - rows_by lra.
Defined.

(** *** All-zero teacher vectors *)

Lemma teacher_soft_spec_zeros (T : R) (row : list R) :
  Forall (λ p, p = 0) row → teacher_soft_spec T row = map (λ _, 0) row.
Proof.
  intros Hz. unfold teacher_soft_spec. rewrite map_map.
  apply map_ext_in. intros p Hp.
  rewrite Forall_forall in Hz. rewrite (Hz p) by apply list_elem_of_In, Hp.
  rewrite prob_pow_zero. unfold Rdiv. apply Rmult_0_l.
Qed.

Lemma xlogx_zero : xlogx 0 = 0.
Proof. unfold xlogx. destruct (Req_dec_T 0 0); [reflexivity|lra]. Qed.

Lemma kl_row_spec_zeros {A : Type} (lq : list R) (row : list A) :
  kl_row_spec lq (map (λ _, 0) row) = 0.
Proof.
  unfold kl_row_spec. revert lq.
  induction row as [|a row IH]; intros [|l lq]; try reflexivity.
  cbn [map zip_with]. rewrite Rsum_cons, IH, xlogx_zero. lra.
Qed.

Lemma Rsum_zeros (l : list R) : Forall (λ v, v = 0) l → Rsum l = 0.
Proof.
  induction 1 as [|x l -> _ IH]; [reflexivity|]. rewrite Rsum_cons, IH. lra.
Qed.

Lemma kl_term_spec_zeros (student_logits teacher_probs : list (list R)) (T : R) :
  Forall (Forall (λ p, p = 0)) teacher_probs →
  kl_term_spec student_logits teacher_probs T = 0.
Proof.
  intros Hz. unfold kl_term_spec, KL_batchmean_spec.
  rewrite Rsum_zeros; [unfold Rdiv; lra|].
  generalize (map (λ x, log_softmax_spec (map (λ v, v / T) x)) student_logits).
  intros lqs. revert lqs.
  induction Hz as [|row t Hrow _ IH]; intros [|lq lqs]; cbn [map zip_with];
    try constructor.
  - rewrite teacher_soft_spec_zeros by exact Hrow. apply kl_row_spec_zeros.
  - apply IH.
Qed.

Lemma zeros_nonneg (t : list (list R)) :
  Forall (Forall (λ p, p = 0)) t → Forall (Forall (λ p, 0 <= p)) t.
Proof.
  intros Hz. eapply Forall_impl; [exact Hz|]. intros row Hrow.
  eapply Forall_impl; [exact Hrow|]. intros p ->. lra.
Qed.

Lemma kd_loss_kl_all_zero (student_logits teacher_probs : list (list R)) (T : R) :
  0 < T →
  student_logits ≠ [] →
  shape teacher_probs = shape student_logits →
  Forall (Forall (λ p, p = 0)) teacher_probs →
  kd_loss_kl student_logits teacher_probs T = Ok (Some 0).
Proof.
  intros HT Hne Hst Hz.
  rewrite kd_loss_kl_spec by (assumption || now apply zeros_nonneg).
  now rewrite kl_term_spec_zeros.
Qed.

Lemma kd_loss_all_zero (student_logits teacher_probs labels : list (list R))
    (T alpha_kl alpha_ce : R) :
  0 < T →
  student_logits ≠ [] →
  Forall (λ row, row ≠ []) student_logits →
  shape teacher_probs = shape student_logits →
  shape labels = shape student_logits →
  Forall (Forall (λ p, p = 0)) teacher_probs →
  kd_loss student_logits teacher_probs labels T alpha_kl alpha_ce
  = Ok (Some (alpha_ce * BCEWithLogits_mean_spec student_logits labels)).
Proof.
  intros HT Hne Hrows Hst Hsl Hz. unfold kd_loss.
  rewrite kd_loss_kl_all_zero by assumption. cbn [mbind result_bind].
  rewrite bce_mean_spec by (assumption || now symmetry).
  cbn [mbind result_bind xadd xmul xlift2]. do 2 f_equal. lra.
Qed.

(** C10. When every teacher vector of the batch is all zeros: the powered
    sums are floored to [1e-9], the renormalised teacher rows are all
    zero, the KL term is exactly 0 and the loss is [alphaCE] times the
    binary cross-entropy; in any batch, an all-zero teacher row adds 0 to
    the KL sum. *)
Theorem kd_loss_zero_teacher (student_logits teacher_probs labels : list (list R))
    (T alpha_kl alpha_ce : R) :
  0 < T →
  student_logits ≠ [] →
  Forall (λ row, row ≠ []) student_logits →
  shape teacher_probs = shape student_logits →
  shape labels = shape student_logits →
  Forall (Forall (λ p, p = 0)) teacher_probs →
  let powered := tensor_pow teacher_probs (1 / T) in
  clamp_min (sum_lastdim powered) 1e-9 = map (λ _, Some 1e-9) teacher_probs
  ∧ div_rows powered (clamp_min (sum_lastdim powered) 1e-9)
    = map (map (λ _, Some 0)) teacher_probs
  ∧ kd_loss_kl student_logits teacher_probs T = Ok (Some 0)
  ∧ kd_loss student_logits teacher_probs labels T alpha_kl alpha_ce
    = Ok (Some (alpha_ce * BCEWithLogits_mean_spec student_logits labels))
  ∧ (∀ lq row, Forall (λ p, p = 0) row →
     kl_row_spec lq (teacher_soft_spec T row) = 0).
Proof.
  intros HT Hne Hrows Hst Hsl Hz powered.
  pose proof (zeros_nonneg teacher_probs Hz) as Hprob.
  assert (0 < 1 / T) as He by (apply Rdiv_lt_0_compat; lra).
  split; [|split; [|split; [|split]]].
  - subst powered. rewrite (tensor_pow_prob _ _ Hprob He).
    unfold clamp_min, sum_lastdim. rewrite !map_map.
    apply map_ext_in. intros row Hrow. rewrite xsum_Some. cbn [option_map].
    f_equal. rewrite Rsum_zeros.
    + apply Rmax_left. lra.
    + rewrite Forall_forall in Hz.
      specialize (Hz row (proj2 (list_elem_of_In _ _) Hrow)).
      apply Forall_forall. intros v Hv.
      apply list_elem_of_In, in_map_iff in Hv as (p & <- & Hp).
      rewrite Forall_forall in Hz. rewrite (Hz p) by apply list_elem_of_In, Hp.
      apply prob_pow_zero.
  - subst powered. rewrite (teacher_soft_rows teacher_probs T Hprob HT).
    apply map_ext_in. intros row Hrow.
    rewrite Forall_forall in Hz.
    specialize (Hz row (proj2 (list_elem_of_In _ _) Hrow)).
    rewrite teacher_soft_spec_zeros by exact Hz. now rewrite map_map.
  - now apply kd_loss_kl_all_zero.
  - now apply kd_loss_all_zero.
  - intros lq row Hrow. rewrite teacher_soft_spec_zeros by exact Hrow.
    apply kl_row_spec_zeros.
Qed.

Lemma kd_loss_zero_teacher_witness :
  let powered := tensor_pow [zero_row] (1 / 2) in
  clamp_min (sum_lastdim powered) 1e-9 = map (λ _, Some 1e-9) [zero_row]
  ∧ div_rows powered (clamp_min (sum_lastdim powered) 1e-9)
    = map (map (λ _, Some 0)) [zero_row]
  ∧ kd_loss_kl [promotion_teacher_row] [zero_row] 2 = Ok (Some 0)
  ∧ kd_loss [promotion_teacher_row] [zero_row] [zero_row] 2 0.7 0.3
    = Ok (Some (0.3 * BCEWithLogits_mean_spec [promotion_teacher_row] [zero_row]))
  ∧ (∀ lq row, Forall (λ p, p = 0) row →
     kl_row_spec lq (teacher_soft_spec 2 row) = 0).
Proof.
  apply (kd_loss_zero_teacher [promotion_teacher_row] [zero_row] [zero_row]
           2 0.7 0.3).
  - lra.
  - discriminate.
  - forall_by discriminate.
  - reflexivity.
  - reflexivity.
  - rows_by lra.
Defined.

(** *** Batches of one example with a single non-zero teacher entry *)

Lemma Rsum_repeat (v : R) (n : nat) : Rsum (repeat v n) = INR n * v.
Proof.
  induction n as [|n IH].
  - cbn [repeat INR]. rewrite Rsum_nil. lra.
  - cbn [repeat]. rewrite Rsum_cons, IH, S_INR. lra.
Qed.

Lemma teacher_soft_spec_head (T a : R) (n : nat) :
  teacher_soft_spec T (a :: repeat 0 n)
  = (prob_pow a (1 / T) / Rmax (prob_pow a (1 / T)) 1e-9) :: repeat 0 n.
Proof.
  unfold teacher_soft_spec. cbn [map]. rewrite !map_repeat, Rsum_cons.
  rewrite prob_pow_zero, Rsum_repeat, Rmult_0_r, Rplus_0_r.
  f_equal. f_equal. unfold Rdiv. apply Rmult_0_l.
Qed.

Lemma kl_row_spec_head (l0 q0 : R) (lrest : list R) (n : nat) :
  kl_row_spec (l0 :: lrest) (q0 :: repeat 0 n) = xlogx q0 - q0 * l0.
Proof.
  unfold kl_row_spec. cbn [zip_with]. rewrite Rsum_cons.
  rewrite <- (map_repeat tt n (λ _ : unit, 0)).
  fold (kl_row_spec lrest (map (λ _ : unit, 0) (repeat tt n))).
  rewrite kl_row_spec_zeros. lra.
Qed.

Lemma log_softmax_spec_head (x0 y : R) (n : nat) :
  ∃ rest, log_softmax_spec (x0 :: repeat y n)
          = ln (exp x0 / (exp x0 + INR n * exp y)) :: rest.
Proof.
  unfold log_softmax_spec, softmax_spec. cbn [map]. eexists.
  rewrite map_repeat, Rsum_cons, Rsum_repeat. reflexivity.
Qed.

(** The KL term of a batch of one example whose teacher vector is [a]
    followed by zeros and whose logits are [x0] followed by copies of [y]. *)
Lemma kd_loss_kl_single (a x0 y T : R) (n : nat) :
  0 < T → 0 <= a →
  kd_loss_kl [x0 :: repeat y n] [a :: repeat 0 n] T
  = Ok (Some (let q0 := prob_pow a (1 / T) / Rmax (prob_pow a (1 / T)) 1e-9 in
              T * T * (xlogx q0
                       - q0 * ln (exp (x0 / T)
                                  / (exp (x0 / T) + INR n * exp (y / T)))))).
Proof.
  intros HT Ha. rewrite kd_loss_kl_spec.
  - unfold kl_term_spec, KL_batchmean_spec. cbn [map zip_with length].
    rewrite teacher_soft_spec_head, map_repeat.
    destruct (log_softmax_spec_head (x0 / T) (y / T) n) as [rest ->].
    rewrite kl_row_spec_head, Rsum_cons, Rsum_nil. cbv zeta.
    do 3 f_equal. cbn [INR]. unfold Rdiv at 1.
    now rewrite Rinv_1, Rmult_1_r, Rplus_0_r.
  - exact HT.
  - discriminate.
  - unfold shape. cbn [map length]. now rewrite !repeat_length.
  - constructor; [|constructor]. constructor; [exact Ha|].
    apply Forall_forall. intros v Hv.
    apply list_elem_of_In, repeat_spec in Hv. lra.
Qed.

(** *** Rescaling the teacher probabilities *)

Lemma xlogx_pos (q : R) : 0 < q → xlogx q = q * ln q.
Proof. intros Hq. unfold xlogx. destruct (Req_dec_T q 0); [lra|reflexivity]. Qed.

Lemma ln_neg (x : R) : 0 < x → x < 1 → ln x < 0.
Proof. intros H0 H1. rewrite <- ln_1. now apply ln_increasing. Qed.






Lemma prob_pow_one (p : R) : 0 <= p → prob_pow p (1 / 1) = p.
Proof.
  intros Hp. unfold prob_pow. destruct (Req_dec_T p 0) as [->|Hne]; [reflexivity|].
  replace (1 / 1) with 1 by lra. apply Rpower_1. lra.
Qed.



(** *** Non-negativity *)

Lemma ln_le_minus_one (u : R) : 0 < u → ln u <= u - 1.
Proof.
  intros Hu. destruct (Req_dec_T (ln u) 0) as [Hz|Hnz].
  - assert (u = 1) as ->; [|rewrite ln_1; lra].
    apply ln_inv; [exact Hu|lra|now rewrite ln_1].
  - pose proof (exp_ineq1 (ln u) Hnz) as H. rewrite exp_ln in H by exact Hu. lra.
Qed.

(** Gibbs' inequality, pointwise: [q log q - q l >= q - exp l]. *)
Lemma gibbs_pointwise (q l : R) : 0 <= q → q - exp l <= xlogx q - q * l.
Proof.
  intros Hq. pose proof (exp_pos l) as Hl. unfold xlogx.
  destruct (Req_dec_T q 0) as [->|Hne]; [lra|].
  assert (0 < q) as Hpos by lra.
  assert (0 < exp l / q) as Hu by (apply Rdiv_lt_0_compat; assumption).
  pose proof (ln_le_minus_one _ Hu) as H.
  unfold Rdiv in H. rewrite ln_mult in H by (try apply Rinv_0_lt_compat; assumption).
  rewrite ln_exp, ln_Rinv in H by exact Hpos.
  assert (q * (l + - ln q) <= q * (exp l * / q - 1)) as H'
      by (apply Rmult_le_compat_l; lra).
  replace (q * (exp l * / q - 1)) with (exp l - q) in H' by (field; lra).
  lra.
Qed.

Lemma gibbs_row (lq q : list R) :
  length lq = length q →
  Forall (λ v, 0 <= v) q →
  Rsum q - Rsum (map exp lq) <= kl_row_spec lq q.
Proof.
  intros Hlen Hq. unfold kl_row_spec. revert lq Hlen.
  induction Hq as [|v q Hv _ IH]; intros [|l lq] Hlen; try discriminate.
  - cbn [map zip_with]. rewrite !Rsum_nil. lra.
  - cbn [map zip_with]. rewrite !Rsum_cons.
    pose proof (gibbs_pointwise v l Hv).
    specialize (IH lq ltac:(now injection Hlen)). lra.
Qed.

Lemma softmax_spec_sum (x : list R) : x ≠ [] → Rsum (softmax_spec x) = 1.
Proof.
  intros Hx. pose proof (Rsum_exp_pos x Hx) as HS. unfold softmax_spec.
  rewrite (Rsum_map_ext_in _ (λ v, / Rsum (map exp x) * exp v))
    by (intros; unfold Rdiv; apply Rmult_comm).
  rewrite Rsum_map_scale. field. lra.
Qed.

Lemma exp_log_softmax_spec (x : list R) :
  map exp (log_softmax_spec x) = softmax_spec x.
Proof.
  unfold log_softmax_spec. rewrite map_map.
  rewrite <- (map_id (softmax_spec x)) at 2. apply map_ext_in.
  intros s Hs. apply exp_ln. unfold softmax_spec in Hs.
  apply in_map_iff in Hs as (v & <- & Hv).
  assert (x ≠ []) as Hx by (intros ->; contradiction).
  apply Rdiv_lt_0_compat; [apply exp_pos|now apply Rsum_exp_pos].
Qed.

Lemma Rsum_div (d : R) (l : list R) :
  Rsum (map (λ v, v / d) l) = Rsum l / d.
Proof.
  induction l as [|x l IH]; cbn [map]; rewrite ?Rsum_cons, ?Rsum_nil.
  - unfold Rdiv. now rewrite Rmult_0_l.
  - rewrite IH. unfold Rdiv. lra.
Qed.

Lemma teacher_soft_spec_sum (T : R) (row : list R) :
  1e-9 <= powered_sum T row → Rsum (teacher_soft_spec T row) = 1.
Proof.
  intros Hs. unfold teacher_soft_spec. rewrite Rsum_div.
  fold (powered_sum T row). rewrite Rmax_left by lra. field. lra.
Qed.

Lemma log_softmax_spec_length (x : list R) :
  length (log_softmax_spec x) = length x.
Proof. unfold log_softmax_spec, softmax_spec. now rewrite !length_map. Qed.

(** The KL divergence of one example is non-negative when the teacher
    row is all zeros or is not floored. *)
Lemma kl_row_nonneg (T : R) (x p : list R) :
  x ≠ [] → length p = length x →
  Forall (λ v, v = 0) p ∨ 1e-9 <= powered_sum T p →
  0 <= kl_row_spec (log_softmax_spec x) (teacher_soft_spec T p).
Proof.
  intros Hx Hlen [Hz|Hs].
  - rewrite teacher_soft_spec_zeros by exact Hz. rewrite kl_row_spec_zeros. lra.
  - pose proof (gibbs_row (log_softmax_spec x) (teacher_soft_spec T p)) as H.
    rewrite log_softmax_spec_length, teacher_soft_spec_length in H.
    specialize (H (eq_sym Hlen) (teacher_soft_spec_nonneg T p)).
    rewrite exp_log_softmax_spec, softmax_spec_sum in H by exact Hx.
    rewrite teacher_soft_spec_sum in H by exact Hs. lra.
Qed.

Lemma sigmoid_spec_range (x : R) : 0 < sigmoid_spec x < 1.
Proof.
  unfold sigmoid_spec. pose proof (exp_pos (- x)) as He.
  split.
  - apply Rdiv_lt_0_compat; lra.
  - apply Rmult_lt_reg_r with (1 + exp (- x)); [lra|].
    unfold Rdiv. rewrite Rmult_assoc, Rinv_l by lra. lra.
Qed.

Lemma bce_spec_nonneg (x y : R) : 0 <= y <= 1 → 0 <= bce_spec x y.
Proof.
  intros [Hy0 Hy1]. unfold bce_spec.
  pose proof (sigmoid_spec_range x) as [Hs0 Hs1].
  assert (ln (sigmoid_spec x) < 0) by (apply ln_neg; lra).
  assert (ln (1 - sigmoid_spec x) < 0) by (apply ln_neg; lra).
  assert (y * ln (sigmoid_spec x) <= 0)
    by (apply Rmult_le_0_lt_compat_neg || nra).
  assert ((1 - y) * ln (1 - sigmoid_spec x) <= 0) by nra.
  lra.
Qed.

Lemma bce_rows_nonneg (x y : list (list R)) :
  Forall (Forall (λ v, 0 <= v <= 1)) y →
  0 <= Rsum (map Rsum (zip_with (zip_with bce_spec) x y)).
Proof.
  intros Hy. apply Rsum_nonneg. revert x.
  induction Hy as [|s y Hs _ IH]; intros [|r x]; cbn [zip_with map];
    try constructor; [|apply IH].
  apply Rsum_nonneg. clear IH. revert r.
  induction Hs as [|b s Hb _ IH]; intros [|a r]; cbn [zip_with];
    try constructor; [|apply IH].
  now apply bce_spec_nonneg.
Qed.

Lemma BCEWithLogits_mean_spec_nonneg (x y : list (list R)) :
  Forall (Forall (λ v, 0 <= v <= 1)) y → 0 <= BCEWithLogits_mean_spec x y.
Proof.
  intros Hy. unfold BCEWithLogits_mean_spec.
  pose proof (bce_rows_nonneg x y Hy) as Hnum.
  pose proof (pos_INR (length (concat x))) as Hden.
  destruct (Req_dec_T (INR (length (concat x))) 0) as [->|Hne].
  - unfold Rdiv. rewrite Rinv_0. lra.
  - apply Rmult_le_pos; [exact Hnum|]. left. apply Rinv_0_lt_compat. lra.
Qed.

Lemma kl_rows_nonneg (T : R) (student_logits teacher_probs : list (list R)) :
  Forall (λ row, row ≠ []) student_logits →
  shape teacher_probs = shape student_logits →
  Forall (λ row, Forall (λ p, p = 0) row ∨ 1e-9 <= powered_sum T row)
         teacher_probs →
  Forall (λ v, 0 <= v)
    (zip_with kl_row_spec
       (map (λ x, log_softmax_spec (map (λ v, v / T) x)) student_logits)
       (map (teacher_soft_spec T) teacher_probs)).
Proof.
  intros Hrows Hshape Hfloor. revert teacher_probs Hshape Hfloor.
  induction Hrows as [|x xs Hx _ IH]; intros [|p ps] Hshape Hfloor;
    cbn [map zip_with]; try constructor.
  - apply kl_row_nonneg.
    + destruct x; [congruence|discriminate].
    + rewrite length_map. now injection Hshape.
    + now apply Forall_inv in Hfloor.
  - apply IH; [now injection Hshape|now apply Forall_inv_tail in Hfloor].
Qed.

Lemma kl_term_spec_nonneg (T : R) (student_logits teacher_probs : list (list R)) :
  Forall (λ row, row ≠ []) student_logits →
  shape teacher_probs = shape student_logits →
  Forall (λ row, Forall (λ p, p = 0) row ∨ 1e-9 <= powered_sum T row)
         teacher_probs →
  0 <= kl_term_spec student_logits teacher_probs T.
Proof.
  intros Hrows Hshape Hfloor. unfold kl_term_spec, KL_batchmean_spec.
  pose proof (Rsum_nonneg _ (kl_rows_nonneg T _ _ Hrows Hshape Hfloor)) as Hnum.
  set (B := length (map _ student_logits)).
  pose proof (pos_INR B) as Hden.
  assert (0 <= T * T) by nra.
  apply Rmult_le_pos; [assumption|].
  destruct (Req_dec_T (INR B) 0) as [->|Hne].
  - unfold Rdiv. rewrite Rinv_0. lra.
  - apply Rmult_le_pos; [exact Hnum|]. left. apply Rinv_0_lt_compat. lra.
Qed.

Lemma soft_rows_cons (row : list R) (t : list (list R)) (e m : R) :
  div_rows (tensor_pow (row :: t) e)
           (clamp_min (sum_lastdim (tensor_pow (row :: t) e)) m)
  = map (λ v, xdiv v (option_map (Rmax m)
                        (xsum (map (λ x, torch_pow x e) row))))
        (map (λ x, torch_pow x e) row)
    :: div_rows (tensor_pow t e) (clamp_min (sum_lastdim (tensor_pow t e)) m).
Proof. reflexivity. Qed.

Lemma soft_rows_shape (t : list (list R)) (e m : R) :
  shape (div_rows (tensor_pow t e)
                  (clamp_min (sum_lastdim (tensor_pow t e)) m))
  = shape t.
Proof.
  induction t as [|row t IH]; [reflexivity|].
  rewrite soft_rows_cons. unfold shape in *. cbn [map].
  now rewrite IH, !length_map.
Qed.

Lemma student_log_soft_shape (t : list (list R)) (T : R) :
  shape (log_softmax (div_scalar t T)) = shape t.
Proof. rewrite log_softmax_div_scalar. apply log_softmax_shape. Qed.

(** With a non-zero temperature and tensors of one shape the KL term is
    computed without an exception. *)
Lemma kd_loss_kl_returns (student_logits teacher_probs : list (list R))
    (T : R) :
  T ≠ 0 →
  shape teacher_probs = shape student_logits →
  ∃ kl, kd_loss_kl student_logits teacher_probs T = Ok kl.
Proof.
  intros HT Hshape. unfold kd_loss_kl, teacher_soft_of.
  rewrite py_div_nonzero by exact HT. cbn [mbind result_bind].
  unfold kl_div_batchmean.
  rewrite bool_decide_eq_true_2
    by now rewrite student_log_soft_shape, soft_rows_shape.
  cbn [mbind result_bind]. eexists. reflexivity.
Qed.

(** C4, amended.  For student logits, teacher vectors (the all-zero
    vector included) and supervision targets of one shape, a non-zero
    temperature and any weights, the computation of the loss raises no
    error: it returns a value. *)
Theorem kd_loss_returns (student_logits teacher_probs labels : list (list R))
    (T alpha_kl alpha_ce : R) :
  T ≠ 0 →
  shape teacher_probs = shape student_logits →
  shape labels = shape student_logits →
  ∃ loss,
    kd_loss student_logits teacher_probs labels T alpha_kl alpha_ce = Ok loss.
Proof.
  intros HT Hteacher Hlabels. unfold kd_loss.
  destruct (kd_loss_kl_returns student_logits teacher_probs T HT Hteacher)
    as [kl ->].
  cbn [mbind result_bind]. unfold binary_cross_entropy_with_logits_mean.
  rewrite bool_decide_eq_true_2 by now symmetry.
  cbn [mbind result_bind]. eexists. reflexivity.
Qed.

Lemma kd_loss_returns_witness :
  ∃ loss, kd_loss [confident_logits] [zero_row] [one_hot_row] 2 0.7 0.3
          = Ok loss.
Proof.
  apply (kd_loss_returns [confident_logits] [zero_row] [one_hot_row]
           2 0.7 0.3).
  - lra.
  - reflexivity.
  - reflexivity.
Defined.

(** In exact arithmetic, for student logits, teacher vectors with entries
    in [[0,1]] and supervision targets in [[0,1]] of one shape [B x N]
    ([B, N >= 1]), a temperature [T > 0] and non-negative weights, the
    value of the loss formula is a non-negative real, provided that each
    teacher vector is all zeros or has a powered sum of at least [1e-9],
    so that the floor leaves it normalised.  Rounding and overflow of the
    float32 computation are outside this statement. *)
Lemma kd_loss_nonneg (student_logits teacher_probs labels : list (list R))
    (T alpha_kl alpha_ce : R) :
  0 < T → 0 <= alpha_kl → 0 <= alpha_ce →
  student_logits ≠ [] →
  Forall (λ row, row ≠ []) student_logits →
  shape teacher_probs = shape student_logits →
  shape labels = shape student_logits →
  Forall (Forall (λ p, 0 <= p <= 1)) teacher_probs →
  Forall (Forall (λ y, 0 <= y <= 1)) labels →
  Forall (λ row, Forall (λ p, p = 0) row ∨ 1e-9 <= powered_sum T row)
         teacher_probs →
  ∃ loss, kd_loss student_logits teacher_probs labels T alpha_kl alpha_ce
          = Ok (Some loss) ∧ 0 <= loss.
Proof.
  intros HT Hkl Hce Hne Hrows Hst Hsl Hprob Hlab Hfloor.
  assert (Forall (Forall (λ p, 0 <= p)) teacher_probs) as Hpos.
  { eapply Forall_impl; [exact Hprob|]. intros row Hrow.
    eapply Forall_impl; [exact Hrow|]. intros p Hp. cbn in Hp. lra. }
  unfold kd_loss. rewrite kd_loss_kl_spec by assumption.
  cbn [mbind result_bind].
  rewrite bce_mean_spec by (assumption || now symmetry).
  cbn [mbind result_bind xadd xmul xlift2]. eexists. split; [reflexivity|].
  pose proof (kl_term_spec_nonneg T _ _ Hrows Hst Hfloor).
  pose proof (BCEWithLogits_mean_spec_nonneg student_logits labels Hlab).
  apply Rplus_le_le_0_compat; apply Rmult_le_pos; assumption.
Qed.

(** For [T >= 1] and probabilities in [[0,1]], one entry of at least
    [1e-9] keeps the powered sum above the floor. *)
Lemma prob_pow_ge (p e : R) : 0 <= p <= 1 → 0 < e <= 1 → p <= prob_pow p e.
Proof.
  intros [Hp0 Hp1] [He0 He1]. unfold prob_pow.
  destruct (Req_dec_T p 0) as [->|Hne]; [lra|].
  assert (0 < p) as Hpos by lra.
  assert (ln p <= 0).
  { destruct (Req_dec_T p 1) as [->|]; [rewrite ln_1; lra|].
    left. apply ln_neg; lra. }
  unfold Rpower. rewrite <- (exp_ln p) at 1 by exact Hpos.
  destruct (Req_dec_T (ln p) (e * ln p)) as [<-|Hd]; [lra|].
  left. apply exp_increasing. nra.
Qed.

Lemma powered_sum_ge (T p : R) (row : list R) :
  1 <= T → Forall (λ v, 0 <= v <= 1) row → In p row → p <= powered_sum T row.
Proof.
  intros HT Hrow Hin. unfold powered_sum.
  assert (0 < 1 / T <= 1) as He.
  { split; [apply Rdiv_lt_0_compat; lra|].
    apply Rmult_le_reg_r with T; [lra|]. unfold Rdiv.
    rewrite Rmult_assoc, Rinv_l by lra. lra. }
  induction Hrow as [|v row Hv Hrow IH]; [contradiction|].
  cbn [map]. rewrite Rsum_cons.
  assert (0 <= Rsum (map (λ x, prob_pow x (1 / T)) row)).
  { apply Rsum_nonneg, Forall_forall. intros w Hw.
    apply list_elem_of_In, in_map_iff in Hw as (z & <- & _).
    apply prob_pow_nonneg. }
  destruct Hin as [->|Hin].
  - pose proof (prob_pow_ge p (1 / T) Hv He). lra.
  - specialize (IH Hin). pose proof (prob_pow_nonneg v (1 / T)). lra.
Qed.

(** *** A negative loss under the floor *)

Lemma exp_1_gt_2 : 2 < exp 1.
Proof. pose proof (exp_ineq1 1). lra. Qed.

Lemma exp_2_bounds : 4 < exp 2 <= 9.
Proof.
  replace 2 with (1 + 1) by lra. rewrite exp_plus.
  pose proof exp_1_gt_2. pose proof exp_le_3. nra.
Qed.

Lemma exp_minus_2_bound : 0 < exp (Ropp 2) < / 4.
Proof.
  pose proof exp_2_bounds as [H _]. rewrite exp_Ropp. split.
  - apply Rinv_0_lt_compat. lra.
  - apply Rinv_lt_contravar; lra.
Qed.

Lemma exp_minus_4_bound : 0 < exp (Ropp 4) < / 16.
Proof.
  replace (Ropp 4) with (Ropp 2 + Ropp 2) by lra. rewrite exp_plus.
  pose proof exp_minus_2_bound. nra.
Qed.

Lemma ln_tenth_bound : ln 0.1 <= - 2.
Proof.
  replace 0.1 with (/ 10) by lra. rewrite ln_Rinv by lra.
  pose proof exp_2_bounds as [_ H].
  assert (ln (exp 2) <= ln 10) as Hl.
  { destruct (Req_dec_T (exp 2) 10) as [->|]; [lra|].
    left. apply ln_increasing; [apply exp_pos|lra]. }
  rewrite ln_exp in Hl. lra.
Qed.

Lemma bce_spec_closed (x y : R) : bce_spec x y = (1 - y) * x + ln (1 + exp (- x)).
Proof.
  rewrite <- bce_pointwise_spec. unfold bce_pointwise.
  set (m := Rmax (- x) 0).
  assert (0 < 1 + exp (- x)) as Hden by (pose proof (exp_pos (- x)); lra).
  assert (exp (- m) + exp (- x - m) = exp (- m) * (1 + exp (- x))) as ->.
  { replace (- x - m) with (- m + - x) by lra. rewrite exp_plus. lra. }
  rewrite ln_mult by (apply exp_pos || exact Hden). rewrite ln_exp. lra.
Qed.

Lemma ln_1p_exp_minus_4 : 0 <= ln (1 + exp (Ropp 4)) <= / 16.
Proof.
  pose proof exp_minus_4_bound as [H0 H1].
  pose proof (ln_le_minus_one (1 + exp (Ropp 4)) ltac:(lra)).
  assert (ln 1 < ln (1 + exp (Ropp 4))) by (apply ln_increasing; lra).
  rewrite ln_1 in *. lra.
Qed.

Lemma bce_confident_positive : bce_spec 4 1 <= / 16.
Proof.
  rewrite bce_spec_closed. pose proof ln_1p_exp_minus_4. lra.
Qed.

Lemma bce_confident_negative : bce_spec (-4) 0 <= / 16.
Proof.
  rewrite bce_spec_closed. replace (- -4) with 4 by lra.
  assert (1 + exp 4 = exp 4 * (1 + exp (Ropp 4))) as ->.
  { rewrite Rmult_plus_distr_l, <- exp_plus.
    replace (4 + Ropp 4) with 0 by lra. rewrite exp_0. lra. }
  rewrite ln_mult by (apply exp_pos || (pose proof (exp_pos (Ropp 4)); lra)).
  rewrite ln_exp. pose proof ln_1p_exp_minus_4. lra.
Qed.

Lemma sqrt_power_faint : prob_pow 1e-20 (1 / 2) = 1e-10.
Proof.
  rewrite prob_pow_pos by lra. replace (1 / 2) with (/ 2) by lra.
  rewrite Rpower_sqrt by lra. apply sqrt_lem_1; lra.
Qed.

Lemma confident_log_prob :
  - (14 / 16) <= ln (exp 2 / (exp 2 + INR 14 * exp (Ropp 2))).
Proof.
  pose proof exp_2_bounds as [Ha _]. pose proof exp_minus_2_bound as [Hb0 Hb1].
  set (a := exp 2) in *. set (b := exp (Ropp 2)) in *.
  assert (INR 14 = 14) as -> by (cbn [INR]; lra).
  assert (0 < a + 14 * b) as Hden by lra.
  assert (0 < a / (a + 14 * b)) as Hs by (apply Rdiv_lt_0_compat; lra).
  assert (ln (a / (a + 14 * b)) = - ln ((a + 14 * b) / a)) as ->.
  { rewrite <- ln_Rinv by (apply Rdiv_lt_0_compat; lra). f_equal. field. lra. }
  pose proof (ln_le_minus_one ((a + 14 * b) / a)
                ltac:(apply Rdiv_lt_0_compat; lra)) as Hln.
  assert ((a + 14 * b) / a - 1 = 14 * (b * / a)) as Heq by (field; lra).
  assert (/ a < / 4) by (apply Rinv_lt_contravar; lra).
  assert (0 < / a) by (apply Rinv_0_lt_compat; lra).
  assert (b * / a <= / 4 * / 4) by (apply Rmult_le_compat; lra).
  lra.
Qed.

Lemma bce_mean_confident :
  BCEWithLogits_mean_spec [confident_logits] [one_hot_row] <= / 16.
Proof.
  unfold BCEWithLogits_mean_spec, confident_logits, one_hot_row.
  cbn [zip_with map concat app length]. rewrite !Rsum_cons, !Rsum_nil.
  assert (INR 15 = 15) as -> by (cbn [INR]; lra).
  pose proof bce_confident_positive. pose proof bce_confident_negative. lra.
Qed.

(** C4 as stated fails: a teacher vector in [[0,1]] whose powered sum is
    under the floor is not renormalised, and with the default temperature
    and weights the loss of a confident student is negative. *)
Lemma kd_loss_negative_below_floor :
  ∃ loss, kd_loss [confident_logits] [faint_teacher_row] [one_hot_row]
                  2 0.7 0.3 = Ok (Some loss) ∧ loss < 0.
Proof.
  pose proof bce_mean_confident as Hbce. revert Hbce.
  change confident_logits with (4 :: repeat (-4) 14).
  change faint_teacher_row with (1e-20 :: repeat 0 14).
  intros Hbce. unfold kd_loss. rewrite kd_loss_kl_single by lra.
  cbn [mbind result_bind].
  rewrite bce_mean_spec;
    [|discriminate|forall_by discriminate|reflexivity].
  cbn [mbind result_bind xadd xmul xlift2]. eexists. split; [reflexivity|].
  cbv zeta. rewrite sqrt_power_faint, Rmax_right by lra.
  replace (1e-10 / 1e-9) with 0.1 by lra. rewrite xlogx_pos by lra.
  replace (4 / 2) with 2 by lra. replace (-4 / 2) with (Ropp 2) by lra.
  pose proof confident_log_prob. pose proof ln_tenth_bound. lra.
Qed.

(** *** Entropy of the softened teacher distribution *)

Lemma ln_lt_minus_one (u : R) : 0 < u → u ≠ 1 → ln u < u - 1.
Proof.
  intros Hu Hne.
  assert (ln u ≠ 0) as Hnz.
  { intros Hz. apply Hne. apply ln_inv; [exact Hu|lra|now rewrite ln_1]. }
  pose proof (exp_ineq1 (ln u) Hnz) as H. rewrite exp_ln in H by exact Hu. lra.
Qed.

Lemma gibbs_pointwise_strict (q l : R) :
  0 < q → exp l ≠ q → q - exp l < xlogx q - q * l.
Proof.
  intros Hq Hne. pose proof (exp_pos l) as Hl. rewrite xlogx_pos by exact Hq.
  assert (0 < exp l / q) as Hu by (apply Rdiv_lt_0_compat; assumption).
  assert (exp l / q ≠ 1) as Hu1.
  { intros H1. apply Hne. apply Rmult_eq_reg_r with (/ q).
    - rewrite Rinv_r by lra. exact H1.
    - apply Rinv_neq_0_compat. lra. }
  pose proof (ln_lt_minus_one _ Hu Hu1) as H.
  unfold Rdiv in H. rewrite ln_mult in H by (try apply Rinv_0_lt_compat; assumption).
  rewrite ln_exp, ln_Rinv in H by exact Hq.
  assert (q * (l + - ln q) < q * (exp l * / q - 1)) as H'
      by (apply Rmult_lt_compat_l; lra).
  replace (q * (exp l * / q - 1)) with (exp l - q) in H' by (field; lra).
  lra.
Qed.

Lemma Rsum_map_nonneg {A : Type} (f : A → R) (l : list A) :
  (∀ x, In x l → 0 <= f x) → 0 <= Rsum (map f l).
Proof.
  intros Hf. apply Rsum_nonneg, Forall_forall. intros v Hv.
  apply list_elem_of_In, in_map_iff in Hv as (x & <- & Hx). now apply Hf.
Qed.

Lemma Rsum_map_pos_exists {A : Type} (f : A → R) (l : list A) (a : A) :
  (∀ x, In x l → 0 <= f x) → In a l → 0 < f a → 0 < Rsum (map f l).
Proof.
  intros Hf Hin Ha. induction l as [|x l IH]; [contradiction|].
  cbn [map]. rewrite Rsum_cons.
  assert (0 <= Rsum (map f l))
    by (apply Rsum_map_nonneg; intros y Hy; apply Hf; now right).
  pose proof (Hf x (or_introl eq_refl)).
  destruct Hin as [->|Hin]; [lra|].
  assert (0 < Rsum (map f l)) by (apply IH; [intros y Hy; apply Hf; now right|exact Hin]).
  lra.
Qed.

Lemma Rsum_map_minus {A : Type} (f g : A → R) (l : list A) :
  Rsum (map (λ x, f x - g x) l) = Rsum (map f l) - Rsum (map g l).
Proof.
  induction l as [|x l IH]; cbn [map]; rewrite ?Rsum_cons, ?Rsum_nil; [lra|].
  rewrite IH. lra.
Qed.

Section Softened.
Variable row : list R.
Hypothesis row_nonneg : Forall (λ p, 0 <= p) row.

Lemma softened_sum (beta : R) :
  0 < partition row beta → Rsum (map (softened beta row) row) = 1.
Proof.
  intros HZ. unfold softened. fold (partition row beta).
  rewrite <- (map_map (λ x, prob_pow x beta) (λ v, v / partition row beta)).
  rewrite Rsum_div. fold (partition row beta). field. lra.
Qed.

Lemma softened_nonneg (beta p : R) : 0 < partition row beta → 0 <= softened beta row p.
Proof.
  intros HZ. unfold softened. fold (partition row beta).
  apply Rmult_le_pos; [apply prob_pow_nonneg|].
  left. now apply Rinv_0_lt_compat.
Qed.

Lemma softened_zero (beta : R) : softened beta row 0 = 0.
Proof. unfold softened. rewrite prob_pow_zero. unfold Rdiv. apply Rmult_0_l. Qed.

Lemma softened_pos (beta p : R) :
  0 < partition row beta → 0 < p →
  0 < softened beta row p
  ∧ ln (softened beta row p) = beta * ln p - ln (partition row beta).
Proof.
  intros HZ Hp. unfold softened. fold (partition row beta).
  rewrite prob_pow_pos by exact Hp.
  assert (0 < Rpower p beta) as Hw by apply exp_pos.
  split; [now apply Rdiv_lt_0_compat|].
  unfold Rdiv. rewrite ln_mult by (try apply Rinv_0_lt_compat; assumption).
  rewrite ln_Rinv by exact HZ. unfold Rpower. rewrite ln_exp. lra.
Qed.

(** [q log q] of a softened entry. *)
Lemma xlogx_softened (beta p : R) :
  0 < partition row beta → 0 <= p →
  xlogx (softened beta row p)
  = softened beta row p * (beta * ln p - ln (partition row beta)).
Proof.
  intros HZ Hp. destruct (Req_dec_T p 0) as [->|Hne].
  - rewrite softened_zero, xlogx_zero. lra.
  - destruct (softened_pos beta p HZ ltac:(lra)) as [Hq Hln].
    rewrite xlogx_pos by exact Hq. now rewrite Hln.
Qed.

Lemma in_row_nonneg (p : R) : In p row → 0 <= p.
Proof.
  intros Hp. pose proof row_nonneg as H. rewrite Forall_forall in H.
  apply H, list_elem_of_In, Hp.
Qed.

(** The entropy at inverse temperature [beta] is [log Z - beta * E[log p]]. *)
Lemma entropy_softened (beta : R) :
  0 < partition row beta →
  entropy (map (softened beta row) row)
  = ln (partition row beta) - beta * mean_log beta row.
Proof.
  intros HZ. unfold entropy, mean_log. rewrite map_map.
  rewrite (Rsum_map_ext_in _
             (λ p, beta * (softened beta row p * ln p)
                   - ln (partition row beta) * softened beta row p)).
  - rewrite Rsum_map_minus, !Rsum_map_scale, softened_sum by exact HZ. lra.
  - intros p Hp. rewrite xlogx_softened by (exact HZ || now apply in_row_nonneg).
    lra.
Qed.

Lemma gibbs_gap_nonneg (beta beta' p : R) :
  0 < partition row beta → 0 < partition row beta' → 0 <= p →
  0 <= gibbs_gap row beta beta' p.
Proof.
  intros HZ HZ' Hp. unfold gibbs_gap.
  destruct (Req_dec_T p 0) as [->|Hne].
  - rewrite !softened_zero, xlogx_zero. lra.
  - destruct (softened_pos beta' p HZ' ltac:(lra)) as [Hq' Hln'].
    pose proof (gibbs_pointwise (softened beta row p)
                  (beta' * ln p - ln (partition row beta'))
                  (softened_nonneg beta p HZ)) as H.
    rewrite <- Hln', exp_ln in H by exact Hq'. rewrite <- Hln'. lra.
Qed.

Lemma gibbs_gap_pos (beta beta' p : R) :
  0 < partition row beta → 0 < partition row beta' → 0 < p →
  softened beta row p ≠ softened beta' row p →
  0 < gibbs_gap row beta beta' p.
Proof.
  intros HZ HZ' Hp Hne. unfold gibbs_gap.
  destruct (softened_pos beta p HZ Hp) as [Hq _].
  destruct (softened_pos beta' p HZ' Hp) as [Hq' Hln'].
  pose proof (gibbs_pointwise_strict (softened beta row p)
                (beta' * ln p - ln (partition row beta')) Hq) as H.
  rewrite <- Hln', exp_ln in H by exact Hq'. rewrite <- Hln'.
  specialize (H ltac:(congruence)). lra.
Qed.

Lemma gibbs_gap_sum (beta beta' : R) :
  0 < partition row beta → 0 < partition row beta' →
  Rsum (map (gibbs_gap row beta beta') row)
  = ln (partition row beta') - ln (partition row beta)
    - (beta' - beta) * mean_log beta row.
Proof.
  intros HZ HZ'. unfold gibbs_gap.
  rewrite (Rsum_map_ext_in _
             (λ p, (beta - beta') * (softened beta row p * ln p)
                   + ((ln (partition row beta') - ln (partition row beta) - 1)
                      * softened beta row p
                      + 1 * softened beta' row p))).
  - rewrite !Rsum_map_plus, !Rsum_map_scale, !softened_sum by assumption.
    unfold mean_log. lra.
  - intros p Hp. rewrite xlogx_softened by (exact HZ || now apply in_row_nonneg).
    lra.
Qed.

(** [log Z] lies above its tangent lines. *)
Lemma log_partition_tangent (beta beta' : R) :
  0 < partition row beta → 0 < partition row beta' →
  (beta' - beta) * mean_log beta row
  <= ln (partition row beta') - ln (partition row beta).
Proof.
  intros HZ HZ'. pose proof (gibbs_gap_sum beta beta' HZ HZ') as Hsum.
  assert (0 <= Rsum (map (gibbs_gap row beta beta') row)).
  { apply Rsum_map_nonneg. intros p Hp.
    apply gibbs_gap_nonneg; try assumption. now apply in_row_nonneg. }
  lra.
Qed.

Lemma log_partition_tangent_strict (beta beta' a : R) :
  0 < partition row beta → 0 < partition row beta' →
  In a row → 0 < a → softened beta row a ≠ softened beta' row a →
  (beta' - beta) * mean_log beta row
  < ln (partition row beta') - ln (partition row beta).
Proof.
  intros HZ HZ' Hin Ha Hne. pose proof (gibbs_gap_sum beta beta' HZ HZ') as Hsum.
  assert (0 < Rsum (map (gibbs_gap row beta beta') row)).
  { apply Rsum_map_pos_exists with a; [|exact Hin|now apply gibbs_gap_pos].
    intros p Hp. apply gibbs_gap_nonneg; try assumption. now apply in_row_nonneg. }
  lra.
Qed.

(** Two distinct positive entries cannot both keep their softened value
    when the inverse temperature changes. *)
Lemma softened_moves (beta beta' a b : R) :
  0 < partition row beta → 0 < partition row beta' → beta ≠ beta' →
  0 < a → 0 < b → a ≠ b →
  softened beta row a ≠ softened beta' row a
  ∨ softened beta row b ≠ softened beta' row b.
Proof.
  intros HZ HZ' Hbeta Ha Hb Hab.
  destruct (Req_dec_T (softened beta row a) (softened beta' row a)) as [Ea|];
    [|now left].
  destruct (Req_dec_T (softened beta row b) (softened beta' row b)) as [Eb|];
    [|now right].
  exfalso.
  destruct (softened_pos beta a HZ Ha) as [_ H1].
  destruct (softened_pos beta' a HZ' Ha) as [_ H2].
  destruct (softened_pos beta b HZ Hb) as [_ H3].
  destruct (softened_pos beta' b HZ' Hb) as [_ H4].
  rewrite Ea in H1. rewrite Eb in H3.
  assert ((beta - beta') * (ln a - ln b) = 0) as Hprod by lra.
  apply Rmult_integral in Hprod as [Hz|Hz]; [lra|].
  apply Hab. apply ln_inv; [exact Ha|exact Hb|lra].
Qed.

(** The entropy strictly decreases in the inverse temperature. *)
Lemma entropy_softened_decreasing (lo hi a b : R) :
  0 < lo < hi →
  0 < partition row lo → 0 < partition row hi →
  In a row → In b row → 0 < a → 0 < b → a ≠ b →
  entropy (map (softened hi row) row) < entropy (map (softened lo row) row).
Proof.
  intros [Hlo Hlt] HZlo HZhi Hina Hinb Ha Hb Hab.
  rewrite !entropy_softened by assumption.
  pose proof (log_partition_tangent lo hi HZlo HZhi) as Htan.
  assert ((lo - hi) * mean_log hi row < ln (partition row lo) - ln (partition row hi))
    as Hstrict.
  { destruct (softened_moves hi lo a b HZhi HZlo ltac:(lra) Ha Hb Hab) as [H|H].
    - now apply log_partition_tangent_strict with a.
    - now apply log_partition_tangent_strict with b. }
  assert (mean_log lo row <= mean_log hi row) as Hmono by nra.
  nra.
Qed.

End Softened.

Lemma teacher_soft_spec_softened (T : R) (row : list R) :
  1e-9 <= powered_sum T row →
  teacher_soft_spec T row = map (softened (1 / T) row) row.
Proof.
  intros Hs. unfold teacher_soft_spec, softened. rewrite map_map.
  fold (powered_sum T row). now rewrite Rmax_left by lra.
Qed.

(** C6, amended.  For a teacher vector with entries in [[0,1]] that has
    two distinct positive entries, and temperatures [0 < T1 < T2] at which
    its powered sum is at least [1e-9] (the floor does not apply), the
    Shannon entropy of the renormalised teacher distribution at [T1] is
    strictly smaller than at [T2]. *)
Theorem entropy_increasing_in_temperature (row : list R) (T1 T2 a b : R) :
  0 < T1 < T2 →
  Forall (λ p, 0 <= p <= 1) row →
  In a row → In b row → 0 < a → 0 < b → a ≠ b →
  1e-9 <= powered_sum T1 row →
  1e-9 <= powered_sum T2 row →
  ∃ q1 q2,
    teacher_soft_of [row] T1 = Ok [map Some q1]
    ∧ teacher_soft_of [row] T2 = Ok [map Some q2]
    ∧ entropy q1 < entropy q2.
Proof.
  intros [HT1 HT12] Hrow Hina Hinb Ha Hb Hab Hs1 Hs2.
  assert (Forall (λ p, 0 <= p) row) as Hpos.
  { eapply Forall_impl; [exact Hrow|]. intros p Hp. cbn in Hp. lra. }
  exists (teacher_soft_spec T1 row), (teacher_soft_spec T2 row).
  split; [apply teacher_soft_of_spec; [now constructor|lra]|].
  split; [apply teacher_soft_of_spec; [now constructor|lra]|].
  rewrite !teacher_soft_spec_softened by assumption.
  apply entropy_softened_decreasing with a b; try assumption.
  - split; [apply Rdiv_lt_0_compat; lra|].
    unfold Rdiv. rewrite !Rmult_1_l. apply Rinv_lt_contravar; [nra|lra].
  - unfold partition. fold (powered_sum T2 row). lra.
  - unfold partition. fold (powered_sum T1 row). lra.
Qed.

Lemma entropy_increasing_in_temperature_witness :
  ∃ q1 q2,
    teacher_soft_of [promotion_teacher_row] 1 = Ok [map Some q1]
    ∧ teacher_soft_of [promotion_teacher_row] 2 = Ok [map Some q2]
    ∧ entropy q1 < entropy q2.
Proof.
  apply (entropy_increasing_in_temperature promotion_teacher_row 1 2 0.9 0.8).
  - lra.
  - unfold promotion_teacher_row. forall_by lra.
  - now left.
  - unfold promotion_teacher_row. cbn [In]. tauto.
  - lra.
  - lra.
  - lra.
  - apply Rle_trans with 0.9; [lra|].
    apply powered_sum_ge; [lra| |now left].
    unfold promotion_teacher_row. forall_by lra.
  - apply Rle_trans with 0.9; [lra|].
    apply powered_sum_ge; [lra| |now left].
    unfold promotion_teacher_row. forall_by lra.
Defined.

Lemma xlogx_one : xlogx 1 = 0.
Proof. rewrite xlogx_pos by lra. rewrite ln_1. lra. Qed.

Lemma teacher_soft_spec_one_hot (T : R) :
  0 < T → teacher_soft_spec T one_hot_row = one_hot_row.
Proof.
  intros HT. change one_hot_row with (1 :: repeat 0 14).
  rewrite teacher_soft_spec_head. f_equal.
  rewrite prob_pow_pos by lra. unfold Rpower.
  rewrite ln_1, Rmult_0_r, exp_0, Rmax_left by lra. lra.
Qed.

Lemma entropy_one_hot : entropy one_hot_row = 0.
Proof.
  unfold entropy, one_hot_row. cbn [map].
  rewrite !Rsum_cons, Rsum_nil, xlogx_one, xlogx_zero. lra.
Qed.

(** C6 as stated fails: the one-hot teacher vector is not uniform, yet
    its renormalised distribution is the same at every temperature, so
    its entropy does not increase from [T = 1] to [T = 2]. *)
Lemma entropy_constant_for_one_hot :
  ∃ q1 q2,
    teacher_soft_of [one_hot_row] 1 = Ok [map Some q1]
    ∧ teacher_soft_of [one_hot_row] 2 = Ok [map Some q2]
    ∧ ¬ entropy q1 < entropy q2.
Proof.
  exists one_hot_row, one_hot_row.
  assert (Forall (Forall (λ p, 0 <= p)) [one_hot_row]) as Hpos by rows_by lra.
  split; [|split].
  - rewrite teacher_soft_of_spec by (exact Hpos || lra). cbn [map].
    now rewrite teacher_soft_spec_one_hot by lra.
  - rewrite teacher_soft_of_spec by (exact Hpos || lra). cbn [map].
    now rewrite teacher_soft_spec_one_hot by lra.
  - rewrite entropy_one_hot. lra.
Qed.

(** *** Entropy under the floor *)

Lemma teacher_soft_spec_head2 (T a b : R) (n : nat) :
  teacher_soft_spec T (a :: b :: repeat 0 n)
  = (prob_pow a (1 / T) / Rmax (prob_pow a (1 / T) + prob_pow b (1 / T)) 1e-9)
    :: (prob_pow b (1 / T) / Rmax (prob_pow a (1 / T) + prob_pow b (1 / T)) 1e-9)
    :: repeat 0 n.
Proof.
  unfold teacher_soft_spec. cbn [map]. rewrite !map_repeat, !Rsum_cons.
  rewrite prob_pow_zero, Rsum_repeat, Rmult_0_r, Rplus_0_r.
  do 3 f_equal. unfold Rdiv. apply Rmult_0_l.
Qed.

Lemma entropy_head2 (u v : R) (n : nat) :
  entropy (u :: v :: repeat 0 n) = - (xlogx u + xlogx v).
Proof.
  unfold entropy. cbn [map]. rewrite map_repeat, !Rsum_cons, Rsum_repeat.
  rewrite xlogx_zero. lra.
Qed.

Lemma exp_17_bound : 131072 < exp 17.
Proof.
  pose proof exp_1_gt_2 as H1. pose proof exp_2_bounds as [H2 _].
  assert (16 < exp 4) as H4
    by (replace 4 with (2 + 2) by lra; rewrite exp_plus; nra).
  assert (256 < exp 8) as H8
    by (replace 8 with (4 + 4) by lra; rewrite exp_plus; nra).
  assert (65536 < exp 16) as H16
    by (replace 16 with (8 + 8) by lra; rewrite exp_plus; nra).
  replace 17 with (16 + 1) by lra. rewrite exp_plus. nra.
Qed.

Lemma ln_100001_bound : ln 100001 < 17.
Proof.
  rewrite <- (ln_exp 17). apply ln_increasing; [lra|].
  pose proof exp_17_bound. lra.
Qed.

(** Below the floor the entropy can decrease with the temperature: the
    vector [(1e-10, 1e-20, 0, ...)] is floored at [T = 1], where its
    entropy exceeds 0.2, and renormalised at [T = 2], where it is almost
    one-hot. *)
Lemma entropy_decreases_below_floor :
  ∃ q1 q2,
    teacher_soft_of [two_faint_row] 1 = Ok [map Some q1]
    ∧ teacher_soft_of [two_faint_row] 2 = Ok [map Some q2]
    ∧ entropy q2 < entropy q1.
Proof.
  assert (Forall (Forall (λ p, 0 <= p)) [two_faint_row]) as Hpos by rows_by lra.
  exists (teacher_soft_spec 1 two_faint_row), (teacher_soft_spec 2 two_faint_row).
  split; [now apply teacher_soft_of_spec; [|lra]|].
  split; [now apply teacher_soft_of_spec; [|lra]|].
  change two_faint_row with (1e-10 :: 1e-20 :: repeat 0 13).
  rewrite !teacher_soft_spec_head2, !entropy_head2.
  rewrite !prob_pow_one by lra.
  assert (prob_pow 1e-10 (1 / 2) = 1e-5) as ->.
  { rewrite prob_pow_pos by lra. replace (1 / 2) with (/ 2) by lra.
    rewrite Rpower_sqrt by lra. apply sqrt_lem_1; lra. }
  assert (prob_pow 1e-20 (1 / 2) = 1e-10) as -> by apply sqrt_power_faint.
  rewrite (Rmax_left (1e-5 + 1e-10) 1e-9) by lra.
  rewrite (Rmax_right (1e-10 + 1e-20) 1e-9) by lra.
  replace (1e-10 / 1e-9) with 0.1 by lra.
  replace (1e-20 / 1e-9) with 1e-11 by lra.
  replace (1e-5 / (1e-5 + 1e-10)) with (/ 1.00001) by lra.
  replace (1e-10 / (1e-5 + 1e-10)) with (/ 100001) by lra.
  rewrite !xlogx_pos by lra. rewrite !ln_Rinv by lra.
  pose proof ln_tenth_bound.
  assert (ln 1e-11 < 0) by (apply ln_neg; lra).
  pose proof (ln_le_minus_one 1.00001 ltac:(lra)).
  assert (0 < ln 1.00001) by (rewrite <- ln_1; apply ln_increasing; lra).
  pose proof ln_100001_bound.
  assert (0 < ln 100001) by (rewrite <- ln_1; apply ln_increasing; lra).
  lra.
Qed.

(** *** Weights *)

(** With a negative weight the loss is negative: for an all-zero teacher
    vector it is [alphaCE] times a positive cross-entropy. *)
Lemma kd_loss_negative_weight :
  ∃ loss, kd_loss [zero_row] [zero_row] [zero_row] 1 0 (-1) = Ok (Some loss)
          ∧ loss < 0.
Proof.
  pose proof (kd_loss_all_zero [zero_row] [zero_row] [zero_row] 1 0 (-1))
    as Hloss.
  specialize (Hloss ltac:(lra) ltac:(discriminate)
                    ltac:(forall_by discriminate) eq_refl eq_refl
                    ltac:(rows_by lra)).
  eexists. split; [exact Hloss|].
  unfold BCEWithLogits_mean_spec, zero_row.
  cbn [zip_with map concat app length]. rewrite !Rsum_cons, !Rsum_nil.
  assert (INR 15 = 15) as -> by (cbn [INR]; lra).
  rewrite bce_spec_closed. replace (- 0) with 0 by lra. rewrite exp_0.
  assert (0 < ln (1 + 1)) by (rewrite <- ln_1 at 1; apply ln_increasing; lra).
  lra.
Qed.

Close Scope R_scope.

(** ** Further properties of the example adapter *)

Lemma list_comp_ext {A B : Type} (f g : A → result B) (l : list A) :
  (∀ x, In x l → f x = g x) → list_comp f l = list_comp g l.
Proof.
  induction l as [|x l IH]; intros H; [reflexivity|].
  cbn [list_comp]. rewrite (H x (or_introl eq_refl)), IH; [reflexivity|].
  intros y Hy. apply H. now right.
Qed.

Lemma list_comp_head_raises {A B : Type} (f : A → result B) (x : A)
    (l : list A) (e : exn) :
  f x = Raise e → list_comp f (x :: l) = Raise e.
Proof. intros H. cbn [list_comp]. now rewrite H. Qed.

Lemma py_index_out_of_range {A : Type} (l : list A) (idx : Z) :
  (idx < - Z.of_nat (length l) ∨ Z.of_nat (length l) <= idx)%Z →
  py_index l idx = Raise IndexError.
Proof.
  intros H. unfold py_index. cbv zeta.
  destruct (Z.ltb_spec idx 0) as [Hneg|Hpos].
  - cbv iota.
    now rewrite (proj2 (Z.ltb_lt (idx + Z.of_nat (length l)) 0)) by lia.
  - cbv iota. rewrite (proj2 (Z.ltb_ge idx 0)) by lia.
    now rewrite (proj2 (Z.leb_le (Z.of_nat (length l)) idx)) by lia.
Qed.

Lemma py_index_negative {A : Type} (l : list A) (idx : Z) :
  (- Z.of_nat (length l) <= idx < 0)%Z →
  py_index l idx = py_index l (idx + Z.of_nat (length l)).
Proof.
  intros H. unfold py_index. cbv zeta.
  pose proof (proj2 (Z.ltb_lt idx 0) ltac:(lia)) as E1.
  pose proof (proj2 (Z.ltb_ge (idx + Z.of_nat (length l)) 0) ltac:(lia)) as E2.
  repeat (rewrite ?E1, ?E2; cbv iota). reflexivity.
Qed.

Section AdapterCoverage.
Context {token_tensor : Type}.
Variable tokenizer : json → Z → result (gmap string token_tensor).
Variable squeeze0 : token_tensor → token_tensor.
Variable float_of_str : string → option float.
Variable max_length : Z.

Abbreviation getitem := (__getitem__ tokenizer squeeze0 float_of_str max_length).

(** X1. Whenever the adapter returns an item, whatever the record and the
    tokenizer, the item holds a float tensor ["teacher_probs"] and a float
    tensor ["labels"], each with one entry per label, and every other
    entry of the item is an entry of the tokenizer's encoding with its
    leading dimension squeezed: an encoding entry named ["teacher_probs"]
    or ["labels"] is overwritten. *)
Theorem item_tensor_shapes (data : list json) (idx : Z)
    (item : gmap string tensor) :
  getitem data idx = Ok item →
  ∃ probs target text enc,
    item !! "teacher_probs" = Some (Float32 probs)
    ∧ item !! "labels" = Some (Float32 target)
    ∧ length probs = length LABEL_KEYS
    ∧ length target = length LABEL_KEYS
    ∧ tokenizer text max_length = Ok enc
    ∧ ∀ k, k ≠ "teacher_probs" → k ≠ "labels" →
        item !! k = (λ v, TokenTensor (squeeze0 v)) <$> enc !! k.
Proof.
  unfold __getitem__. intros H.
  bind_ok H as sample Es. bind_ok H as post Epost. bind_ok H as text Etext.
  bind_ok H as teacher Eteacher. bind_ok H as labels Elabels.
  bind_ok H as probs Eprobs. bind_ok H as inputs Einputs.
  bind_ok H as hard Ehard.
  apply list_comp_length in Eprobs.
  destruct (truthy hard).
  - bind_ok H as ints Eints. apply list_comp_length in Eints.
    injection H as <-.
    exists (map to_float32 probs), (map (λ z, to_float32 (float_of_Z z)) ints),
           text, inputs.
    rewrite lookup_insert_ne, !lookup_insert_eq by discriminate.
    rewrite !length_map.
    repeat split; try assumption; try reflexivity.
    intros k Hk1 Hk2. rewrite !lookup_insert_ne by congruence.
    apply lookup_fmap.
  - injection H as <-.
    exists (map to_float32 probs), (map to_float32 probs), text, inputs.
    rewrite lookup_insert_ne, !lookup_insert_eq by discriminate.
    rewrite !length_map.
    repeat split; try assumption; try reflexivity.
    intros k Hk1 Hk2. rewrite !lookup_insert_ne by congruence.
    apply lookup_fmap.
Qed.

(** X2. The adapter reads the members ["post"], ["teacher"] and
    ["human_labels"] of a record and nothing else, and the evaluator's
    ground truth reads ["teacher"] and ["human_labels"] and nothing else:
    setting any other member of the record changes neither result. *)
Theorem unread_members_ignored (data data' : list json) (idx : Z)
    (m : gmap string json) (k : string) (v : json) (threshold : float) :
  py_index data idx = Ok (JDict m) →
  py_index data' idx = Ok (JDict (<[k := v]> m)) →
  k ≠ "teacher" → k ≠ "human_labels" →
  (k ≠ "post" → getitem data' idx = getitem data idx)
  ∧ ground_truth_row threshold (JDict (<[k := v]> m))
    = ground_truth_row threshold (JDict m).
Proof.
  intros Hidx Hidx' Ht Hh. split.
  - intros Hp. unfold __getitem__. rewrite Hidx, Hidx'.
    cbn [mbind result_bind dict_get].
    now rewrite !lookup_insert_ne by congruence.
  - unfold ground_truth_row. apply list_comp_ext. intros label _.
    unfold ground_truth_entry. cbn [mbind result_bind dict_get].
    now rewrite !lookup_insert_ne by congruence.
Qed.

(** X3. Indexing the dataset follows Python's list indexing: an index
    below [-len] or from [len] on raises [IndexError] before the record is
    looked at, and a negative index in range names the item at
    [idx + len]. *)
Theorem getitem_index_bounds (data : list json) (idx : Z) :
  ((idx < - __len__ data ∨ __len__ data <= idx)%Z →
   getitem data idx = Raise IndexError)
  ∧ ((- __len__ data <= idx < 0)%Z →
     getitem data idx = getitem data (idx + __len__ data)).
Proof.
  unfold __len__, __getitem__. split; intros H.
  - now rewrite py_index_out_of_range.
  - now rewrite py_index_negative.
Qed.

(** X4. On a dataset of records of the input format whose texts the
    tokenizer accepts, every index from [-len] to [len - 1] yields an
    item, and it is the item of the record at that position of the
    dataset (position [idx + len] for a negative index): iterating the
    dataset never raises and visits the records in order. *)
Theorem dataset_iteration_total (data : list json) (idx : Z) :
  Forall (λ sample, conforms sample = true
                    ∧ ∃ enc, tokenizer (sample_text sample) max_length = Ok enc)
         data →
  (- __len__ data <= idx < __len__ data)%Z →
  ∃ sample enc,
    data !! Z.to_nat (if (idx <? 0)%Z then idx + __len__ data else idx)
    = Some sample
    ∧ tokenizer (sample_text sample) max_length = Ok enc
    ∧ getitem data idx = Ok (item_of squeeze0 sample enc).
Proof.
  intros Hall Hidx.
  assert (∀ i, (0 <= i < __len__ data)%Z →
          ∃ sample enc, data !! Z.to_nat i = Some sample
            ∧ tokenizer (sample_text sample) max_length = Ok enc
            ∧ getitem data i = Ok (item_of squeeze0 sample enc)) as Hpos.
  { intros i Hi.
    destruct (py_index_in_range data i Hi) as (sample & Hs & Hlook).
    rewrite Forall_forall in Hall.
    destruct (Hall sample (list_elem_of_lookup_2 _ _ _ Hlook)) as (Hc & enc & Henc).
    exists sample, enc. split; [exact Hlook|]. split; [exact Henc|].
    now apply getitem_conforms. }
  destruct (Z.ltb_spec idx 0) as [Hneg|Hnn].
  - assert (getitem data idx = getitem data (idx + __len__ data)) as ->.
    { unfold __getitem__, __len__ in *. rewrite py_index_negative by lia.
      reflexivity. }
    apply Hpos. lia.
  - apply Hpos. lia.
Qed.

(** X5. A record that is not an object, or whose ["post"], ["teacher"]
    or ["teacher"]["labels"] member is present and not an object, makes
    the adapter raise [AttributeError], whatever the tokenizer does. *)
Theorem ill_nested_record_raises (data : list json) (idx : Z) (sample : json) :
  py_index data idx = Ok sample →
  well_nested sample = false →
  getitem data idx = Raise AttributeError.
Proof.
  intros Hidx Hn. unfold __getitem__. rewrite Hidx.
  cbn [mbind result_bind].
  destruct sample as [| | | | | |m]; try reflexivity.
  cbn [well_nested] in Hn. cbn [dict_get mbind result_bind].
  destruct (m !! "post") as [[| | | | | |p]|];
    cbn [default from_option Datatypes.id dict_get mbind result_bind];
    try reflexivity;
    (destruct (m !! "teacher") as [[| | | | | |t]|];
     cbn [default from_option Datatypes.id dict_get mbind result_bind];
     try reflexivity; cbn in Hn; try discriminate;
     destruct (t !! "labels") as [[| | | | | |l]|];
     cbn [default from_option Datatypes.id] in Hn |- *;
     try discriminate; reflexivity).
Qed.

(** X6. A ["human_labels"] member that is falsy ([null], [false], [0],
    an empty string, list or object) is treated by the adapter exactly as
    a missing one, while the evaluator's ground truth raises
    [AttributeError] on every ["human_labels"] member that is not an
    object: a record with ["human_labels": null] can be trained on and
    cannot be evaluated. *)
Theorem falsy_human_labels (data data' : list json) (idx idx' : Z)
    (m : gmap string json) (h : json) (threshold : float) :
  py_index data idx = Ok (JDict m) →
  py_index data' idx' = Ok (JDict (delete "human_labels" m)) →
  m !! "human_labels" = Some h →
  (truthy h = false → getitem data idx = getitem data' idx')
  ∧ ((∀ d, h ≠ JDict d) →
     ground_truth_row threshold (JDict m) = Raise AttributeError).
Proof.
  intros Hidx Hidx' Hh. split.
  - intros Hfalsy. unfold __getitem__. rewrite Hidx, Hidx'.
    cbn [mbind result_bind dict_get].
    rewrite lookup_delete_eq, !lookup_delete_ne, Hh by discriminate.
    cbn [default from_option Datatypes.id truthy]. now rewrite Hfalsy.
  - intros Hobj. unfold ground_truth_row, LABEL_KEYS.
    apply list_comp_head_raises. unfold ground_truth_entry.
    cbn [dict_get mbind result_bind]. rewrite Hh.
    cbn [default from_option Datatypes.id].
    destruct h as [| | | | | |d]; try reflexivity. now destruct (Hobj d).
Qed.

End AdapterCoverage.

Lemma item_tensor_shapes_witness :
  ∃ probs target text enc,
    item_of toy_squeeze0 unreviewed_record promotion_encoding !! "teacher_probs"
    = Some (Float32 probs)
    ∧ item_of toy_squeeze0 unreviewed_record promotion_encoding !! "labels"
      = Some (Float32 target)
    ∧ length probs = length LABEL_KEYS
    ∧ length target = length LABEL_KEYS
    ∧ toy_tokenizer text 8 = Ok enc
    ∧ ∀ k, k ≠ "teacher_probs" → k ≠ "labels" →
        item_of toy_squeeze0 unreviewed_record promotion_encoding !! k
        = (λ v, TokenTensor (toy_squeeze0 v)) <$> enc !! k.
Proof.
  apply (item_tensor_shapes toy_tokenizer toy_squeeze0 no_float_strings 8
           [unreviewed_record] 0).
  apply getitem_conforms; vm_compute; reflexivity.
Defined.

Lemma unread_members_ignored_witness :
  (("id" : string) ≠ "post" →
   __getitem__ toy_tokenizer toy_squeeze0 no_float_strings 8
               [JDict (<["id" := JInt 7]> promotion_post)] 0
   = __getitem__ toy_tokenizer toy_squeeze0 no_float_strings 8
                 [unreviewed_record] 0)
  ∧ ground_truth_row 0.5 (JDict (<["id" := JInt 7]> promotion_post))
    = ground_truth_row 0.5 (JDict promotion_post).
Proof.
  apply (unread_members_ignored toy_tokenizer toy_squeeze0 no_float_strings 8
           [unreviewed_record] [JDict (<["id" := JInt 7]> promotion_post)] 0
           promotion_post "id" (JInt 7) 0.5).
  - reflexivity.
  - reflexivity.
  - discriminate.
  - discriminate.
Defined.

(** The two halves of the index range on the two sample records. *)
Example index_bounds_of_samples :
  __getitem__ toy_tokenizer toy_squeeze0 no_float_strings 8
              [unreviewed_record; reviewed_record] 2 = Raise IndexError
  ∧ __getitem__ toy_tokenizer toy_squeeze0 no_float_strings 8
                [unreviewed_record; reviewed_record] (-3) = Raise IndexError
  ∧ __getitem__ toy_tokenizer toy_squeeze0 no_float_strings 8
                [unreviewed_record; reviewed_record] (-2)
    = __getitem__ toy_tokenizer toy_squeeze0 no_float_strings 8
                  [unreviewed_record; reviewed_record] 0.
Proof. repeat split. Qed.

Lemma dataset_iteration_total_witness :
  ∃ sample enc,
    [unreviewed_record; reviewed_record]
      !! Z.to_nat (if (-1 <? 0)%Z
                   then -1 + __len__ [unreviewed_record; reviewed_record]
                   else -1)
    = Some sample
    ∧ toy_tokenizer (sample_text sample) 8 = Ok enc
    ∧ __getitem__ toy_tokenizer toy_squeeze0 no_float_strings 8
                  [unreviewed_record; reviewed_record] (-1)
      = Ok (item_of toy_squeeze0 sample enc).
Proof.
  apply (dataset_iteration_total toy_tokenizer toy_squeeze0 no_float_strings 8
           [unreviewed_record; reviewed_record] (-1)).
  - repeat constructor; eexists; reflexivity.
  - unfold __len__. cbn [length]. lia.
Defined.

Lemma ill_nested_record_raises_witness :
  __getitem__ toy_tokenizer toy_squeeze0 no_float_strings 8
              [null_post_record] 0 = Raise AttributeError.
Proof.
  apply (ill_nested_record_raises toy_tokenizer toy_squeeze0 no_float_strings 8
           [null_post_record] 0 null_post_record).
  - reflexivity.
  - vm_compute. reflexivity.
Defined.

Lemma falsy_human_labels_witness :
  (truthy JNull = false →
   __getitem__ toy_tokenizer toy_squeeze0 no_float_strings 8
               [JDict (<["human_labels" := JNull]> promotion_post)] 0
   = __getitem__ toy_tokenizer toy_squeeze0 no_float_strings 8
                 [unreviewed_record] 0)
  ∧ ((∀ d, JNull ≠ JDict d) →
     ground_truth_row 0.5 (JDict (<["human_labels" := JNull]> promotion_post))
     = Raise AttributeError).
Proof.
  apply (falsy_human_labels toy_tokenizer toy_squeeze0 no_float_strings 8
           [JDict (<["human_labels" := JNull]> promotion_post)]
           [unreviewed_record] 0 0
           (<["human_labels" := JNull]> promotion_post) JNull 0.5).
  - reflexivity.
  - vm_compute. reflexivity.
  - vm_compute. reflexivity.
Defined.

(** ** Further properties of the evaluator *)

Lemma count_nonzero_mul_le_r (a b : list Z) :
  (count_nonzero (zip_with Z.mul a b) <= count_nonzero b)%Z.
Proof.
  unfold count_nonzero. apply Nat2Z.inj_le.
  revert b. induction a as [|x a IH]; intros [|y b]; cbn; try lia.
  specialize (IH b).
  destruct (Z.eqb_spec (x * y) 0) as [Hxy|Hxy];
    destruct (Z.eqb_spec y 0) as [Hy|Hy]; cbn; try lia.
Qed.

Lemma count_nonzero_le_length (l : list Z) :
  (count_nonzero l <= Z.of_nat (length l))%Z.
Proof.
  unfold count_nonzero. apply Nat2Z.inj_le.
  induction l as [|x l IH]; cbn; [lia|].
  destruct (negb (x =? 0)%Z); cbn; lia.
Qed.

Lemma count_nonzero_zeros (l : list Z) :
  Forall (λ v, v = 0%Z) l → count_nonzero l = 0%Z.
Proof.
  unfold count_nonzero. induction 1 as [|x l -> _ IH]; [reflexivity|].
  cbn. exact IH.
Qed.

(** The three counts of a label: true positives are at most the predicted
    and at most the actual positives. *)
Lemma counts_ordered (y_true y_pred : list (list Z)) (j : nat) :
  (0 <= tp_sum y_true y_pred j <= pred_sum y_pred j)%Z
  ∧ (tp_sum y_true y_pred j <= true_sum y_true j)%Z.
Proof.
  unfold tp_sum, pred_sum, true_sum.
  pose proof (count_nonzero_nonneg
                (zip_with Z.mul (column j y_true) (column j y_pred))).
  pose proof (count_nonzero_mul_le (column j y_true) (column j y_pred)).
  pose proof (count_nonzero_mul_le_r (column j y_true) (column j y_pred)).
  lia.
Qed.

Lemma prf_divide_unit (n d : Z) :
  (0 <= n <= d)%Z → (0 <= _prf_divide n d 0 <= 1)%Q.
Proof.
  intros [H0 H1]. unfold _prf_divide.
  destruct (Z.eqb_spec d 0) as [Hz|Hnz]; [split; discriminate|].
  destruct d as [|p|p]; [lia| |lia].
  unfold Qle, Qdiv, Qmult, Qinv, inject_Z. cbn. split; lia.
Qed.

Lemma label_prfs_unit (y_true y_pred : list (list Z)) (j : nat) :
  let row := label_prfs y_true y_pred 0 j in
  (0 <= precision row <= 1)%Q ∧ (0 <= recall row <= 1)%Q
  ∧ (0 <= f1_score row <= 1)%Q.
Proof.
  cbv zeta. unfold label_prfs, prfs_of_counts. cbn [precision recall f1_score].
  pose proof (counts_ordered y_true y_pred j) as [[H0 H1] H2].
  repeat split; apply prf_divide_unit; lia.
Qed.

Lemma Qsum_unit (l : list Q) :
  Forall (λ q, 0 <= q <= 1)%Q l →
  (0 <= Qsum l <= inject_Z (Z.of_nat (length l)))%Q.
Proof.
  induction 1 as [|q l [Hq0 Hq1] _ [IH0 IH1]].
  - split; discriminate.
  - cbn [Qsum fold_right length]. fold (Qsum l).
    rewrite Nat2Z.inj_succ, <- Z.add_1_r, inject_Z_plus.
    change (inject_Z 1) with 1%Q. split; Lqa.lra.
Qed.

Lemma Qmean_unit (l : list Q) :
  l ≠ [] → Forall (λ q, 0 <= q <= 1)%Q l → (0 <= Qmean l <= 1)%Q.
Proof.
  intros Hne Hl. destruct (Qsum_unit l Hl) as [H0 H1]. unfold Qmean.
  assert (0 < inject_Z (Z.of_nat (length l)))%Q as Hpos.
  { destruct l; [congruence|]. unfold Qlt, inject_Z. cbn. lia. }
  split.
  - apply Qle_shift_div_l; [exact Hpos|]. Lqa.lra.
  - apply Qle_shift_div_r; [exact Hpos|]. Lqa.lra.
Qed.

Lemma Qmean_zeros (l : list Q) :
  Forall (λ q, q == 0)%Q l → (Qmean l == 0)%Q.
Proof.
  intros Hl. unfold Qmean.
  assert (Qsum l == 0)%Q as ->.
  { induction Hl as [|q l Hq _ IH]; [reflexivity|].
    cbn [Qsum fold_right]. fold (Qsum l). rewrite Hq, IH. reflexivity. }
  unfold Qdiv. apply Qmult_0_l.
Qed.

(** The sum of zero-one valued scores counts the ones. *)
Lemma Qsum_indicator {A : Type} (f : A → Q) (P : A → bool) (l : list A) :
  (∀ x, In x l → (f x == if P x then 1 else 0)%Q) →
  (Qsum (map f l) == inject_Z (Z.of_nat (length (List.filter P l))))%Q.
Proof.
  induction l as [|x l IH]; intros Hf; [reflexivity|].
  cbn [map Qsum fold_right List.filter]. fold (Qsum (map f l)).
  rewrite (Hf x (or_introl eq_refl)), IH by (intros y Hy; apply Hf; now right).
  destruct (P x); cbn [length].
  - rewrite Nat2Z.inj_succ, <- Z.add_1_r, inject_Z_plus.
    change (inject_Z 1) with 1%Q. Lqa.lra.
  - Lqa.lra.
Qed.

Lemma Forall_map_seq {A : Type} (P : A → Prop) (f : nat → A) (n : nat) :
  (∀ j, P (f j)) → Forall P (map f (seq 0 n)).
Proof.
  intros H. apply Forall_forall. intros a Ha.
  apply list_elem_of_In, in_map_iff in Ha as (j & <- & _). apply H.
Qed.

Lemma macro_prfs_unit (y_true y_pred : list (list Z)) :
  let macro := macro_prfs y_true y_pred 0 in
  (0 <= precision macro <= 1)%Q ∧ (0 <= recall macro <= 1)%Q
  ∧ (0 <= f1_score macro <= 1)%Q.
Proof.
  cbv zeta. unfold macro_prfs, per_label_prfs. cbn [precision recall f1_score].
  rewrite !map_map.
  repeat split; apply Qmean_unit; try discriminate;
    apply Forall_map_seq; intros j; apply (label_prfs_unit y_true y_pred j).
Qed.

(** With identical matrices a label scores 1 when it has a positive row
    and 0 otherwise. *)
Lemma label_identical_scores (y : list (list Z)) (j : nat) :
  let row := label_prfs y y 0 j in
  let one := (if (0 <? true_sum y j)%Z then 1 else 0)%Q in
  (precision row == one)%Q ∧ (recall row == one)%Q ∧ (f1_score row == one)%Q.
Proof.
  cbv zeta. unfold label_prfs, prfs_of_counts. cbn [precision recall f1_score].
  unfold tp_sum. rewrite count_nonzero_mul_self.
  fold (true_sum y j). unfold pred_sum. fold (true_sum y j).
  pose proof (count_nonzero_nonneg (column j y)) as Hnn. fold (true_sum y j) in Hnn.
  destruct (Z.ltb_spec 0 (true_sum y j)) as [Hpos|Hz].
  - repeat split; apply prf_divide_self; lia.
  - assert (true_sum y j = 0%Z) as -> by lia.
    repeat split; apply prf_divide_zero_numerator.
Qed.

Lemma column_zeros (y : list (list Z)) (j : nat) :
  Forall (Forall (λ v, v = 0%Z)) y → Forall (λ v, v = 0%Z) (column j y).
Proof.
  intros Hy. unfold column. apply Forall_forall. intros v Hv.
  apply list_elem_of_In, in_map_iff in Hv as (row & <- & Hrow).
  rewrite Forall_forall in Hy.
  specialize (Hy row (proj2 (list_elem_of_In _ _) Hrow)).
  destruct (nth_in_or_default j row 0%Z) as [Hin | ->]; [|reflexivity].
  rewrite Forall_forall in Hy. apply Hy, list_elem_of_In, Hin.
Qed.

Lemma label_no_prediction (y_true y_pred : list (list Z)) (j : nat) :
  Forall (Forall (λ v, v = 0%Z)) y_pred →
  let row := label_prfs y_true y_pred 0 j in
  (precision row == 0)%Q ∧ (recall row == 0)%Q ∧ (f1_score row == 0)%Q.
Proof.
  intros Hp. cbv zeta. unfold label_prfs, prfs_of_counts.
  cbn [precision recall f1_score].
  assert (pred_sum y_pred j = 0%Z) as Hpred
      by (apply count_nonzero_zeros, column_zeros, Hp).
  pose proof (counts_ordered y_true y_pred j) as [[H0 H1] _].
  assert (tp_sum y_true y_pred j = 0%Z) as -> by lia.
  repeat split; apply prf_divide_zero_numerator.
Qed.

Section EvaluatorCoverage.
Variable predict : list json → list (list float).
Variable sigmoid : float → float.

(** X7. The two matrices handed to the metrics are binary: whenever the
    ground truth is built it has one row per record, each row has one
    entry per label and every entry is 0 or 1; the hard predictions have
    the shape of the logits and every entry is 0 or 1. *)
Theorem evaluator_matrices_binary (threshold : float) (data : list json)
    (rows : list (list Z)) (logits : list (list float)) :
  hard_labels_of threshold data = Ok rows →
  (length rows = length data
   ∧ Forall (λ row, length row = length LABEL_KEYS
                    ∧ Forall (λ v, v = 0 ∨ v = 1)%Z row) rows)
  ∧ shape (hard_preds_of sigmoid threshold logits) = shape logits
  ∧ Forall (Forall (λ v, v = 0 ∨ v = 1)%Z)
           (hard_preds_of sigmoid threshold logits).
Proof.
  intros Hrows. split; [split|split].
  - exact (list_comp_length _ _ _ Hrows).
  - eapply list_comp_Forall; [|exact Hrows].
    intros sample row _ Hrow. split.
    + exact (list_comp_length _ _ _ Hrow).
    + eapply list_comp_Forall; [|exact Hrow].
      intros label v _ Hv. apply ground_truth_entry_inv in Hv as ->.
      destruct (marked (human_labels sample) label); [now right|].
      destruct (teacher_meets threshold sample label); [now right|now left].
  - unfold shape, hard_preds_of. rewrite map_map. apply map_ext.
    intros row. apply length_map.
  - unfold hard_preds_of. apply Forall_forall. intros row Hrow.
    apply list_elem_of_In, in_map_iff in Hrow as (xs & <- & _).
    apply Forall_forall. intros v Hv.
    apply list_elem_of_In, in_map_iff in Hv as (x & <- & _).
    destruct (PrimFloat.leb (to_float32 threshold) (sigmoid x));
      [now right|now left].
Qed.

(** X8. Every score the evaluator returns is a proportion: on a dataset
    that is not empty, with one row of logits per record and one logit per
    label, once the ground truth is built the evaluator returns, and the
    macro F1, precision and recall, and the precision, recall and F1 of
    every label in the report, lie between 0 and 1; the support of a label
    is between 0 and the number of records. *)
Theorem metrics_in_unit_interval (data : list json) (threshold : float)
    (hard_labels : list (list Z)) :
  data ≠ [] →
  one_row_per_record data (predict data) →
  hard_labels_of threshold data = Ok hard_labels →
  ∃ metrics,
    evaluate_model predict sigmoid data threshold = Ok metrics
    ∧ (0 <= macro_f1 metrics <= 1)%Q
    ∧ (0 <= macro_precision metrics <= 1)%Q
    ∧ (0 <= macro_recall metrics <= 1)%Q
    ∧ ∀ label, In label LABEL_KEYS →
        ∃ row, per_label metrics !! label = Some row
          ∧ (0 <= precision row <= 1)%Q ∧ (0 <= recall row <= 1)%Q
          ∧ (0 <= f1_score row <= 1)%Q
          ∧ (0 <= support row <= Z.of_nat (length data))%Z.
Proof.
  intros Hne Hshape Hgt. unfold evaluate_model. rewrite Hgt.
  cbn [mbind result_bind].
  rewrite (check_targets_evaluator predict sigmoid data threshold hard_labels
             Hne Hshape Hgt).
  eexists. split; [reflexivity|].
  cbn [macro_f1 macro_precision macro_recall per_label].
  pose proof (macro_prfs_unit hard_labels
                (hard_preds_of sigmoid threshold (predict data)))
    as (Hp & Hr & Hf).
  split; [exact Hf|]. split; [exact Hp|]. split; [exact Hr|].
  intros label Hin.
  apply list_elem_of_In, list_elem_of_lookup_1 in Hin as [j Hj].
  eexists. split; [exact (classification_report_label _ _ _ j label Hj)|].
  pose proof (label_prfs_unit hard_labels
                (hard_preds_of sigmoid threshold (predict data)) j)
    as (Hp' & Hr' & Hf').
  split; [exact Hp'|]. split; [exact Hr'|]. split; [exact Hf'|].
  unfold label_prfs, prfs_of_counts. cbn [support]. unfold true_sum.
  pose proof (count_nonzero_nonneg (column j hard_labels)).
  pose proof (count_nonzero_le_length (column j hard_labels)) as Hle.
  unfold column in Hle at 2. rewrite length_map in Hle.
  rewrite (list_comp_length _ _ _ Hgt) in Hle. lia.
Qed.

(** X9. On a dataset that is not empty, when the hard predictions equal
    the ground truth, the macro F1, precision and recall all equal the
    share of labels that have at least one positive ground-truth row: a
    label without positive examples counts as 0 in the average, so a
    perfect student scores below 1 on a validation set that lacks a
    label. *)
Theorem perfect_predictions_macro (data : list json) (threshold : float)
    (hard_labels : list (list Z)) :
  data ≠ [] →
  hard_labels_of threshold data = Ok hard_labels →
  hard_preds_of sigmoid threshold (predict data) = hard_labels →
  ∃ metrics,
    evaluate_model predict sigmoid data threshold = Ok metrics
    ∧ let share := (inject_Z (Z.of_nat (supported_labels hard_labels))
                    / inject_Z (Z.of_nat (length LABEL_KEYS)))%Q in
      (macro_f1 metrics == share)%Q
      ∧ (macro_precision metrics == share)%Q
      ∧ (macro_recall metrics == share)%Q.
Proof.
  intros Hne Hgt Hpred. unfold evaluate_model. rewrite Hgt, Hpred.
  cbn [mbind result_bind]. rewrite check_targets_same.
  2:{ intros ->. apply list_comp_length in Hgt.
      destruct data; [congruence|discriminate]. }
  eexists. split; [reflexivity|].
  cbv zeta. cbn [macro_f1 macro_precision macro_recall].
  unfold macro_prfs, per_label_prfs, Qmean, supported_labels.
  cbn [precision recall f1_score]. rewrite !map_map, !length_map, length_seq.
  repeat split;
    (rewrite (Qsum_indicator _ (λ j, (0 <? true_sum hard_labels j)%Z));
     [reflexivity|]; intros j _; apply (label_identical_scores hard_labels j)).
Qed.

(** X10. On a dataset that is not empty, with one row of logits per
    record and one logit per label, when the student predicts no label
    for any record the evaluator still returns, and the macro F1,
    precision and recall and the precision, recall and F1 of every label
    are 0. *)
Theorem no_predictions_zero_scores (data : list json) (threshold : float)
    (hard_labels : list (list Z)) :
  data ≠ [] →
  one_row_per_record data (predict data) →
  hard_labels_of threshold data = Ok hard_labels →
  Forall (Forall (λ v, v = 0%Z))
         (hard_preds_of sigmoid threshold (predict data)) →
  ∃ metrics,
    evaluate_model predict sigmoid data threshold = Ok metrics
    ∧ (macro_f1 metrics == 0)%Q
    ∧ (macro_precision metrics == 0)%Q
    ∧ (macro_recall metrics == 0)%Q
    ∧ ∀ label, In label LABEL_KEYS →
        ∃ row, per_label metrics !! label = Some row
          ∧ (precision row == 0)%Q ∧ (recall row == 0)%Q
          ∧ (f1_score row == 0)%Q.
Proof.
  intros Hne Hshape Hgt Hzero. unfold evaluate_model. rewrite Hgt.
  cbn [mbind result_bind].
  rewrite (check_targets_evaluator predict sigmoid data threshold hard_labels
             Hne Hshape Hgt).
  eexists. split; [reflexivity|].
  cbn [macro_f1 macro_precision macro_recall per_label].
  unfold macro_prfs, per_label_prfs. cbn [precision recall f1_score].
  rewrite !map_map.
  split; [|split; [|split]].
  - apply Qmean_zeros, Forall_map_seq. intros j.
    apply (label_no_prediction hard_labels _ j Hzero).
  - apply Qmean_zeros, Forall_map_seq. intros j.
    apply (label_no_prediction hard_labels _ j Hzero).
  - apply Qmean_zeros, Forall_map_seq. intros j.
    apply (label_no_prediction hard_labels _ j Hzero).
  - intros label Hin.
    apply list_elem_of_In, list_elem_of_lookup_1 in Hin as [j Hj].
    eexists. split; [exact (classification_report_label _ _ _ j label Hj)|].
    apply (label_no_prediction hard_labels _ j Hzero).
Qed.

End EvaluatorCoverage.

Lemma evaluator_matrices_binary_witness :
  (length sample_ground_truth = length [unreviewed_record; reviewed_record]
   ∧ Forall (λ row, length row = length LABEL_KEYS
                    ∧ Forall (λ v, v = 0 ∨ v = 1)%Z row) sample_ground_truth)
  ∧ shape (hard_preds_of softsign_sigmoid 0.5
             (oracle_predict [unreviewed_record; reviewed_record]))
    = shape (oracle_predict [unreviewed_record; reviewed_record])
  ∧ Forall (Forall (λ v, v = 0 ∨ v = 1)%Z)
           (hard_preds_of softsign_sigmoid 0.5
              (oracle_predict [unreviewed_record; reviewed_record])).
Proof.
  apply (evaluator_matrices_binary softsign_sigmoid 0.5
           [unreviewed_record; reviewed_record] sample_ground_truth
           (oracle_predict [unreviewed_record; reviewed_record])).
  vm_compute. reflexivity.
Defined.

Lemma metrics_in_unit_interval_witness :
  ∃ metrics,
    evaluate_model oracle_predict softsign_sigmoid
                   [unreviewed_record; reviewed_record] 0.5 = Ok metrics
    ∧ (0 <= macro_f1 metrics <= 1)%Q
    ∧ (0 <= macro_precision metrics <= 1)%Q
    ∧ (0 <= macro_recall metrics <= 1)%Q
    ∧ ∀ label, In label LABEL_KEYS →
        ∃ row, per_label metrics !! label = Some row
          ∧ (0 <= precision row <= 1)%Q ∧ (0 <= recall row <= 1)%Q
          ∧ (0 <= f1_score row <= 1)%Q
          ∧ (0 <= support row
             <= Z.of_nat (length [unreviewed_record; reviewed_record]))%Z.
Proof.
  apply (metrics_in_unit_interval oracle_predict softsign_sigmoid
           [unreviewed_record; reviewed_record] 0.5 sample_ground_truth).
  - discriminate.
  - exact oracle_one_row_per_record.
  - vm_compute. reflexivity.
Defined.

Lemma perfect_predictions_macro_witness :
  ∃ metrics,
    evaluate_model oracle_predict softsign_sigmoid
                   [unreviewed_record; reviewed_record] 0.5 = Ok metrics
    ∧ let share := (inject_Z (Z.of_nat (supported_labels sample_ground_truth))
                    / inject_Z (Z.of_nat (length LABEL_KEYS)))%Q in
      (macro_f1 metrics == share)%Q
      ∧ (macro_precision metrics == share)%Q
      ∧ (macro_recall metrics == share)%Q.
Proof.
  apply (perfect_predictions_macro oracle_predict softsign_sigmoid
           [unreviewed_record; reviewed_record] 0.5 sample_ground_truth).
  - discriminate.
  - vm_compute. reflexivity.
  - vm_compute. reflexivity.
Defined.

(** On the two sample records three of the fifteen labels have a positive
    row, so the perfect stand-in student has a macro F1 of 1/5. *)
Example perfect_macro_of_samples :
  (inject_Z (Z.of_nat (supported_labels sample_ground_truth))
   / inject_Z (Z.of_nat (length LABEL_KEYS)) == 1 # 5)%Q.
Proof. vm_compute. reflexivity. Qed.

Lemma no_predictions_zero_scores_witness :
  ∃ metrics,
    evaluate_model silent_predict softsign_sigmoid
                   [unreviewed_record; reviewed_record] 0.5 = Ok metrics
    ∧ (macro_f1 metrics == 0)%Q
    ∧ (macro_precision metrics == 0)%Q
    ∧ (macro_recall metrics == 0)%Q
    ∧ ∀ label, In label LABEL_KEYS →
        ∃ row, per_label metrics !! label = Some row
          ∧ (precision row == 0)%Q ∧ (recall row == 0)%Q
          ∧ (f1_score row == 0)%Q.
Proof.
  apply (no_predictions_zero_scores silent_predict softsign_sigmoid
           [unreviewed_record; reviewed_record] 0.5 sample_ground_truth).
  - discriminate.
  - split; [reflexivity|]. repeat constructor.
  - vm_compute. reflexivity.
  - vm_compute. repeat constructor.
Defined.

(** ** Properties of [load_jsonl] *)

Lemma lstrip_nil_iff (s : list N) :
  lstrip s = [] ↔ forallb is_whitespace s = true.
Proof.
  induction s as [|c s IH]; cbn [lstrip forallb]; [tauto|].
  destruct (is_whitespace c); cbn [andb]; [exact IH|]. split; discriminate.
Qed.

Lemma lstrip_all_whitespace (s : list N) :
  forallb is_whitespace (lstrip s) = true → lstrip s = [].
Proof.
  induction s as [|c s IH]; cbn [lstrip]; [reflexivity|].
  destruct (is_whitespace c) eqn:E; [exact IH|].
  cbn [forallb]. rewrite E. discriminate.
Qed.

Lemma forallb_rev {A : Type} (p : A → bool) (l : list A) :
  forallb p (rev l) = forallb p l.
Proof.
  induction l as [|x l IH]; [reflexivity|].
  cbn [rev forallb]. rewrite forallb_app, IH. cbn [forallb].
  now rewrite andb_true_r, andb_comm.
Qed.

(** A line is kept exactly when it holds a character that is not
    whitespace. *)
Lemma strip_blank (s : list N) :
  str_truthy (strip s) = negb (forallb is_whitespace s).
Proof.
  unfold strip. destruct (forallb is_whitespace s) eqn:E.
  - apply lstrip_nil_iff in E. now rewrite E.
  - cbn [negb]. destruct (rev (lstrip (rev (lstrip s)))) eqn:Er; [|reflexivity].
    exfalso. apply (f_equal (@rev N)) in Er. rewrite rev_involutive in Er.
    cbn [rev] in Er. apply lstrip_nil_iff in Er. rewrite forallb_rev in Er.
    apply lstrip_all_whitespace, lstrip_nil_iff in Er. congruence.
Qed.

Section LoadJsonlTheorems.
Variable json_loads : list N → result json.

(** X11. [load_jsonl] returns a list of records exactly when every line
    that holds a character other than whitespace parses, and the records
    are then the parsed lines in file order: empty and whitespace-only
    lines, a trailing newline included, yield no record, so the dataset is
    as long as the number of remaining lines. *)
Theorem load_jsonl_records (fh : list (list N)) (records : list json) :
  let kept := List.filter (λ line, negb (forallb is_whitespace line)) fh in
  (load_jsonl json_loads fh = Ok records
   ↔ Forall2 (λ line record, json_loads line = Ok record) kept records)
  ∧ (load_jsonl json_loads fh = Ok records →
     __len__ records = Z.of_nat (length kept)
     ∧ (__len__ records <= Z.of_nat (length fh))%Z).
Proof.
  cbv zeta. unfold load_jsonl.
  assert (list_comp_if json_loads (λ line, str_truthy (strip line)) fh
          = Ok records
          ↔ Forall2 (λ line record, json_loads line = Ok record)
              (List.filter (λ line, negb (forallb is_whitespace line)) fh)
              records) as Hiff.
  { revert records. induction fh as [|line fh IH]; intros records;
      cbn [list_comp_if List.filter].
    - split; [intros [= <-]; constructor|].
      intros H. apply Forall2_nil_inv_l in H. now subst.
    - rewrite strip_blank.
      destruct (negb (forallb is_whitespace line)); [|apply IH].
      destruct (json_loads line) as [record|e] eqn:Eline.
      + destruct (list_comp_if json_loads _ fh) as [rest|e] eqn:Erest.
        * split.
          -- intros [= <-]. constructor; [exact Eline|]. now apply IH.
          -- intros H. apply Forall2_cons_inv_l in H as (r & rs & Hr & Hrs & ->).
             apply IH in Hrs. congruence.
        * split; [discriminate|].
          intros H. apply Forall2_cons_inv_l in H as (r & rs & Hr & Hrs & ->).
          apply IH in Hrs. discriminate.
      + split; [discriminate|].
        intros H. apply Forall2_cons_inv_l in H as (r & rs & Hr & Hrs & ->).
        congruence. }
  split; [exact Hiff|].
  intros H. apply Hiff in H. apply Forall2_length in H. unfold __len__.
  rewrite <- H. split; [reflexivity|].
  apply Nat2Z.inj_le. clear. induction fh as [|line fh IH]; cbn; [lia|].
  destruct (negb (forallb is_whitespace line)); cbn; lia.
Qed.

(** X12. The first line that holds a character other than whitespace
    and does not parse aborts the load with the parser's exception,
    whatever follows it: no line is skipped for being malformed. *)
Theorem load_jsonl_first_error (before after : list (list N)) (bad : list N)
    (e : exn) :
  Forall (λ line, forallb is_whitespace line = true
                  ∨ ∃ record, json_loads line = Ok record) before →
  forallb is_whitespace bad = false →
  json_loads bad = Raise e →
  load_jsonl json_loads (before ++ bad :: after) = Raise e.
Proof.
  intros Hbefore Hbad Hraise. unfold load_jsonl.
  induction Hbefore as [|line before Hline _ IH]; cbn [app list_comp_if];
    rewrite strip_blank.
  - now rewrite Hbad, Hraise.
  - destruct Hline as [Hblank|[record Hrecord]].
    + rewrite Hblank. exact IH.
    + destruct (negb (forallb is_whitespace line)); [|exact IH].
      now rewrite Hrecord, IH.
Qed.

End LoadJsonlTheorems.

(** The file [{}\n], [\n], [  null \n], an empty last line: two records. *)
Example load_two_records :
  load_jsonl toy_json_loads
    [[123; 125; 10]; [10]; [32; 32; 110; 117; 108; 108; 32; 10]; []]%N
  = Ok [JDict ∅; JNull].
Proof. vm_compute. reflexivity. Qed.

Lemma load_jsonl_first_error_witness :
  load_jsonl toy_json_loads
    ([[123; 125; 10]; [160; 10]] ++ [123; 10] :: [[123; 125; 10]])%N
  = Raise ValueError.
Proof.
  apply (load_jsonl_first_error toy_json_loads
           [[123; 125; 10]; [160; 10]]%N [[123; 125; 10]]%N [123; 10]%N
           ValueError).
  - constructor; [right; eexists; reflexivity|].
    constructor; [left; reflexivity|]. constructor.
  - reflexivity.
  - reflexivity.
Defined.

(** ** Further properties of the distillation loss *)

Open Scope R_scope.

Lemma xsum_None (l : list (option R)) : In None l → xsum l = None.
Proof.
  induction l as [|a l IH]; [contradiction|].
  intros [->|Hin]; unfold xsum; cbn [fold_right]; fold (xsum l).
  - reflexivity.
  - rewrite IH by exact Hin. now destruct a.
Qed.

Lemma xsum_cons (a : option R) (l : list (option R)) :
  xsum (a :: l) = xadd a (xsum l).
Proof. reflexivity. Qed.

Lemma xadd_None_r (a : option R) : xadd a None = None.
Proof. now destruct a. Qed.

(** X13. The temperature and the batch at their limits: a temperature
    of 0 makes the loss raise [ZeroDivisionError] whatever the tensors
    are, and an empty batch gives a loss that is not a number. *)
Theorem kd_loss_degenerate_arguments
    (student_logits teacher_probs labels : list (list R))
    (T alpha_kl alpha_ce : R) :
  kd_loss student_logits teacher_probs labels 0 alpha_kl alpha_ce
  = Raise ZeroDivisionError
  ∧ (T ≠ 0 → kd_loss [] [] [] T alpha_kl alpha_ce = Ok None).
Proof.
  split.
  - unfold kd_loss, kd_loss_kl, teacher_soft_of, py_div.
    destruct (Req_dec_T 0 0) as [_|Hne]; [reflexivity|now destruct Hne].
  - intros HT. unfold kd_loss, kd_loss_kl, teacher_soft_of.
    rewrite py_div_nonzero by exact HT.
    cbn [mbind result_bind tensor_pow map sum_lastdim clamp_min div_rows
         zip_with div_scalar log_softmax].
    unfold kl_div_batchmean, binary_cross_entropy_with_logits_mean.
    rewrite !bool_decide_eq_true_2 by reflexivity.
    cbn [mbind result_bind zip_with map xsum fold_right length concat INR
         xdiv].
    destruct (Req_dec_T 0 0) as [_|Hne]; [reflexivity|now destruct Hne].
Qed.

(** X14. A supervision target whose shape differs from the shape of the
    logits makes the loss raise [ValueError], for a non-zero temperature
    and a teacher tensor of the logits' shape. *)
Theorem kd_loss_target_shape_mismatch
    (student_logits teacher_probs labels : list (list R))
    (T alpha_kl alpha_ce : R) :
  T ≠ 0 →
  shape teacher_probs = shape student_logits →
  shape labels ≠ shape student_logits →
  kd_loss student_logits teacher_probs labels T alpha_kl alpha_ce
  = Raise ValueError.
Proof.
  intros HT Hteacher Hlabels. unfold kd_loss, kd_loss_kl, teacher_soft_of.
  rewrite py_div_nonzero by exact HT. cbn [mbind result_bind].
  unfold kl_div_batchmean.
  rewrite bool_decide_eq_true_2
    by now rewrite student_log_soft_shape, soft_rows_shape.
  cbn [mbind result_bind]. unfold binary_cross_entropy_with_logits_mean.
  rewrite bool_decide_eq_false_2 by (intros E; now apply Hlabels).
  reflexivity.
Qed.

Lemma torch_pow_negative (p e : R) :
  p < 0 → is_integer e = false → torch_pow p e = None.
Proof.
  intros Hp He. unfold torch_pow.
  destruct (Rlt_dec 0 p); [lra|]. destruct (Req_dec_T p 0); [lra|].
  now rewrite He.
Qed.

Lemma kl_row_none (x : list R) (l : list (option R)) :
  x ≠ [] → l ≠ [] →
  xsum (zip_with kl_pointwise x (map (λ v, xdiv v None) l)) = None.
Proof.
  intros Hx Hl. destruct x as [|a x]; [congruence|].
  destruct l as [|v l]; [congruence|].
  cbn [map zip_with]. apply xsum_None. left. now destruct v.
Qed.

(** A negative teacher entry under a non-integer power spoils the sum of
    the pointwise terms. *)
Lemma kl_rows_none (e m : R) (input t : list (list R)) (row : list R) (p : R) :
  shape t = shape input → In row t → In p row →
  p < 0 → is_integer e = false →
  xsum (map xsum
          (zip_with (zip_with kl_pointwise) input
             (div_rows (tensor_pow t e)
                       (clamp_min (sum_lastdim (tensor_pow t e)) m))))
  = None.
Proof.
  intros Hshape Hrow Hp Hneg He. revert input Hshape.
  induction t as [|r t IH]; [contradiction|].
  intros [|x input] Hshape; [discriminate|].
  injection Hshape as Hlen Hshape. rewrite soft_rows_cons.
  cbn [zip_with map]. rewrite xsum_cons.
  destruct Hrow as [->|Hrow].
  - assert (xsum (map (λ x0, torch_pow x0 e) row) = None) as ->.
    { apply xsum_None, in_map_iff. exists p.
      split; [now apply torch_pow_negative|exact Hp]. }
    cbn [option_map]. rewrite kl_row_none; [reflexivity| |].
    + destruct x; [|discriminate]. now destruct row.
    + now destruct row.
  - rewrite (IH Hrow input Hshape). apply xadd_None_r.
Qed.

Lemma dyadic_not_integer (k : nat) :
  (1 <= k)%nat → is_integer (1 / 2 ^ k) = false.
Proof.
  intros Hk. unfold is_integer.
  destruct (Req_dec_T (IZR (Int_part (1 / 2 ^ k))) (1 / 2 ^ k)) as [E|_];
    [|reflexivity].
  exfalso. revert E. generalize (Int_part (1 / 2 ^ k)). intros z E.
  assert (0 < 2 ^ k) as Hpos by (apply pow_lt; lra).
  assert (IZR z * 2 ^ k = 1) as H by (rewrite E; field; lra).
  destruct k as [|k]; [lia|].
  cbn [pow] in H. rewrite pow_IZR, <- !mult_IZR in H.
  apply eq_IZR in H. lia.
Qed.

(** X15. A negative teacher entry makes the loss not a number at the
    default temperature 2 and at every temperature [2^k] with
    [1 <= k <= 126], for which [1.0 / t] is the exact, non-integer power
    [2^-k] in binary64 and in float32: the power of the negative entry is
    undefined and spreads through the example's normalising sum to the
    whole batch, whatever the weights. *)
Theorem kd_loss_negative_teacher_nan
    (student_logits teacher_probs labels : list (list R)) (k : nat)
    (alpha_kl alpha_ce : R) (row : list R) (p : R) :
  (1 <= k <= 126)%nat →
  shape teacher_probs = shape student_logits →
  shape labels = shape student_logits →
  In row teacher_probs → In p row → p < 0 →
  kd_loss student_logits teacher_probs labels (2 ^ k) alpha_kl alpha_ce
  = Ok None.
Proof.
  intros [Hk _] Hteacher Hlabels Hrow Hp Hneg.
  assert (2 ^ k ≠ 0) as HT by (apply pow_nonzero; lra).
  unfold kd_loss, kd_loss_kl, teacher_soft_of.
  rewrite py_div_nonzero by exact HT. cbn [mbind result_bind].
  unfold kl_div_batchmean.
  rewrite bool_decide_eq_true_2
    by now rewrite student_log_soft_shape, soft_rows_shape.
  rewrite (kl_rows_none (1 / 2 ^ k) 1e-9 _ teacher_probs row p);
    [|now rewrite student_log_soft_shape|assumption..
     |now apply dyadic_not_integer].
  cbn [mbind result_bind xdiv xmul xlift2].
  unfold binary_cross_entropy_with_logits_mean.
  rewrite bool_decide_eq_true_2 by now symmetry.
  reflexivity.
Qed.




(** ** Properties of the training step *)

Section ComputeLossTheorems.
Context {model_output : Type}.
Variable logits : model_output → list (list R).

(** The step on a batch that holds both targets. *)
Lemma compute_loss_with_targets (model : batch → result model_output)
    (self : KDTrainer) (return_outputs : bool) (inputs : batch)
    (teacher_probs labels : list (list R)) :
  inputs !! "teacher_probs" = Some teacher_probs →
  inputs !! "labels" = Some labels →
  compute_loss model logits self return_outputs inputs
  = let rest := delete "labels" (delete "teacher_probs" inputs) in
    (rest,
     match model rest with
     | Ok outputs =>
         match kd_loss (logits outputs) teacher_probs labels
                       (temperature self) (alpha_kl self) (alpha_ce self) with
         | Ok loss =>
             Returned (if return_outputs then LossAndOutputs loss outputs
                       else Loss loss)
         | Raise e => Threw (Builtin e)
         end
     | Raise e => Threw (Builtin e)
     end).
Proof.
  intros Ht Hl. unfold compute_loss, step_bind, pop, current_inputs, call, step_ret.
  rewrite Ht. cbv beta iota. rewrite lookup_delete_ne by discriminate.
  rewrite Hl. cbv beta iota zeta.
  destruct (model _) as [outputs|e]; [|reflexivity].
  now destruct (kd_loss _ _ _ _ _ _).
Qed.

Lemma compute_loss_without_teacher (model : batch → result model_output)
    (self : KDTrainer) (return_outputs : bool) (inputs : batch) :
  inputs !! "teacher_probs" = None →
  compute_loss model logits self return_outputs inputs
  = (inputs, Threw (KeyError "teacher_probs")).
Proof.
  intros Ht. unfold compute_loss, step_bind, pop. now rewrite Ht.
Qed.

Lemma compute_loss_without_labels (model : batch → result model_output)
    (self : KDTrainer) (return_outputs : bool) (inputs : batch) :
  inputs !! "teacher_probs" ≠ None →
  inputs !! "labels" = None →
  compute_loss model logits self return_outputs inputs
  = (delete "teacher_probs" inputs, Threw (KeyError "labels")).
Proof.
  intros Ht Hl. unfold compute_loss, step_bind, pop.
  destruct (inputs !! "teacher_probs") as [teacher_probs|]; [|congruence].
  cbv beta iota. rewrite lookup_delete_ne by discriminate. now rewrite Hl.
Qed.

(** X19. A batch without its ["teacher_probs"] or ["labels"] entry makes
    the step raise [KeyError] for the first missing key, whatever the
    model is; when only ["labels"] is missing, ["teacher_probs"] has
    already been removed from the batch. *)
Theorem compute_loss_missing_target (model : batch → result model_output)
    (self : KDTrainer) (return_outputs : bool) (inputs : batch) :
  (inputs !! "teacher_probs" = None →
   compute_loss model logits self return_outputs inputs
   = (inputs, Threw (KeyError "teacher_probs")))
  ∧ (inputs !! "teacher_probs" ≠ None → inputs !! "labels" = None →
     compute_loss model logits self return_outputs inputs
     = (delete "teacher_probs" inputs, Threw (KeyError "labels"))).
Proof.
  split.
  - apply compute_loss_without_teacher.
  - apply compute_loss_without_labels.
Qed.

(** X20. The student never sees the targets: it is called on the batch
    from which ["teacher_probs"] and ["labels"] have been removed and
    whose other entries are unchanged, so two models that agree on that
    dictionary give the same step. *)
Theorem model_sees_no_targets (model model' : batch → result model_output)
    (self : KDTrainer) (return_outputs : bool) (inputs : batch) :
  (∀ b : batch,
     b !! "teacher_probs" = None → b !! "labels" = None →
     (∀ k, k ≠ "teacher_probs" → k ≠ "labels" → b !! k = inputs !! k) →
     model b = model' b) →
  compute_loss model logits self return_outputs inputs
  = compute_loss model' logits self return_outputs inputs.
Proof.
  intros Hagree.
  destruct (inputs !! "teacher_probs") as [teacher_probs|] eqn:Ht;
    [|now rewrite !compute_loss_without_teacher].
  destruct (inputs !! "labels") as [labels|] eqn:Hl;
    [|now rewrite !compute_loss_without_labels by congruence].
  rewrite !(compute_loss_with_targets _ _ _ _ teacher_probs labels Ht Hl).
  cbv zeta. rewrite Hagree; [reflexivity| | |].
  - rewrite lookup_delete_ne by discriminate. apply lookup_delete_eq.
  - apply lookup_delete_eq.
  - intros k Hk1 Hk2. now rewrite !lookup_delete_ne by congruence.
Qed.

(** X21. The step consumes the targets of the batch it is handed: the
    dictionary it leaves has no ["teacher_probs"] entry, has no
    ["labels"] entry when the first [pop] succeeded, and is unchanged
    elsewhere; a second step on the same dictionary raises [KeyError]. *)
Theorem compute_loss_consumes_targets (model : batch → result model_output)
    (self : KDTrainer) (return_outputs again : bool) (inputs : batch) :
  let inputs' := fst (compute_loss model logits self return_outputs inputs) in
  inputs' !! "teacher_probs" = None
  ∧ (inputs !! "teacher_probs" ≠ None → inputs' !! "labels" = None)
  ∧ (∀ k, k ≠ "teacher_probs" → k ≠ "labels" → inputs' !! k = inputs !! k)
  ∧ compute_loss model logits self again inputs'
    = (inputs', Threw (KeyError "teacher_probs")).
Proof.
  cbv zeta.
  destruct (inputs !! "teacher_probs") as [teacher_probs|] eqn:Ht.
  - destruct (inputs !! "labels") as [labels|] eqn:Hl.
    + rewrite (compute_loss_with_targets _ _ _ _ teacher_probs labels Ht Hl).
      cbv zeta. cbn [fst].
      assert (delete "labels" (delete "teacher_probs" inputs) !! "teacher_probs"
              = None) as Hgone
          by (rewrite lookup_delete_ne by discriminate; apply lookup_delete_eq).
      split; [exact Hgone|]. split; [intros _; apply lookup_delete_eq|].
      split; [intros k Hk1 Hk2; now rewrite !lookup_delete_ne by congruence|].
      now apply compute_loss_without_teacher.
    + rewrite compute_loss_without_labels by congruence. cbn [fst].
      split; [apply lookup_delete_eq|].
      split; [intros _; now rewrite lookup_delete_ne by discriminate|].
      split; [intros k Hk1 Hk2; now rewrite lookup_delete_ne by congruence|].
      apply compute_loss_without_teacher, lookup_delete_eq.
  - rewrite compute_loss_without_teacher by exact Ht. cbn [fst].
    split; [exact Ht|]. split; [congruence|]. split; [reflexivity|].
    now apply compute_loss_without_teacher.
Qed.


End ComputeLossTheorems.

Lemma kd_loss_target_shape_mismatch_witness :
  kd_loss [zero_row] [promotion_teacher_row] [] 2 0.7 0.3 = Raise ValueError.
Proof.
  apply (kd_loss_target_shape_mismatch [zero_row] [promotion_teacher_row] []
           2 0.7 0.3).
  - lra.
  - reflexivity.
  - discriminate.
Defined.

Lemma kd_loss_negative_teacher_nan_witness :
  kd_loss [[0; 0]] [[-0.5; 0.5]] [[0; 1]] (2 ^ 1) 0.7 0.3 = Ok None.
Proof.
  apply (kd_loss_negative_teacher_nan [[0; 0]] [[-0.5; 0.5]] [[0; 1]] 1
           0.7 0.3 [-0.5; 0.5] (-0.5)).
  - lia.
  - reflexivity.
  - reflexivity.
  - now left.
  - now left.
  - lra.
Defined.


Lemma model_sees_no_targets_witness :
  compute_loss toy_model (λ outputs, outputs)
               {| temperature := 2; alpha_kl := 0.7; alpha_ce := 0.3 |}
               false toy_batch
  = compute_loss peeking_model (λ outputs, outputs)
                 {| temperature := 2; alpha_kl := 0.7; alpha_ce := 0.3 |}
                 false toy_batch.
Proof.
  apply (model_sees_no_targets (λ outputs, outputs) toy_model peeking_model
           {| temperature := 2; alpha_kl := 0.7; alpha_ce := 0.3 |}
           false toy_batch).
  intros b _ Hlabels _. unfold peeking_model. now rewrite Hlabels.
Defined.

